(** * SoraYT Studio: task reconciliation and slot scheduling engine

    A shallow embedding of the scheduling, matching, store and download
    logic of [main.go], and the properties of its specification.

    Conventions of the embedding.
    - A Go [string] is a Rocq [string]: a sequence of bytes.
    - A Go [int] / [int64] is a [Z]; where the source can leave the 64-bit
      range the clamp or the range is written out.
    - A runtime panic (index out of range) is [None].
    - Calls that leave the process (HTTP, the file system, the hosting
      API) are explicit inputs: an oracle or a state that is threaded
      through the function. *)

From Stdlib Require Import ZArith Lia String Ascii List Sorted.
From stdpp Require Import base option list strings gmap.

Local Open Scope string_scope.
Local Open Scope Z_scope.

(** ** Go's [strings] and [strconv] as far as the program uses them *)

Module GoStrings.

(** [strings.HasPrefix]. *)
Fixpoint HasPrefix (s pre : string) {struct pre} : bool :=
  match pre, s with
  | EmptyString, _ => true
  | String c pre', String d s' => if Ascii.eqb c d then HasPrefix s' pre' else false
  | String _ _, EmptyString => false
  end.

(** [strings.Contains s substr]: some suffix of [s] starts with [substr]. *)
Fixpoint Contains (s substr : string) : bool :=
  if HasPrefix s substr then true
  else match s with
       | EmptyString => false
       | String _ s' => Contains s' substr
       end.

(** [strings.Split s sep] for a one-byte separator: the pieces between the
    separators, always at least one piece. *)
Fixpoint SplitByte (s : string) (sep : ascii) : list string :=
  match s with
  | EmptyString => [EmptyString]
  | String c s' =>
      if Ascii.eqb c sep then EmptyString :: SplitByte s' sep
      else match SplitByte s' sep with
           | piece :: pieces => String c piece :: pieces
           | [] => [String c EmptyString]
           end
  end.

Definition isDigit (c : ascii) : bool :=
  let n := nat_of_ascii c in (48 <=? n)%nat && (n <=? 57)%nat.

Definition digitVal (c : ascii) : Z := Z.of_nat (nat_of_ascii c) - 48.

(** The value of a run of decimal digits, [None] when a byte is no digit. *)
Fixpoint digitsFrom (acc : Z) (s : string) : option Z :=
  match s with
  | EmptyString => Some acc
  | String c s' => if isDigit c then digitsFrom (acc * 10 + digitVal c) s' else None
  end.

Definition maxInt64 : Z := 9223372036854775807.
Definition minInt64 : Z := -9223372036854775808.

(** [strconv.Atoi]: an optional sign and at least one decimal digit. The
    result is the pair (value, error?). On a syntax error the value is 0; on
    a range error it is the nearest 64-bit bound. *)
Definition Atoi (s : string) : Z * bool :=
  let '(neg, body) :=
    match s with
    | String "-" r => (true, r)
    | String "+" r => (false, r)
    | _ => (false, s)
    end in
  match body with
  | EmptyString => (0, true)
  | _ =>
      match digitsFrom 0 body with
      | None => (0, true)
      | Some un =>
          if neg then (if Z.leb minInt64 (- un) then (- un, false) else (minInt64, true))
          else (if Z.leb un maxInt64 then (un, false) else (maxInt64, true))
      end
  end.

End GoStrings.

(** ** Go's [time] as far as the program uses it

    A [Time] is an instant (nanoseconds since the Unix epoch) together with
    the location it is presented in. A location is its offset east of UTC in
    seconds: Asia/Taipei has been UTC+8 without daylight saving since
    1979-10-01, and is modelled by that fixed offset. Instants are
    unbounded; the model agrees with Go wherever Go's 64-bit second counter
    does not wrap. *)

Module GoTime.

Definition Location := Z.

Record Time := mkTime { unixNano : Z; location : Location }.

Definition UTC : Location := 0.

(** [time.LoadLocation("Asia/Taipei")]. *)
Definition Taipei : Location := 8 * 3600.

Definition nanosPerSecond : Z := 1000000000.
Definition secondsPerDay : Z := 86400.

(** The zero [Time] is January 1, year 1, 00:00:00 UTC. *)
Definition zeroUnixSeconds : Z := -62135596800.
Definition zeroTime : Time := mkTime (zeroUnixSeconds * nanosPerSecond) UTC.

Definition IsZero (t : Time) : bool := unixNano t =? unixNano zeroTime.

(** [t.After(u)] compares instants; locations play no part. *)
Definition After (t u : Time) : bool := unixNano u <? unixNano t.

(** [t.In(loc)]: the same instant presented in [loc]. *)
Definition In (t : Time) (loc : Location) : Time := mkTime (unixNano t) loc.

(** Seconds since the epoch on the wall clock of the time's location. *)
Definition wallSeconds (t : Time) : Z := unixNano t / nanosPerSecond + location t.

(** Days since 1970-01-01 of the calendar day the time falls on, in its
    location. *)
Definition wallDay (t : Time) : Z := wallSeconds t / secondsPerDay.

(** Day number of a proleptic Gregorian date; months count from March
    inside a 400-year era of 146097 days. [d] may lie outside the month:
    the result is linear in it. *)
Definition daysFromCivil (y m d : Z) : Z :=
  let y' := if m <=? 2 then y - 1 else y in
  let era := y' / 400 in
  let yoe := y' - era * 400 in
  let mp := if 2 <? m then m - 3 else m + 9 in
  let doy := (153 * mp + 2) / 5 + d - 1 in
  let doe := yoe * 365 + yoe / 4 - yoe / 100 + doy in
  era * 146097 + doe - 719468.

(** The date (year, month, day) of a day number. *)
Definition civilFromDays (z : Z) : Z * Z * Z :=
  let z' := z + 719468 in
  let era := z' / 146097 in
  let doe := z' - era * 146097 in
  let yoe := (doe - doe / 1460 + doe / 36524 - doe / 146096) / 365 in
  let doy := doe - (365 * yoe + yoe / 4 - yoe / 100) in
  let mp := (5 * doy + 2) / 153 in
  let d := doy - (153 * mp + 2) / 5 + 1 in
  let m := if mp <? 10 then mp + 3 else mp - 9 in
  ((if m <=? 2 then yoe + era * 400 + 1 else yoe + era * 400), m, d).

Definition Year (t : Time) : Z := fst (fst (civilFromDays (wallDay t))).
Definition Month (t : Time) : Z := snd (fst (civilFromDays (wallDay t))).
Definition Day (t : Time) : Z := snd (civilFromDays (wallDay t)).
Definition Hour (t : Time) : Z := (wallSeconds t mod secondsPerDay) / 3600.
Definition Minute (t : Time) : Z := (wallSeconds t mod 3600) / 60.
Definition Second (t : Time) : Z := wallSeconds t mod 60.
Definition Nanosecond (t : Time) : Z := unixNano t mod nanosPerSecond.

(** [time.Date(year, month, day, hour, min, sec, nsec, loc)]. Values outside
    their usual ranges are normalised: the month carries into the year, and
    day, hour, minute, second and nanosecond are simply added up. *)
Definition Date (year month day hour min sec nsec : Z) (loc : Location) : Time :=
  let year' := year + (month - 1) / 12 in
  let month' := (month - 1) mod 12 + 1 in
  let days := daysFromCivil year' month' day in
  mkTime ((days * secondsPerDay + hour * 3600 + min * 60 + sec - loc) * nanosPerSecond + nsec) loc.

(** [t.AddDate(years, months, days)]: [Date] on the shifted fields of [t]. *)
Definition AddDate (t : Time) (years months days : Z) : Time :=
  Date (Year t + years) (Month t + months) (Day t + days)
       (Hour t) (Minute t) (Second t) (Nanosecond t) (location t).

(** Decimal digits of a non-negative number, most significant first, at
    least [width] of them (padded with zeros); [fuel] bounds the number of
    digits written. *)
Fixpoint decimalRev (fuel : nat) (width : nat) (n : Z) : string :=
  match fuel with
  | O => EmptyString
  | S fuel' =>
      if (n =? 0) && Nat.eqb width 0 then EmptyString
      else String (ascii_of_nat (48 + Z.to_nat (n mod 10)))
                  (decimalRev fuel' (Nat.pred width) (n / 10))
  end.

Definition appendInt (n : Z) (width : nat) : string :=
  let digits := String.rev (decimalRev (S (Z.to_nat (Z.log2 (Z.abs n))) + width)
                                       (Nat.max width 1) (Z.abs n)) in
  if n <? 0 then String "-" digits else digits.

(** [t.Format(time.RFC3339)]: [2006-01-02T15:04:05Z07:00], the zone written
    [Z] for UTC and as a signed [hh:mm] otherwise. *)
Definition FormatRFC3339 (t : Time) : string :=
  let zone := Z.quot (location t) 60 in
  appendInt (Year t) 4 +:+ "-" +:+ appendInt (Month t) 2 +:+ "-"
  +:+ appendInt (Day t) 2 +:+ "T" +:+ appendInt (Hour t) 2 +:+ ":"
  +:+ appendInt (Minute t) 2 +:+ ":" +:+ appendInt (Second t) 2
  +:+ (if location t =? 0 then "Z"
       else (if zone <? 0 then "-" else "+")
            +:+ appendInt (Z.abs zone / 60) 2 +:+ ":"
            +:+ appendInt (Z.abs zone mod 60) 2).

(** The part of [civilFromDays] that works inside one era, as a check on a
    day of the era: the year of the era is below 400 and the day of the year
    is at most 365. *)
Definition eraDayOk (doe : Z) : bool :=
  let yoe := (doe - doe / 1460 + doe / 36524 - doe / 146096) / 365 in
  let doy := doe - (365 * yoe + yoe / 4 - yoe / 100) in
  (0 <=? yoe) && (yoe <? 400) && (0 <=? doy) && (doy <=? 365).

Fixpoint allFrom (P : Z -> bool) (z : Z) (n : nat) : bool :=
  match n with
  | O => true
  | S k => P z && allFrom P (z + 1) k
  end.

End GoTime.

(** ** The slot allocator *)

Module SlotAllocator.
Import GoStrings GoTime.

(** [youtubeConfig.ScheduleSlots] as initialised in the source. *)
Definition defaultScheduleSlots : list string := ["00:00"; "08:00"; "12:00"; "16:00"].

(** The two [strconv.Atoi] calls on the pieces of a slot, errors dropped as
    in the source. [None]: [parts[1]] is out of range and the program panics. *)
Definition slotClock (slot : string) : option (Z * Z) :=
  let parts := SplitByte slot ":" in
  p0 ← parts !! 0%nat;
  p1 ← parts !! 1%nat;
  Some (fst (Atoi p0), fst (Atoi p1)).

(** The candidate of one loop iteration: the slot on the day of [day]. *)
Definition slotOn (day : Time) (slot : string) : option Time :=
  '(h, m) ← slotClock slot;
  Some (Date (Year day) (Month day) (Day day) h m 0 0 Taipei).

(** The [for _, slot := range ScheduleSlots] loop; [rest] is what follows it. *)
Fixpoint scanSlots (baseDate lastTime : Time) (slots : list string)
    (rest : option Time) : option Time :=
  match slots with
  | [] => rest
  | slot :: slots' =>
      candidate ← slotOn baseDate slot;
      if After candidate lastTime then Some candidate
      else scanSlots baseDate lastTime slots' rest
  end.

(** [calculateNextSlot]. [now] is what [time.Now()] returns. *)
Definition calculateNextSlot (ScheduleSlots : list string) (now lastTime : Time)
    : option Time :=
  let loc := Taipei in
  let lastTime := if IsZero lastTime then now else In lastTime loc in
  let baseDate := Date (Year lastTime) (Month lastTime) (Day lastTime) 0 0 0 0 loc in
  scanSlots baseDate lastTime ScheduleSlots
    (let nextDay := AddDate baseDate 0 0 1 in
     slot0 ← ScheduleSlots !! 0%nat;
     slotOn nextDay slot0).

End SlotAllocator.

(** ** The task matcher *)

Module Matcher.
Import GoStrings.

(** One entry of the generation feed with the fields the program decodes:
    [MailboxItem] with its [Object.Draft], and the [task_id] that the second
    decoding in [extractLinksByTaskID] ([DetailedMailbox]) reads from the
    same draft. A field that is absent from the JSON is the empty string. *)
Record MailboxDraft := {
  draft_ID : string;
  draft_TaskID : string;
  DownloadableURL : string
}.

Record MailboxItem := {
  item_ID : string;
  Kind : string;
  DisplayStr : string;
  Draft : MailboxDraft
}.

Definition sora_gen_complete : string := "sora_gen_complete".

Definition nonEmpty (s : string) : bool := negb (String.eqb s "").

(** *** [normalizePrompt] *)

Definition isLowerAZ (c : ascii) : bool :=
  let n := nat_of_ascii c in (97 <=? n)%nat && (n <=? 122)%nat.

Definition isUpperAZ (c : ascii) : bool :=
  let n := nat_of_ascii c in (65 <=? n)%nat && (n <=? 90)%nat.

Definition lowerAZ (c : ascii) : ascii := ascii_of_nat (nat_of_ascii c + 32).

(** [strings.ToLower] followed by the removal of every match of
    [[^a-z0-9]+]. Both work on UTF-8 runes: an ASCII letter or digit is kept
    (in lower case) and every other rune is dropped, except the two
    non-ASCII runes whose lower case is an ASCII letter, U+0130 (bytes
    196 176, lower case [i]) and U+212A (bytes 226 132 170, lower case [k]). *)
Fixpoint lowerAlnum (s : string) : string :=
  match s with
  | EmptyString => EmptyString
  | String c s' =>
      if isLowerAZ c || isDigit c then String c (lowerAlnum s')
      else if isUpperAZ c then String (lowerAZ c) (lowerAlnum s')
      else
        match s' with
        | String c1 s1 =>
            if Ascii.eqb c "196" && Ascii.eqb c1 "176" then String "i" (lowerAlnum s1)
            else
              match s1 with
              | String c2 s2 =>
                  if Ascii.eqb c "226" && Ascii.eqb c1 "132" && Ascii.eqb c2 "170"
                  then String "k" (lowerAlnum s2)
                  else lowerAlnum s'
              | EmptyString => lowerAlnum s'
              end
        | EmptyString => EmptyString
        end
  end.

(** [s[:n]]. *)
Fixpoint firstBytes (n : nat) (s : string) : string :=
  match n, s with
  | S n', String c s' => String c (firstBytes n' s')
  | _, _ => EmptyString
  end.

Definition normalizePrompt (s : string) : string :=
  let s := lowerAlnum s in
  if (30 <? String.length s)%nat then firstBytes 30 s else s.

(** *** The pattern [(S2_\d+_\d+_\d+)] *)

(** The longest run of decimal digits at the start of [s], and what follows. *)
Fixpoint digitRun (s : string) : string * string :=
  match s with
  | String c s' =>
      if isDigit c then let '(ds, rest) := digitRun s' in (String c ds, rest)
      else (EmptyString, s)
  | EmptyString => (EmptyString, EmptyString)
  end.

(** A match of the pattern that starts at the first byte of [s]. Every
    [\d+] is followed by a byte that is no digit, so the greedy run is the
    only candidate. *)
Definition matchIDHere (s : string) : option string :=
  match s with
  | String "S" (String "2" (String "_" r0)) =>
      let '(d1, r1) := digitRun r0 in
      match d1, r1 with
      | String _ _, String "_" r1' =>
          let '(d2, r2) := digitRun r1' in
          match d2, r2 with
          | String _ _, String "_" r2' =>
              let '(d3, _) := digitRun r2' in
              match d3 with
              | String _ _ => Some ("S2_" +:+ d1 +:+ "_" +:+ d2 +:+ "_" +:+ d3)
              | EmptyString => None
              end
          | _, _ => None
          end
      | _, _ => None
      end
  | _ => None
  end.

(** [idRegex.FindString]: the leftmost match, the empty string when there
    is none. *)
Fixpoint FindID (s : string) : string :=
  match matchIDHere s with
  | Some m => m
  | None =>
      match s with
      | String _ s' => FindID s'
      | EmptyString => EmptyString
      end
  end.

Section Extract.

(** [json.Unmarshal] of the feed body into the items; [None] when it
    returns an error. *)
Variable jsonUnmarshal : string -> option (list MailboxItem).

(** The loop of [extractLinksSmart]. *)
Fixpoint smartLinks (targetID targetKey : string) (items : list MailboxItem)
    : list string :=
  match items with
  | [] => []
  | item :: items' =>
      if negb (String.eqb (Kind item) sora_gen_complete)
      then smartLinks targetID targetKey items'
      else
        let prompt := DisplayStr item in
        let match1 := nonEmpty targetID && Contains prompt targetID in
        let match2 :=
          if match1 then true
          else
            let itemKey := normalizePrompt prompt in
            Contains itemKey targetKey || Contains targetKey itemKey in
        if match2 && nonEmpty (DownloadableURL (Draft item))
        then DownloadableURL (Draft item) :: smartLinks targetID targetKey items'
        else smartLinks targetID targetKey items'
  end.

Definition extractLinksSmart (jsonBody targetPrompt : string) : list string :=
  match jsonUnmarshal jsonBody with
  | None => []
  | Some items =>
      let targetID := FindID targetPrompt in
      let targetKey := normalizePrompt targetPrompt in
      smartLinks targetID targetKey items
  end.

(** The first loop of [extractLinksByTaskID]: [true] when it reaches its
    [return]. *)
Fixpoint reachesSmartMatch (jsonBody targetTaskID : string)
    (items : list MailboxItem) : bool :=
  match items with
  | [] => false
  | item :: items' =>
      if String.eqb (Kind item) sora_gen_complete
         && (nonEmpty (draft_ID (Draft item)) && Contains jsonBody targetTaskID)
      then true
      else reachesSmartMatch jsonBody targetTaskID items'
  end.

(** The second loop of [extractLinksByTaskID], over the detailed decoding. *)
Fixpoint linkOfTask (targetTaskID : string) (items : list MailboxItem)
    : list string :=
  match items with
  | [] => []
  | item :: items' =>
      if String.eqb (Kind item) sora_gen_complete
         && String.eqb (draft_TaskID (Draft item)) targetTaskID
         && nonEmpty (DownloadableURL (Draft item))
      then [DownloadableURL (Draft item)]
      else linkOfTask targetTaskID items'
  end.

Definition extractLinksByTaskID (jsonBody targetTaskID : string) : list string :=
  match jsonUnmarshal jsonBody with
  | None => []
  | Some items =>
      if reachesSmartMatch jsonBody targetTaskID items
      then extractLinksSmart jsonBody ""
      else linkOfTask targetTaskID items
  end.

(** The loop of [extractFirstValidLink]. *)
Fixpoint firstValidLink (items : list MailboxItem) : list string :=
  match items with
  | [] => []
  | item :: items' =>
      if String.eqb (Kind item) sora_gen_complete
         && nonEmpty (DownloadableURL (Draft item))
      then [DownloadableURL (Draft item)]
      else firstValidLink items'
  end.

Definition extractFirstValidLink (jsonBody : string) : list string :=
  match jsonUnmarshal jsonBody with
  | None => []
  | Some items => firstValidLink items
  end.

(** What [handleSoraPoll] writes to the client. *)
Inductive PollResponse :=
| PollError
| PollRunning
| PollDone (download_links : list string).

(** [handleSoraPoll]. [loggedIn] is [soraCreds != nil]; [pendingData] and
    [mailData] are the outcomes of the two [sendSoraRequest] calls, [None]
    for an error. *)
Definition handleSoraPoll (loggedIn : bool) (targetTaskId : string)
    (pendingData mailData : option string) : PollResponse :=
  if negb loggedIn then PollError
  else
    match pendingData with
    | None => PollError
    | Some pendingData =>
        if nonEmpty targetTaskId && Contains pendingData targetTaskId
        then PollRunning
        else
          match mailData with
          | None => PollError
          | Some mailData =>
              let links := extractLinksByTaskID mailData targetTaskId in
              let links :=
                match links with
                | [] => extractFirstValidLink mailData
                | _ => links
                end in
              PollDone links
          end
    end.

End Extract.

(** *** Feeds for examples

    A feed written out as JSON text, and the decoder that knows this one
    text: it returns the items the text was written from, as
    [encoding/json] does on it. *)

Definition quote : string := String "034" EmptyString.

Definition jsonField (name value : string) : string :=
  quote +:+ name +:+ quote +:+ ":" +:+ quote +:+ value +:+ quote.

Definition jsonItem (item : MailboxItem) : string :=
  "{" +:+ jsonField "id" (item_ID item) +:+ "," +:+ jsonField "kind" (Kind item)
  +:+ "," +:+ jsonField "display_str" (DisplayStr item)
  +:+ "," +:+ quote +:+ "object" +:+ quote +:+ ":{" +:+ quote +:+ "draft" +:+ quote +:+ ":{"
  +:+ jsonField "id" (draft_ID (Draft item))
  +:+ "," +:+ jsonField "task_id" (draft_TaskID (Draft item))
  +:+ "," +:+ jsonField "downloadable_url" (DownloadableURL (Draft item))
  +:+ "}}}".

Fixpoint joinComma (l : list string) : string :=
  match l with
  | [] => EmptyString
  | [x] => x
  | x :: l' => x +:+ "," +:+ joinComma l'
  end.

Definition jsonFeed (items : list MailboxItem) : string :=
  "{" +:+ quote +:+ "items" +:+ quote +:+ ":[" +:+ joinComma (map jsonItem items) +:+ "]}".

Definition decoderOf (items : list MailboxItem) : string -> option (list MailboxItem) :=
  fun body => if String.eqb body (jsonFeed items) then Some items else None.

End Matcher.

(** *** What the specification says about matching *)

Module MatcherSpec.
Import Matcher.

(** [a] is a substring of [b]. *)
Definition isSubstring (a b : string) : Prop :=
  exists pre post, b = pre +:+ a +:+ post.

(** The downloadable URLs of the completed records of a feed, in feed
    order. *)
Definition completedLinks (items : list MailboxItem) : list string :=
  map (fun item => DownloadableURL (Draft item))
      (List.filter (fun item => String.eqb (Kind item) sora_gen_complete
                                && nonEmpty (DownloadableURL (Draft item))) items).

(** Two completed records of one feed, each with its own task. *)
Definition catRecord : MailboxItem :=
  {| item_ID := "mail_1"; Kind := sora_gen_complete;
     DisplayStr := "A Cat -- dancing in the RAIN!";
     Draft := {| draft_ID := "gen_1"; draft_TaskID := "task_1";
                 DownloadableURL := "https://videos.example/files/aaa/raw" |} |}.

Definition dogRecord : MailboxItem :=
  {| item_ID := "mail_2"; Kind := sora_gen_complete;
     DisplayStr := "a dog on a skateboard";
     Draft := {| draft_ID := "gen_2"; draft_TaskID := "task_2";
                 DownloadableURL := "https://videos.example/files/bbb/raw" |} |}.

Definition twoTaskFeed : list MailboxItem := [catRecord; dogRecord].

End MatcherSpec.

(** ** The item state store *)

Module Store.
Import GoStrings Matcher.

(** [VideoConfig]: one work item. [PublishAt] is an RFC 3339 text, empty
    when no slot has been committed. *)
Record VideoConfig := mkVideo {
  UniqueID : string;
  FileName : string;
  Title : string;
  Description : string;
  Tags : list string;
  CategoryID : string;
  Privacy : string;
  Uploaded : bool;
  PublishAt : string;
  IsManual : bool;
  IgnoreCalc : bool;
  DownloadURL : string
}.

Definition setFileName (v : VideoConfig) (x : string) : VideoConfig :=
  mkVideo (UniqueID v) x (Title v) (Description v) (Tags v) (CategoryID v)
          (Privacy v) (Uploaded v) (PublishAt v) (IsManual v) (IgnoreCalc v)
          (DownloadURL v).

Definition setUploaded (v : VideoConfig) (x : bool) : VideoConfig :=
  mkVideo (UniqueID v) (FileName v) (Title v) (Description v) (Tags v)
          (CategoryID v) (Privacy v) x (PublishAt v) (IsManual v) (IgnoreCalc v)
          (DownloadURL v).

Definition setPublishAt (v : VideoConfig) (x : string) : VideoConfig :=
  mkVideo (UniqueID v) (FileName v) (Title v) (Description v) (Tags v)
          (CategoryID v) (Privacy v) (Uploaded v) x (IsManual v) (IgnoreCalc v)
          (DownloadURL v).

Definition setIsManual (v : VideoConfig) (x : bool) : VideoConfig :=
  mkVideo (UniqueID v) (FileName v) (Title v) (Description v) (Tags v)
          (CategoryID v) (Privacy v) (Uploaded v) (PublishAt v) x (IgnoreCalc v)
          (DownloadURL v).

Definition setIgnoreCalc (v : VideoConfig) (x : bool) : VideoConfig :=
  mkVideo (UniqueID v) (FileName v) (Title v) (Description v) (Tags v)
          (CategoryID v) (Privacy v) (Uploaded v) (PublishAt v) (IsManual v) x
          (DownloadURL v).

Definition setDownloadURL (v : VideoConfig) (x : string) : VideoConfig :=
  mkVideo (UniqueID v) (FileName v) (Title v) (Description v) (Tags v)
          (CategoryID v) (Privacy v) (Uploaded v) (PublishAt v) (IsManual v)
          (IgnoreCalc v) x.

(** *** [loadConfig] *)

(** The store file as [os.ReadFile] finds it: absent, readable with its
    bytes, or failing part-way with the bytes read so far. *)
Inductive FileState :=
| Missing
| Readable (data : string)
| Unreadable (partial : string).

(** [os.ReadFile]: the bytes and whether an error is returned. *)
Definition ReadFile (file : FileState) : string * bool :=
  match file with
  | Missing => (EmptyString, true)
  | Readable data => (data, false)
  | Unreadable partial => (partial, true)
  end.

(** What [json.Unmarshal] stores for a text that is valid JSON, and whether
    it reports an error (a value of the wrong type is skipped and reported,
    the rest is decoded). *)
Record Decoded := { decoded : list VideoConfig; decodeError : bool }.

Section Load.

(** [encoding/json] on a text that is valid JSON; [None] when the text is
    not valid JSON. *)
Variable jsonDecode : string -> option Decoded.

(** [json.Unmarshal(data, &v)]: the new value of [v] and whether an error
    is returned. The text is checked first: when it is empty or not valid
    JSON, [v] is left as it was. *)
Definition jsonUnmarshal (data : string) (v : list VideoConfig)
    : list VideoConfig * bool :=
  match data with
  | EmptyString => (v, true)
  | _ =>
      match jsonDecode data with
      | None => (v, true)
      | Some d => (decoded d, decodeError d)
      end
  end.

(** [loadConfig]: both errors are dropped, the returned error is always
    [nil] ([false]). *)
Definition loadConfig (file : FileState) : list VideoConfig * bool :=
  let v := [] in
  let '(b, _) := ReadFile file in
  let '(v, _) := jsonUnmarshal b v in
  (v, false).

End Load.

(** From here on the store file is represented by the collection
    [loadConfig] decodes from it, and [saveConfig] by the collection it is
    given: what is written is what the next [loadConfig] reads. *)

(** *** The metadata upsert of [handleSoraDownloadAndRename] *)

(** The request body; [MetaJSON] is the decoded [meta_json], [None] when the
    field is empty or does not decode without error. *)
Record DownloadRequest := {
  req_URL : string;
  req_Filename : string;
  req_MetaJSON : option VideoConfig;
  req_UniqueIDLookup : string
}.

(** The condition of the upsert loop. *)
Definition sameItem (v newVideo : VideoConfig) : bool :=
  (nonEmpty (UniqueID v) && nonEmpty (UniqueID newVideo)
   && String.eqb (UniqueID v) (UniqueID newVideo))
  || String.eqb (FileName v) (FileName newVideo).

(** The index and value of the first entry the loop stops at. *)
Fixpoint findSameItem (i : nat) (newVideo : VideoConfig)
    (currentVideos : list VideoConfig) : option (nat * VideoConfig) :=
  match currentVideos with
  | [] => None
  | v :: rest =>
      if sameItem v newVideo then Some (i, v)
      else findSameItem (S i) newVideo rest
  end.

(** [newVideo] after the two assignments inside the loop body. *)
Definition mergeDownloadURL (v newVideo : VideoConfig) (targetURL : string)
    : VideoConfig :=
  let newVideo :=
    if String.eqb (DownloadURL newVideo) "" && nonEmpty (DownloadURL v)
    then setDownloadURL newVideo (DownloadURL v) else newVideo in
  if nonEmpty targetURL then setDownloadURL newVideo targetURL else newVideo.

(** The assignments before the loop: the target file name and [newVideo]
    as the loop sees it. *)
Definition incoming (req : DownloadRequest) (newVideo : VideoConfig)
    : string * VideoConfig :=
  let targetFilename := req_Filename req in
  let targetURL := req_URL req in
  let '(targetFilename, newVideo) :=
    if nonEmpty (FileName newVideo) then (FileName newVideo, newVideo)
    else if nonEmpty targetFilename
         then (targetFilename, setFileName newVideo targetFilename)
         else (targetFilename, newVideo) in
  let newVideo :=
    if nonEmpty targetURL then setDownloadURL newVideo targetURL else newVideo in
  (targetFilename, setIsManual (setUploaded newVideo false) false).

(** Step 1 of [handleSoraDownloadAndRename] ("Metadata First"): the target
    file name, the target URL, and the collection passed to [saveConfig]
    ([None]: nothing is saved). *)
Definition metadataFirst (req : DownloadRequest) (currentVideos : list VideoConfig)
    : string * string * option (list VideoConfig) :=
  let targetURL := req_URL req in
  match req_MetaJSON req with
  | None => (req_Filename req, targetURL, None)
  | Some newVideo =>
      let '(targetFilename, newVideo) := incoming req newVideo in
      let fill (targetURL : string) (newVideo : VideoConfig) : string :=
        if String.eqb targetURL "" && nonEmpty (DownloadURL newVideo)
        then DownloadURL newVideo else targetURL in
      match findSameItem 0 newVideo currentVideos with
      | Some (i, v) =>
          let newVideo := mergeDownloadURL v newVideo targetURL in
          let currentVideos := <[i := newVideo]> currentVideos in
          (targetFilename, fill targetURL newVideo, Some currentVideos)
      | None =>
          let currentVideos := (currentVideos ++ [newVideo])%list in
          (targetFilename, fill targetURL newVideo, Some currentVideos)
      end
  end.

End Store.

(** ** The history-batch sync *)

Module HistorySync.
Import GoStrings Matcher Store.

(** A byte of the class [[a-zA-Z0-9-_]]. *)
Definition isFileIDByte (c : ascii) : bool :=
  isLowerAZ c || isUpperAZ c || isDigit c || Ascii.eqb c "-" || Ascii.eqb c "_".

Fixpoint fileIDRun (s : string) : string * string :=
  match s with
  | String c s' =>
      if isFileIDByte c then let '(run, rest) := fileIDRun s' in (String c run, rest)
      else (EmptyString, s)
  | EmptyString => (EmptyString, EmptyString)
  end.

(** A match of [files/([a-zA-Z0-9-_]+)/] at the first byte of [s]: its
    group. The slash after the group is no byte of the class, so the greedy
    run is the only candidate. *)
Definition matchFilesHere (s : string) : option string :=
  match s with
  | String "f" (String "i" (String "l" (String "e" (String "s" (String "/" r))))) =>
      let '(run, rest) := fileIDRun r in
      match run, rest with
      | String _ _, String "/" _ => Some run
      | _, _ => None
      end
  | _ => None
  end.

(** [re.FindStringSubmatch(url)]: group 1 of the leftmost match. *)
Fixpoint FindFileID (s : string) : option string :=
  match matchFilesHere s with
  | Some run => Some run
  | None =>
      match s with
      | String _ s' => FindFileID s'
      | EmptyString => None
      end
  end.

(** A [*VideoConfig] held in [existingIDs]. It points either at an element
    of the array [localVideos] currently lives in, or at memory the saved
    collection no longer shares: an element of an array that [append] has
    moved away from, or the loop's own [newVideo] variable. Nothing reads a
    write through the second kind. *)
Inductive Ptr :=
| Live (i : nat)
| Stale.

Record BatchState := mkBatch {
  localVideos : list VideoConfig;
  capacity : nat;
  localFileNames : gset string;
  existingIDs : gmap string Ptr;
  syncedCount : Z
}.

Section Sync.

(** The capacity Go's runtime picks when [append] outgrows a full array of
    the given capacity. *)
Variable growCap : nat -> nat.

(** [localVideos = append(localVideos, v)]. While there is room the array
    stays in place; otherwise the elements move to a new array and every
    pointer into the old one goes stale. *)
Definition appendVideo (st : BatchState) (v : VideoConfig) : BatchState :=
  if (length (localVideos st) <? capacity st)%nat
  then mkBatch (localVideos st ++ [v])%list (capacity st) (localFileNames st)
               (existingIDs st) (syncedCount st)
  else mkBatch (localVideos st ++ [v])%list
               (Nat.max (growCap (capacity st)) (S (length (localVideos st))))
               (localFileNames st) ((fun _ => Stale) <$> existingIDs st)
               (syncedCount st).

(** [v.DownloadURL = url] through a pointer of [existingIDs]. *)
Definition writeDownloadURL (st : BatchState) (p : Ptr) (url : string) : BatchState :=
  match p with
  | Live i =>
      mkBatch (alter (fun v => setDownloadURL v url) i (localVideos st))
              (capacity st) (localFileNames st) (existingIDs st) (syncedCount st)
  | Stale => st
  end.

Definition syncedVideo (uniqueID fileName title url : string) : VideoConfig :=
  mkVideo uniqueID fileName title "Synced from Sora Mailbox." [] "24" "private"
          false "" true false url.

(** The first loop: the file names and the identifiers of the loaded items. *)
Fixpoint indexLoaded (i : nat) (videos : list VideoConfig)
    (names : gset string) (ids : gmap string Ptr) : gset string * gmap string Ptr :=
  match videos with
  | [] => (names, ids)
  | v :: rest =>
      indexLoaded (S i) rest ({[FileName v]} ∪ names)
        (if nonEmpty (UniqueID v) then <[UniqueID v := Live i]> ids else ids)
  end.

(** One iteration of the loop over the feed. *)
Definition syncItem (st : BatchState) (item : MailboxItem) : BatchState :=
  let url := DownloadableURL (Draft item) in
  if String.eqb (Kind item) sora_gen_complete && nonEmpty url then
    match FindFileID url with
    | None => st
    | Some fileUUID =>
        let targetFileName := "sora_" +:+ fileUUID +:+ ".mp4" in
        let foundID := FindID (DisplayStr item) in
        if nonEmpty foundID then
          match existingIDs st !! foundID with
          | Some v => writeDownloadURL st v url
          | None =>
              let title := "SYNC: " +:+ foundID in
              let title :=
                if (30 <? String.length (DisplayStr item))%nat
                then title +:+ " " +:+ firstBytes 30 (DisplayStr item)
                else title in
              let newVideo := syncedVideo foundID (foundID +:+ ".mp4") title url in
              let st := appendVideo st newVideo in
              mkBatch (localVideos st) (capacity st) (localFileNames st)
                      (<[foundID := Stale]> (existingIDs st)) (syncedCount st + 1)
          end
        else if bool_decide (targetFileName ∈ localFileNames st) then st
        else
          let newVideo :=
            syncedVideo "" targetFileName ("SYNC: " +:+ fileUUID) url in
          let st := appendVideo st newVideo in
          mkBatch (localVideos st) (capacity st)
                  ({[targetFileName]} ∪ localFileNames st) (existingIDs st)
                  (syncedCount st + 1)
    end
  else st.

(** The body of [handleSoraHistoryBatch] after the feed is decoded:
    [localVideos] is what [loadConfig] returned, in an array of capacity
    [cap]. The result is the collection passed to [saveConfig] and the
    count that is reported. *)
Definition syncHistory (items : list MailboxItem) (loaded : list VideoConfig)
    (cap : nat) : list VideoConfig * Z :=
  let '(names, ids) := indexLoaded 0 loaded ∅ ∅ in
  let st0 := mkBatch loaded (Nat.max cap (length loaded)) names ids 0 in
  let st := fold_left syncItem items st0 in
  (localVideos st, syncedCount st).

Variable jsonUnmarshal : string -> option (list MailboxItem).

(** [handleSoraHistoryBatch]: [None] when the handler answers with an error
    and saves nothing. *)
Definition handleSoraHistoryBatch (loggedIn : bool) (mailBody : option string)
    (loaded : list VideoConfig) (cap : nat) : option (list VideoConfig * Z) :=
  if negb loggedIn then None
  else
    body ← mailBody;
    items ← jsonUnmarshal body;
    Some (syncHistory items loaded cap).

End Sync.

End HistorySync.

(** ** The scheduling orchestrator *)

Module Orchestrator.
Import GoStrings GoTime SlotAllocator Matcher Store.

(** What a run tells its caller about an item, by the item's index. *)
Inductive Event :=
| FileMissing (i : nat)
| UploadFailed (i : nat)
| UploadDone (i : nat).

(** The state a run threads through its loop: the in-memory collection, the
    running clock, the count of uploads, the files of the working
    directory, every collection passed to [saveConfig] so far (oldest
    first), and the events so far. *)
Record RunState := mkRun {
  videos : list VideoConfig;
  currTime : Time;
  processed : Z;
  files : gset string;
  saves : list (list VideoConfig);
  events : list Event
}.

Section Run.

(** [youtubeConfig.ScheduleSlots] and [time.Now()]. *)
Variable ScheduleSlots : list string.
Variable now : Time.

(** [time.Parse(time.RFC3339, s)]; [None] when it returns an error. *)
Variable parseRFC3339 : string -> option Time.

(** [uploadVideo(service, v)] for the item at index [i] with the fields it
    has at the call: [true] when the returned error is [nil]. *)
Variable uploadVideo : nat -> VideoConfig -> bool.

(** [archiveVideo]: the file leaves the working directory. *)
Definition archiveVideo (files : gset string) (filename : string) : gset string :=
  files ∖ {[filename]}.

(** The schedule step of one iteration: the item as it is passed to the
    upload, and the clock afterwards. [None]: [calculateNextSlot] panics. *)
Definition assignSlot (v : VideoConfig) (currTime : Time)
    : option (VideoConfig * Time) :=
  if IsManual v && nonEmpty (PublishAt v) then
    match parseRFC3339 (PublishAt v) with
    | Some t =>
        if negb (IgnoreCalc v) && After t currTime
        then next ← calculateNextSlot ScheduleSlots now t; Some (v, next)
        else Some (v, currTime)
    | None => Some (v, currTime)
    end
  else
    next ← calculateNextSlot ScheduleSlots now currTime;
    Some (setPublishAt v (FormatRFC3339 (In currTime UTC)), next).

(** The body of the loop for [v := &videos[i]], after the limit check. *)
Definition iteration (i : nat) (st : RunState) : option RunState :=
  match videos st !! i with
  | None => Some st
  | Some v =>
      if Uploaded v then Some st
      else if negb (bool_decide (FileName v ∈ files st)) then
        Some (mkRun (videos st) (currTime st) (processed st) (files st) (saves st)
                    (events st ++ [FileMissing i]))
      else
        '(v, currTime) ← assignSlot v (currTime st);
        let videos := <[i := v]> (videos st) in
        if uploadVideo i v then
          let videos := <[i := setUploaded v true]> videos in
          Some (mkRun videos currTime (processed st + 1)
                      (archiveVideo (files st) (FileName v))
                      (saves st ++ [videos]) (events st ++ [UploadDone i]))
        else
          Some (mkRun videos currTime (processed st) (files st) (saves st)
                      (events st ++ [UploadFailed i]))
  end.

(** [for i := range videos]: [n] items are left, starting at index [i]. *)
Fixpoint loop (limit : Z) (n i : nat) (st : RunState) : option RunState :=
  match n with
  | O => Some st
  | S n' =>
      if limit <=? processed st then Some st
      else st' ← iteration i st; loop limit n' (S i) st'
  end.

(** The local baseline: the latest [PublishAt] among the items that count. *)
Fixpoint localMax (videos : list VideoConfig) (localMaxTime : Time) : Time :=
  match videos with
  | [] => localMaxTime
  | v :: rest =>
      if nonEmpty (PublishAt v) && negb (IgnoreCalc v) then
        let t := default zeroTime (parseRFC3339 (PublishAt v)) in
        localMax rest (if After t localMaxTime then t else localMaxTime)
      else localMax rest localMaxTime
  end.

(** The clock a run starts with. *)
Definition startClock (startDate lastTime : Time) (videos : list VideoConfig)
    : option Time :=
  let localMaxTime := localMax videos zeroTime in
  let lastTime := if After localMaxTime lastTime then localMaxTime else lastTime in
  if IsZero startDate then calculateNextSlot ScheduleSlots now lastTime
  else
    let currTime :=
      Date (Year startDate) (Month startDate) (Day startDate) 0 0 0 0 Taipei in
    if After lastTime currTime then calculateNextSlot ScheduleSlots now lastTime
    else Some currTime.

(** [processScheduleAndUpload]. [loaded] is what [loadConfig] returned,
    [lastTime] what [getLastScheduledTime] returned, [files] the working
    directory. [None]: the run ends in the [Missing client_secret.json]
    error or in a panic of [calculateNextSlot]. *)
Definition processScheduleAndUpload (startDate : Time) (limit : Z)
    (clientSecret : bool) (lastTime : Time) (loaded : list VideoConfig)
    (files : gset string) : option RunState :=
  if negb clientSecret then None
  else
    currTime ← startClock startDate lastTime loaded;
    loop limit (length loaded) 0 (mkRun loaded currTime 0 files [] []).

(** *** [handleManualSchedule] *)

Inductive ManualResponse :=
| MethodNotAllowed
| BadTime
| NotFound
| ManualFileMissing
| ManualUploadFailed
| ManualDone.

Fixpoint indexOfFile (i : nat) (fname : string) (videos : list VideoConfig)
    : option nat :=
  match videos with
  | [] => None
  | v :: rest =>
      if String.eqb (FileName v) fname then Some i
      else indexOfFile (S i) fname rest
  end.

(** [handleManualSchedule]. [pubTime] is the outcome of
    [time.Parse("2006-01-02T15:04", publishtime)]. The result is the answer,
    the collections passed to [saveConfig] in order, and the working
    directory afterwards. *)
Definition handleManualSchedule (method fname : string) (pubTime : option Time)
    (updateBaseline : string) (loaded : list VideoConfig) (files : gset string)
    : ManualResponse * list (list VideoConfig) * gset string :=
  if negb (String.eqb method "POST") then (MethodNotAllowed, [], files)
  else
    match pubTime with
    | None => (BadTime, [], files)
    | Some pubTime =>
        match indexOfFile 0 fname loaded with
        | None => (NotFound, [], files)
        | Some i =>
            let videos :=
              alter (fun v =>
                       setIgnoreCalc
                         (setUploaded
                            (setIsManual (setPublishAt v (FormatRFC3339 pubTime)) true)
                            false)
                         (negb (String.eqb updateBaseline "on")))
                    i loaded in
            let saved1 := videos in
            if negb (bool_decide (fname ∈ files))
            then (ManualFileMissing, [saved1], files)
            else
              match videos !! i with
              | None => (NotFound, [saved1], files)
              | Some targetVideo =>
                  if uploadVideo i targetVideo then
                    let videos := <[i := setUploaded targetVideo true]> videos in
                    (ManualDone, [saved1; videos], archiveVideo files fname)
                  else (ManualUploadFailed, [saved1], files)
              end
        end
    end.

End Run.

End Orchestrator.

(** ** The artifact fetcher *)

Module Fetcher.
Import GoStrings Matcher.

(** The working directory: the bytes of each file, by name. *)
Abbreviation FileSystem := (gmap string string).

(** What the program sees of the reply to [client.Do(req)]: the status
    code, the [Content-Type] header, [resp.ContentLength] (-1 when the
    server declares none), the bytes [io.Copy] wrote to the file before it
    returned, and whether it returned an error. *)
Record Response := {
  StatusCode : Z;
  ContentType : string;
  ContentLength : Z;
  copied : string;
  copyErr : bool
}.

(** The errors [downloadFileWithProgress] returns. *)
Inductive DownloadError :=
| ErrRequest
| ErrStatus (code : Z)
| ErrContentType (ct : string)
| ErrCreate
| ErrCopy
| ErrSizeMismatch (expected actual : Z).

(** How a call of [downloadFileWithProgress] ends: it returns an error or
    [nil], or it panics. *)
Inductive DownloadEnd :=
| Returns (err : option DownloadError)
| Panics.

(** [os.Remove(filename)], its result dropped as in the source: the file
    is gone only when the removal succeeds. *)
Definition osRemove (succeeds : bool) (filename : string) (fs : FileSystem)
    : FileSystem :=
  if succeeds then delete filename fs else fs.

Section Download.

(** The environment of a download:
    - whether [http.NewRequest("GET", url, nil)] returns a request; when it
      does not, the error is dropped and [req] is nil;
    - [client.Do] for a URL ([None]: it returns an error);
    - whether [os.Create] succeeds for a name;
    - whether [os.Remove] succeeds on a file the function still holds open
      ([out.Close] is deferred and runs after it): it does on Unix, it does
      not on Windows, where an open file cannot be deleted;
    - whether [os.Remove] succeeds on a file the program does not hold. *)
Variable newRequest : string -> bool.
Variable clientDo : string -> option Response.
Variable canCreate : string -> bool.
Variable removeHeld : string -> bool.
Variable removeFile : string -> bool.

(** [downloadFileWithProgress]: the working directory afterwards and how
    the call ends. With a nil request [req.Header.Set] panics before
    anything is sent. [os.Create] truncates or creates the file, [io.Copy]
    fills it, [os.Remove] is called while the file is still open. *)
Definition downloadFileWithProgress (url filename : string) (fs : FileSystem)
    : FileSystem * DownloadEnd :=
  if negb (newRequest url) then (fs, Panics)
  else
    match clientDo url with
    | None => (fs, Returns (Some ErrRequest))
    | Some resp =>
        if negb (StatusCode resp =? 200)
        then (fs, Returns (Some (ErrStatus (StatusCode resp))))
        else
          let ct := ContentType resp in
          if Contains ct "xml" || Contains ct "text"
          then (fs, Returns (Some (ErrContentType ct)))
          else if negb (canCreate filename) then (fs, Returns (Some ErrCreate))
          else
            let fs := <[filename := EmptyString]> fs in
            let expectedSize := ContentLength resp in
            let fs := <[filename := copied resp]> fs in
            let copiedBytes := Z.of_nat (String.length (copied resp)) in
            if copyErr resp
            then (osRemove (removeHeld filename) filename fs, Returns (Some ErrCopy))
            else if (0 <? expectedSize) && negb (copiedBytes =? expectedSize)
            then (osRemove (removeHeld filename) filename fs,
                  Returns (Some (ErrSizeMismatch expectedSize copiedBytes)))
            else (fs, Returns None)
    end.

(** The [message] of the handler's answer. *)
Inductive StatusMsg :=
| MsgOK
| MsgAlreadyExists
| MsgDownloadFailed (err : DownloadError)
| MsgNoLink.

(** The last step of [handleSoraDownloadAndRename], from [statusMsg := "ok"]
    on: the message ([None] when the download panics and no answer is
    written), the working directory afterwards, and the URLs that were
    requested from the network. *)
Definition fetch (targetURL targetFilename : string) (fs : FileSystem)
    : option StatusMsg * FileSystem * list string :=
  let download (fs : FileSystem) :=
    match downloadFileWithProgress targetURL targetFilename fs with
    | (fs, Returns (Some err)) => (Some (MsgDownloadFailed err), fs, [targetURL])
    | (fs, Returns None) => (Some MsgOK, fs, [targetURL])
    | (fs, Panics) => (None, fs, [])
    end in
  if nonEmpty targetURL then
    match fs !! targetFilename with
    | Some content =>
        if 1024 <? Z.of_nat (String.length content)
        then (Some MsgAlreadyExists, fs, [])
        else download (osRemove (removeFile targetFilename) targetFilename fs)
    | None => download fs
    end
  else (Some MsgNoLink, fs, []).

End Download.

End Fetcher.

(** ** Further handlers of the store *)

Module StoreHandlers.
Import GoStrings GoTime SlotAllocator Matcher Store.

(** *** [handleVideoDelete] *)

Inductive DeleteResponse :=
| DeleteMethodNotAllowed
| DeleteFilenameMissing
| DeleteOK
| DeleteNotFound.

(** The loop of [handleVideoDelete]: the entries that are kept, and whether
    an entry with the file name was met. *)
Fixpoint dropFileName (filename : string) (videos : list VideoConfig)
    : list VideoConfig * bool :=
  match videos with
  | [] => ([], false)
  | v :: rest =>
      let '(newVideos, found) := dropFileName filename rest in
      if String.eqb (FileName v) filename then (newVideos, true)
      else (v :: newVideos, found)
  end.

(** [handleVideoDelete]: the answer and the collection passed to
    [saveConfig], [None] when nothing is saved. *)
Definition handleVideoDelete (method filename : string) (loaded : list VideoConfig)
    : DeleteResponse * option (list VideoConfig) :=
  if negb (String.eqb method "POST") then (DeleteMethodNotAllowed, None)
  else if String.eqb filename "" then (DeleteFilenameMissing, None)
  else
    let '(newVideos, found) := dropFileName filename loaded in
    if found then (DeleteOK, Some newVideos) else (DeleteNotFound, None).

(** *** [handleStatusAPI] *)

Inductive FileStatus :=
| StatusMissing
| StatusAvailable.

Record VideoStatus := {
  vs_UniqueID : string;
  vs_FileName : string;
  vs_Title : string;
  vs_Status : FileStatus
}.

Record StatusAPIResponse := {
  PendingCount : Z;
  StatusData : list VideoStatus;
  ManualData : list VideoStatus;
  NextSchedule : string
}.

(** [t.Format("2006-01-02 15:04")]. *)
Definition FormatMinute (t : Time) : string :=
  appendInt (Year t) 4 +:+ "-" +:+ appendInt (Month t) 2 +:+ "-"
  +:+ appendInt (Day t) 2 +:+ " " +:+ appendInt (Hour t) 2 +:+ ":"
  +:+ appendInt (Minute t) 2.

Section Status.

Variable ScheduleSlots : list string.
Variable now : Time.
Variable parseRFC3339 : string -> option Time.

(** What the loop of [handleStatusAPI] has gathered. *)
Record StatusAcc := mkAcc {
  pendingCount : Z;
  statusList : list VideoStatus;
  manualList : list VideoStatus;
  lastScheduledTime : Time
}.

(** One iteration of the loop; [files] is the working directory. *)
Definition statusStep (files : gset string) (acc : StatusAcc) (v : VideoConfig)
    : StatusAcc :=
  let acc :=
    if negb (Uploaded v) then
      let status :=
        if bool_decide (FileName v ∈ files) then StatusAvailable else StatusMissing in
      let entry :=
        {| vs_UniqueID := UniqueID v; vs_FileName := FileName v;
           vs_Title := Title v; vs_Status := status |} in
      if IsManual v
      then mkAcc (pendingCount acc + 1) (statusList acc) (manualList acc ++ [entry])%list
                 (lastScheduledTime acc)
      else mkAcc (pendingCount acc + 1) (statusList acc ++ [entry])%list (manualList acc)
                 (lastScheduledTime acc)
    else acc in
  if nonEmpty (PublishAt v) && negb (IgnoreCalc v) then
    match parseRFC3339 (PublishAt v) with
    | Some t =>
        if After t (lastScheduledTime acc)
        then mkAcc (pendingCount acc) (statusList acc) (manualList acc) t
        else acc
    | None => acc
    end
  else acc.

(** [handleStatusAPI]; [None]: [calculateNextSlot] panics. *)
Definition handleStatusAPI (loaded : list VideoConfig) (files : gset string)
    : option StatusAPIResponse :=
  let acc := fold_left (statusStep files) loaded (mkAcc 0 [] [] zeroTime) in
  nextSlot ← calculateNextSlot ScheduleSlots now (lastScheduledTime acc);
  Some {| PendingCount := pendingCount acc; StatusData := statusList acc;
          ManualData := manualList acc;
          NextSchedule := FormatMinute (In nextSlot Taipei) |}.

End Status.

(** *** [fetchSoraURLFromHistory] *)

(** The loop of [fetchSoraURLFromHistory]. *)
Fixpoint linkOfDisplayID (targetUniqueID : string) (items : list MailboxItem)
    : option string :=
  match items with
  | [] => None
  | item :: items' =>
      if String.eqb (Kind item) sora_gen_complete
         && Contains (DisplayStr item) targetUniqueID
         && nonEmpty (DownloadableURL (Draft item))
      then Some (DownloadableURL (Draft item))
      else linkOfDisplayID targetUniqueID items'
  end.

(** [fetchSoraURLFromHistory]: the URL, [None] for every error. *)
Definition fetchSoraURLFromHistory
    (jsonUnmarshal : string -> option (list MailboxItem))
    (loggedIn : bool) (mailBody : option string) (targetUniqueID : string)
    : option string :=
  if negb loggedIn then None
  else
    body ← mailBody;
    items ← jsonUnmarshal body;
    linkOfDisplayID targetUniqueID items.

End StoreHandlers.

(** ** The identifier of the story generator ([gemini_gen.go]) *)

Module StoryID.
Import GoStrings GoTime.

(** [now.Format("20060102")] and [now.Format("15_04_05")]. *)
Definition Format20060102 (t : Time) : string :=
  appendInt (Year t) 4 +:+ appendInt (Month t) 2 +:+ appendInt (Day t) 2.

Definition Format15_04_05 (t : Time) : string :=
  appendInt (Hour t) 2 +:+ "_" +:+ appendInt (Minute t) 2 +:+ "_"
  +:+ appendInt (Second t) 2.

(** [fixedID]: [fmt.Sprintf("S2_%s_%s", ...)]. *)
Definition fixedID (now : Time) : string :=
  "S2_" +:+ Format20060102 now +:+ "_" +:+ Format15_04_05 now.

End StoryID.

(** *** Checks by enumeration *)

Module SlotChecks.
Import GoStrings GoTime SlotAllocator.

(** The entry written for minute [k] of the day, [hh:mm] with two digits
    each, is read back as that hour and minute. *)
Definition readsBack (k : Z) : bool :=
  let h := k / 60 in
  let m := k mod 60 in
  match slotClock (appendInt h 2 +:+ ":" +:+ appendInt m 2) with
  | Some (h', m') => (h' =? h) && (m' =? m)
  | None => false
  end.

End SlotChecks.

Module MatcherChecks.
Import GoStrings Matcher.

(** Every byte of [s] satisfies [p]. *)
Fixpoint allBytes (p : ascii -> bool) (s : string) : bool :=
  match s with
  | EmptyString => true
  | String c s' => p c && allBytes p s'
  end.

(** A byte [normalizePrompt] keeps: a lower-case ASCII letter or a digit. *)
Definition isKeyByte (c : ascii) : bool := isLowerAZ c || isDigit c.

End MatcherChecks.

(** *** Invariants of the handlers *)

Module StatusChecks.
Import Store StoreHandlers.

(** The status of a listed entry tells whether its file is there. *)
Definition statusTellsFile (files : gset string) (e : VideoStatus) : Prop :=
  vs_Status e = StatusAvailable <-> vs_FileName e ∈ files.

End StatusChecks.

Module SyncChecks.
Import Matcher Store HistorySync.

(** What holds of the collection while the batch runs on [loaded]: its
    length is that of [loaded] plus the count; the loaded items stand where
    they stood, with at most another link; every further item is pending,
    manual, without [PublishAt] and with a link. *)
Definition grownFrom (loaded : list VideoConfig) (st : BatchState) : Prop :=
  Z.of_nat (length (localVideos st)) = Z.of_nat (length loaded) + syncedCount st
  /\ (forall i v, loaded !! i = Some v ->
        exists url, localVideos st !! i = Some (setDownloadURL v url))
  /\ (forall i w, (length loaded <= i)%nat -> localVideos st !! i = Some w ->
        Uploaded w = false /\ IsManual w = true /\ PublishAt w = ""
        /\ nonEmpty (DownloadURL w) = true).

(** No pointer of [existingIDs] points into the current array. *)
Definition allStale (st : BatchState) : Prop :=
  forall id p, existingIDs st !! id = Some p -> p = Stale.

(** A record of the feed that the batch has nothing to append for: its
    identifier is in [existingIDs] or, when its text carries none, the file
    name made from its link is in [localFileNames]. *)
Definition known (st : BatchState) (item : MailboxItem) : Prop :=
  String.eqb (Kind item) sora_gen_complete
  && nonEmpty (DownloadableURL (Draft item)) = true ->
  forall fileUUID, FindFileID (DownloadableURL (Draft item)) = Some fileUUID ->
    if nonEmpty (FindID (DisplayStr item))
    then is_Some (existingIDs st !! FindID (DisplayStr item))
    else "sora_" +:+ fileUUID +:+ ".mp4" ∈ localFileNames st.

(** Every key of [existingIDs] is the identifier of an item of the
    collection, and every name of [localFileNames] the file name of one. *)
Definition supported (st : BatchState) : Prop :=
  (forall id, is_Some (existingIDs st !! id) ->
     id <> "" /\ id ∈ UniqueID <$> localVideos st)
  /\ (forall name, name ∈ localFileNames st -> name ∈ FileName <$> localVideos st).

End SyncChecks.

(** ** The download handler as a whole *)

Module Pipeline.
Import GoStrings GoTime Matcher Store HistorySync Fetcher StoreHandlers.

(** The loop over the store in the back-fill step: the first entry with the
    file name. *)
Fixpoint entryOfFile (targetFilename : string) (videos : list VideoConfig)
    : option VideoConfig :=
  match videos with
  | [] => None
  | v :: rest =>
      if String.eqb (FileName v) targetFilename then Some v
      else entryOfFile targetFilename rest
  end.

(** The loop that writes the link found in the history into the first
    entry with the identifier: the collection passed to [saveConfig],
    [None] when no entry carries the identifier and nothing is saved. *)
Fixpoint storeLink (lookupID newURL : string) (videos : list VideoConfig)
    : option (list VideoConfig) :=
  match videos with
  | [] => None
  | v :: rest =>
      if String.eqb (UniqueID v) lookupID
      then Some (setDownloadURL v newURL :: rest)
      else rest' ← storeLink lookupID newURL rest; Some (v :: rest')
  end.

(** [now.Format("20060102_150405")] and [now.Format("150405")]. *)
Definition Format20060102_150405 (t : Time) : string :=
  appendInt (Year t) 4 +:+ appendInt (Month t) 2 +:+ appendInt (Day t) 2 +:+ "_"
  +:+ appendInt (Hour t) 2 +:+ appendInt (Minute t) 2 +:+ appendInt (Second t) 2.

Definition Format150405 (t : Time) : string :=
  appendInt (Hour t) 2 +:+ appendInt (Minute t) 2 +:+ appendInt (Second t) 2.

(** What the handler answers with. *)
Record DownloadAnswer := {
  ans_filename : string;
  ans_message : StatusMsg
}.

(** A request the handler sends to the network: the GET of the history
    feed by [sendSoraRequest], or the GET of an artifact. *)
Inductive Request :=
| HistoryGET
| DownloadGET (url : string).

Section Handler.

(** The history service as [fetchSoraURLFromHistory] meets it, the network
    and the file system as [downloadFileWithProgress] and the fetch step
    meet them, and [time.Now()]. *)
Variable jsonUnmarshal : string -> option (list MailboxItem).
Variable loggedIn : bool.
Variable mailBody : option string.
Variable newRequest : string -> bool.
Variable clientDo : string -> option Response.
Variable canCreate : string -> bool.
Variable removeHeld : string -> bool.
Variable removeFile : string -> bool.
Variable now : Time.

(** Step 2 of [handleSoraDownloadAndRename], the back-fill: the target URL
    afterwards and the collection passed to [saveConfig], [None] when
    nothing is saved. [store] is what [loadConfig] returns. *)
Definition backfill (uniqueIDLookup targetFilename targetURL : string)
    (store : list VideoConfig) : string * option (list VideoConfig) :=
  if String.eqb targetURL "" && (nonEmpty uniqueIDLookup || nonEmpty targetFilename)
  then
    let '(lookupID, targetURL) :=
      if nonEmpty uniqueIDLookup then (uniqueIDLookup, targetURL)
      else
        match entryOfFile targetFilename store with
        | Some v =>
            (UniqueID v, if nonEmpty (DownloadURL v) then DownloadURL v else targetURL)
        | None => (EmptyString, targetURL)
        end in
    if String.eqb targetURL "" && nonEmpty lookupID then
      match fetchSoraURLFromHistory jsonUnmarshal loggedIn mailBody lookupID with
      | Some newURL => (newURL, storeLink lookupID newURL store)
      | None => (targetURL, None)
      end
    else (targetURL, None)
  else (targetURL, None).

(** Whether the back-fill reaches its call of [fetchSoraURLFromHistory]:
    the conditions of [backfill] up to that call. *)
Definition backfillAsks (uniqueIDLookup targetFilename targetURL : string)
    (store : list VideoConfig) : bool :=
  if String.eqb targetURL "" && (nonEmpty uniqueIDLookup || nonEmpty targetFilename)
  then
    let '(lookupID, targetURL) :=
      if nonEmpty uniqueIDLookup then (uniqueIDLookup, targetURL)
      else
        match entryOfFile targetFilename store with
        | Some v =>
            (UniqueID v, if nonEmpty (DownloadURL v) then DownloadURL v else targetURL)
        | None => (EmptyString, targetURL)
        end in
    String.eqb targetURL "" && nonEmpty lookupID
  else false.

(** The requests of the back-fill: [fetchSoraURLFromHistory] sends one GET
    through [sendSoraRequest] unless nobody is logged in. *)
Definition backfillRequests (uniqueIDLookup targetFilename targetURL : string)
    (store : list VideoConfig) : list Request :=
  if backfillAsks uniqueIDLookup targetFilename targetURL store && loggedIn
  then [HistoryGET] else [].

(** The name given to a download that has none. *)
Definition deriveFilename (targetFilename targetURL : string) : string :=
  if String.eqb targetFilename "" then
    if nonEmpty targetURL then
      match FindFileID targetURL with
      | Some fileUUID => "sora_" +:+ fileUUID +:+ ".mp4"
      | None => "sora_" +:+ Format20060102_150405 now +:+ ".mp4"
      end
    else "pending_" +:+ Format150405 now +:+ ".mp4"
  else targetFilename.

(** [handleSoraDownloadAndRename]: the answer ([None] when the download
    panics and none is written), the store and the working directory
    afterwards, and the requests sent to the network, in order. *)
Definition handleSoraDownloadAndRename (req : DownloadRequest)
    (store : list VideoConfig) (fs : FileSystem)
    : option DownloadAnswer * list VideoConfig * FileSystem * list Request :=
  let '(targetFilename, targetURL, saved) := metadataFirst req store in
  let store := default store saved in
  let asked :=
    backfillRequests (req_UniqueIDLookup req) targetFilename targetURL store in
  let '(targetURL, saved) :=
    backfill (req_UniqueIDLookup req) targetFilename targetURL store in
  let store := default store saved in
  let targetFilename := deriveFilename targetFilename targetURL in
  let '(statusMsg, fs, requests) :=
    fetch newRequest clientDo canCreate removeHeld removeFile
          targetURL targetFilename fs in
  ((fun msg => {| ans_filename := targetFilename; ans_message := msg |}) <$> statusMsg,
   store, fs, (asked ++ (DownloadGET <$> requests))%list).

End Handler.

End Pipeline.

(** ** The run handler *)

Module RunHandler.
Import GoStrings GoTime Matcher Store Orchestrator.

Section Handler.

Variable ScheduleSlots : list string.
Variable now : Time.
Variable parseRFC3339 : string -> option Time.
Variable uploadVideo : nat -> VideoConfig -> bool.

(** [time.Parse("2006-01-02", s)]; [None] when it returns an error. *)
Variable parseDate : string -> option Time.

(** [handleYoutubeRun]: [limitParam] and [dateStr] are the query values
    [limit] and [date], empty when absent. Both parse errors are dropped:
    the limit is then what [strconv.Atoi] returns beside its error, the
    start date the zero time. *)
Definition handleYoutubeRun (limitParam dateStr : string)
    (clientSecret : bool) (lastTime : Time) (loaded : list VideoConfig)
    (files : gset string) : option RunState :=
  let limit := fst (Atoi limitParam) in
  let startDate :=
    if nonEmpty dateStr then default zeroTime (parseDate dateStr) else zeroTime in
  processScheduleAndUpload ScheduleSlots now parseRFC3339 uploadVideo
    startDate limit clientSecret lastTime loaded files.

End Handler.

End RunHandler.

(** *** Files for examples *)

Module FetcherSpec.
Import Fetcher.

(** A file content of [n] bytes. *)
Fixpoint filler (n : nat) : string :=
  match n with
  | O => EmptyString
  | S n' => String "x" (filler n')
  end.

(** The pre-check as the specification words it: whenever the destination
    holds more than 1024 bytes, the fetch answers that the file exists
    already. *)
Definition skipsWheneverPresent : Prop :=
  forall (newRequest : string -> bool) (clientDo : string -> option Response)
         (canCreate removeHeld removeFile : string -> bool)
         (targetURL targetFilename content : string) (fs : FileSystem),
    fs !! targetFilename = Some content ->
    1024 < Z.of_nat (String.length content) ->
    fst (fst (fetch newRequest clientDo canCreate removeHeld removeFile
                targetURL targetFilename fs)) = Some MsgAlreadyExists.

(** A reply that declares 10 bytes and delivers 3. *)
Definition shortReply : Response :=
  {| StatusCode := 200; ContentType := "video/mp4"; ContentLength := 10;
     copied := "abc"; copyErr := false |}.

End FetcherSpec.

(** *** What the specification says about the store *)

Module StoreSpec.
Import Matcher Store.

(** [fileName] is unique across the items of a store. *)
Definition uniqueFileNames (videos : list VideoConfig) : Prop :=
  NoDup (FileName <$> videos).

(** A pending item with the given identifier and file name. *)
Definition pendingItem (uniqueID fileName : string) : VideoConfig :=
  mkVideo uniqueID fileName "title" "" [] "24" "private" false "" false false "".

(** The upsert as the specification words it: an incoming item whose
    identifier matches an existing entry replaces that entry in place. *)
Definition replacesIdentifiedEntry : Prop :=
  forall (req : DownloadRequest) (meta : VideoConfig)
         (currentVideos : list VideoConfig) (i : nat) (v : VideoConfig),
    req_MetaJSON req = Some meta ->
    currentVideos !! i = Some v ->
    UniqueID v <> "" ->
    UniqueID v = UniqueID (snd (incoming req meta)) ->
    exists saved w,
      snd (metadataFirst req currentVideos) = Some saved
      /\ length saved = length currentVideos
      /\ saved !! i = Some w
      /\ UniqueID w = UniqueID (snd (incoming req meta))
      /\ FileName w = FileName (snd (incoming req meta)).

(** A request that carries only metadata. *)
Definition metaRequest (meta : VideoConfig) : DownloadRequest :=
  {| req_URL := ""; req_Filename := ""; req_MetaJSON := Some meta;
     req_UniqueIDLookup := "" |}.

End StoreSpec.

(** *** What the specification says about a run *)

Module OrchestratorSpec.
Import GoTime SlotAllocator Store Orchestrator.

(** [v] is [v0] with, at most, another [PublishAt]. *)
Definition rescheduled (v0 v : VideoConfig) : Prop :=
  v = setPublishAt v0 (PublishAt v).

(** The error handling as the specification words it: nothing of an item
    whose upload failed is written to the store by the run. *)
Definition failedItemNeverCommitted : Prop :=
  forall (slots : list string) (now : Time)
         (parseRFC3339 : string -> option Time)
         (uploadVideo : nat -> VideoConfig -> bool)
         (startDate : Time) (limit : Z) (lastTime : Time)
         (loaded : list VideoConfig) (files : gset string)
         (r : RunState) (j : nat) (v0 : VideoConfig) (s : list VideoConfig),
    processScheduleAndUpload slots now parseRFC3339 uploadVideo
      startDate limit true lastTime loaded files = Some r ->
    List.In (UploadFailed j) (events r) ->
    loaded !! j = Some v0 ->
    List.In s (saves r) ->
    s !! j = Some v0.

(** The lifecycle as the specification words it, for a manual-schedule
    request: an uploaded item is never written back changed. *)
Definition uploadedIsTerminalForManual : Prop :=
  forall (uploadVideo : nat -> VideoConfig -> bool)
         (method fname : string) (pubTime : option Time) (updateBaseline : string)
         (loaded : list VideoConfig) (files : gset string)
         (i : nat) (v0 : VideoConfig) (s : list VideoConfig),
    loaded !! i = Some v0 ->
    Uploaded v0 = true ->
    List.In s (snd (fst (handleManualSchedule uploadVideo method fname pubTime
                           updateBaseline loaded files))) ->
    s !! i = Some v0.

(** An automatic, pending item. *)
Definition autoItem (fileName : string) : VideoConfig :=
  mkVideo "" fileName "title" "" [] "24" "private" false "" false false "".

(** An item that has been uploaded. *)
Definition uploadedItem (fileName publishAt : string) : VideoConfig :=
  mkVideo "" fileName "title" "" [] "24" "private" true publishAt false false "".

(** No [PublishAt] parses: for runs on stores whose [PublishAt] are empty. *)
Definition noStamp : string -> option Time := fun _ => None.

(** The four ways one iteration can end. *)
Inductive Outcome (uploadVideo : nat -> VideoConfig -> bool) (i : nat)
    (st st' : RunState) : Prop :=
| Untouched :
    (videos st !! i = None \/ exists v, videos st !! i = Some v /\ Uploaded v = true) ->
    st' = st -> Outcome uploadVideo i st st'
| SkippedMissing (v : VideoConfig) :
    videos st !! i = Some v -> Uploaded v = false -> FileName v ∉ files st ->
    st' = mkRun (videos st) (currTime st) (processed st) (files st) (saves st)
                (events st ++ [FileMissing i]) ->
    Outcome uploadVideo i st st'
| Failed (v v' : VideoConfig) (clock : Time) :
    videos st !! i = Some v -> Uploaded v = false -> FileName v ∈ files st ->
    rescheduled v v' -> uploadVideo i v' = false ->
    st' = mkRun (<[i := v']> (videos st)) clock (processed st) (files st) (saves st)
                (events st ++ [UploadFailed i]) ->
    Outcome uploadVideo i st st'
| Done (v v' : VideoConfig) (clock : Time) :
    videos st !! i = Some v -> Uploaded v = false -> FileName v ∈ files st ->
    rescheduled v v' -> uploadVideo i v' = true ->
    st' = mkRun (<[i := setUploaded v' true]> (<[i := v']> (videos st))) clock
                (processed st + 1) (archiveVideo (files st) (FileName v'))
                (saves st ++ [<[i := setUploaded v' true]> (<[i := v']> (videos st))])
                (events st ++ [UploadDone i]) ->
    Outcome uploadVideo i st st'.

(** What holds of a run on [loaded] when its loop stands before index [i]. *)
Record Inv (loaded : list VideoConfig) (files0 : gset string) (i : nat)
    (st : RunState) : Prop := {
  inv_length : length (videos st) = length loaded;
  inv_rest : forall j, (i <= j)%nat -> videos st !! j = loaded !! j;
  inv_item : forall j v0, loaded !! j = Some v0 ->
    exists v, videos st !! j = Some v
      /\ (Uploaded v0 = true -> v = v0)
      /\ (rescheduled v0 v
          \/ (Uploaded v0 = false
              /\ v = setUploaded (setPublishAt v0 (PublishAt v)) true));
  inv_saves : forall s j, List.In s (saves st) ->
    s !! j = loaded !! j \/ s !! j = videos st !! j;
  inv_failed : forall j, List.In (UploadFailed j) (events st) ->
    (j < i)%nat /\ exists v, videos st !! j = Some v /\ Uploaded v = false;
  inv_done : forall j, List.In (UploadDone j) (events st) ->
    (j < i)%nat /\ exists v, videos st !! j = Some v /\ Uploaded v = true
                             /\ FileName v ∉ files st;
  inv_visited : forall j v0, (j < i)%nat -> loaded !! j = Some v0 ->
    Uploaded v0 = false ->
    List.In (FileMissing j) (events st) \/ List.In (UploadFailed j) (events st)
    \/ List.In (UploadDone j) (events st);
  inv_processed : processed st = Z.of_nat (length (saves st));
  inv_files : files st ⊆ files0
}.

(** A run over two automatic items with their files in place, from the
    default slots after 2024-03-10 09:30 Taipei time, with a limit of one:
    the upload of the first item fails, the upload of the second succeeds. *)
Definition failFirst : nat -> VideoConfig -> bool := fun i _ => negb (Nat.eqb i 0).

Definition twoItemRun : option RunState :=
  processScheduleAndUpload defaultScheduleSlots zeroTime noStamp failFirst
    zeroTime 1 true (Date 2024 3 10 9 30 0 0 Taipei)
    [autoItem "a.mp4"; autoItem "b.mp4"] {["a.mp4"; "b.mp4"]}.

(** A run over an uploaded item and a pending one, every upload
    succeeding. *)
Definition mixedRun : option RunState :=
  processScheduleAndUpload defaultScheduleSlots zeroTime noStamp (fun _ _ => true)
    zeroTime 5 true (Date 2024 3 10 9 30 0 0 Taipei)
    [uploadedItem "a.mp4" ""; autoItem "b.mp4"] {["b.mp4"]}.

End OrchestratorSpec.

(** *** What a run keeps of its attempts *)

Module RunTrace.
Import GoTime SlotAllocator Store Orchestrator.

Section Trace.

Variable ScheduleSlots : list string.
Variable now : Time.
Variable parseRFC3339 : string -> option Time.
Variable uploadVideo : nat -> VideoConfig -> bool.

(** What holds of a run on [loaded] at every point of its loop, [init]
    being the state the loop starts in: an item whose upload failed stands
    in memory as it was handed to the upload, which is the outcome of the
    schedule step on the loaded item at the clock the run had when its loop
    reached the item; and for every upload that succeeded there is a saved
    collection that agrees with the memory on every index up to the
    uploaded one. *)
Definition keepsAttempts (limit : Z) (init : RunState) (loaded : list VideoConfig)
    (st : RunState) : Prop :=
  (forall j, List.In (UploadFailed j) (events st) ->
     exists before v0 v next,
       loop ScheduleSlots now parseRFC3339 uploadVideo limit j 0 init = Some before
       /\ loaded !! j = Some v0 /\ videos st !! j = Some v
       /\ assignSlot ScheduleSlots now parseRFC3339 v0 (currTime before)
          = Some (v, next)
       /\ uploadVideo j v = false)
  /\ (forall k, List.In (UploadDone k) (events st) ->
        exists s, List.In s (saves st)
                  /\ forall j, (j <= k)%nat -> s !! j = videos st !! j).

End Trace.

End RunTrace.

(** *** What the specification says about slots

    A configured slot is a 24-hour clock time [hh:mm]; the slot list is
    non-empty and ascending. These definitions follow the specification's
    words and are what the allocator is compared with. *)

Module SlotSpec.
Import GoStrings GoTime SlotAllocator.

(** The clock time of a well-formed entry, in seconds after midnight;
    [None] when the entry is no 24-hour time as the program reads it. *)
Definition clockOfSlot (slot : string) : option Z :=
  '(h, m) ← slotClock slot;
  if (0 <=? h) && (h <? 24) && (0 <=? m) && (m <? 60)
  then Some (h * 3600 + m * 60) else None.

(** The instant at which the Taipei wall clock shows [clock] seconds after
    midnight on the calendar day with number [day]. *)
Definition atClock (day clock : Z) : Time :=
  mkTime ((day * secondsPerDay + clock - Taipei) * nanosPerSecond) Taipei.

(** The calendar day of an instant in Asia/Taipei. *)
Definition taipeiDay (t : Time) : Z := wallDay (In t Taipei).

End SlotSpec.

(** * Properties *)

(** ** The calendar of [GoTime] *)

Module GoTimeFacts.
Import GoTime.

Lemma allFrom_spec (P : Z -> bool) (n : nat) :
  forall z0, allFrom P z0 n = true ->
  forall z, z0 <= z < z0 + Z.of_nat n -> P z = true.
Proof.
  induction n as [|k IH]; intros z0 H z Hz; [lia|].
  cbn [allFrom] in H. apply andb_prop in H as [H1 H2].
  destruct (Z.eq_dec z z0) as [->|]; [assumption|].
  apply (IH (z0 + 1)); [assumption|lia].
Qed.

Lemma eraDayOk_all doe : 0 <= doe < 146097 -> eraDayOk doe = true.
Proof.
  intros H. apply (allFrom_spec eraDayOk (Z.to_nat 146097) 0); [|lia].
  vm_compute. reflexivity.
Qed.

Lemma eraDay_bounds doe :
  0 <= doe < 146097 ->
  let yoe := (doe - doe / 1460 + doe / 36524 - doe / 146096) / 365 in
  let doy := doe - (365 * yoe + yoe / 4 - yoe / 100) in
  0 <= yoe < 400 /\ 0 <= doy <= 365.
Proof.
  intros H yoe doy. pose proof (eraDayOk_all doe H) as Hok.
  unfold eraDayOk in Hok. fold yoe in Hok. fold doy in Hok.
  repeat (apply andb_prop in Hok; destruct Hok as [Hok ?]). lia.
Qed.

Lemma civilFromDays_month z :
  1 <= snd (fst (civilFromDays z)) <= 12.
Proof.
  unfold civilFromDays; cbn [fst snd].
  set (era := (z + 719468) / 146097).
  set (doe := z + 719468 - era * 146097).
  assert (Hdoe : 0 <= doe < 146097).
  { subst doe era. pose proof (Z.div_mod (z + 719468) 146097 ltac:(lia)).
    pose proof (Z.mod_pos_bound (z + 719468) 146097 ltac:(lia)). lia. }
  pose proof (eraDay_bounds doe Hdoe) as Hok. cbv zeta in Hok.
  set (yoe := (doe - doe / 1460 + doe / 36524 - doe / 146096) / 365) in *.
  set (doy := doe - (365 * yoe + yoe / 4 - yoe / 100)) in *.
  assert (Hmp : 0 <= (5 * doy + 2) / 153 <= 11).
  { split; [apply Z.div_pos; lia|].
    apply Z.lt_succ_r. apply Z.div_lt_upper_bound; lia. }
  destruct ((5 * doy + 2) / 153 <? 10) eqn:E; lia.
Qed.

(** A date read off a day number names that day again. *)
Lemma daysFromCivil_civilFromDays z :
  daysFromCivil (fst (fst (civilFromDays z))) (snd (fst (civilFromDays z)))
                (snd (civilFromDays z)) = z.
Proof.
  unfold civilFromDays; cbn [fst snd].
  set (era := (z + 719468) / 146097).
  set (doe := z + 719468 - era * 146097).
  assert (Hdoe : 0 <= doe < 146097).
  { subst doe era. pose proof (Z.div_mod (z + 719468) 146097 ltac:(lia)).
    pose proof (Z.mod_pos_bound (z + 719468) 146097 ltac:(lia)). lia. }
  pose proof (eraDay_bounds doe Hdoe) as Hok. cbv zeta in Hok.
  set (yoe := (doe - doe / 1460 + doe / 36524 - doe / 146096) / 365) in *.
  set (doy := doe - (365 * yoe + yoe / 4 - yoe / 100)) in *.
  assert (Hyoe : 0 <= yoe < 400) by lia.
  assert (Hdoy : 0 <= doy <= 365) by lia.
  set (mp := (5 * doy + 2) / 153).
  assert (Hmp : 0 <= mp <= 11).
  { subst mp. split; [apply Z.div_pos; lia|].
    apply Z.lt_succ_r. apply Z.div_lt_upper_bound; lia. }
  assert (Hera : forall k, 0 <= k < 400 -> (k + era * 400) / 400 = era).
  { intros k Hk. rewrite Z.div_add by lia. rewrite Z.div_small by lia. lia. }
  unfold daysFromCivil.
  destruct (mp <? 10) eqn:E.
  - assert (Hm : (mp + 3 <=? 2) = false) by lia. rewrite Hm.
    assert (Hm' : (2 <? mp + 3) = true) by lia. rewrite Hm'.
    rewrite (Hera yoe Hyoe).
    replace (yoe + era * 400 - era * 400) with yoe by lia.
    replace (mp + 3 - 3) with mp by lia.
    subst doy doe. lia.
  - assert (Hm : (mp - 9 <=? 2) = true) by lia. rewrite Hm.
    assert (Hm' : (2 <? mp - 9) = false) by lia. rewrite Hm'.
    replace (yoe + era * 400 + 1 - 1) with (yoe + era * 400) by lia.
    rewrite (Hera yoe Hyoe).
    replace (yoe + era * 400 - era * 400) with yoe by lia.
    replace (mp - 9 + 9) with mp by lia.
    subst doy doe. lia.
Qed.

Lemma daysFromCivil_succ_day y m d :
  daysFromCivil y m (d + 1) = daysFromCivil y m d + 1.
Proof. unfold daysFromCivil. lia. Qed.

(** [Date] on the year, month and day of a time, with a day shift [k]: the
    wall clock [hour:min:sec.nsec] on the [k]-th day after the time's own
    calendar day. *)
Lemma Date_on_day (t : Time) (k hour min sec nsec : Z) (loc : Location) :
  0 <= k <= 1 ->
  Date (Year t) (Month t) (Day t + k) hour min sec nsec loc =
  mkTime (((wallDay t + k) * secondsPerDay + hour * 3600 + min * 60 + sec - loc)
            * nanosPerSecond + nsec) loc.
Proof.
  intros Hk. unfold Date, Year, Month, Day.
  pose proof (civilFromDays_month (wallDay t)) as Hm.
  set (mo := snd (fst (civilFromDays (wallDay t)))) in *.
  assert (H1 : (mo - 1) / 12 = 0) by (apply Z.div_small; lia).
  assert (H2 : (mo - 1) mod 12 + 1 = mo) by (rewrite Z.mod_small; lia).
  rewrite H1, H2, Z.add_0_r.
  assert (Hd : daysFromCivil (fst (fst (civilFromDays (wallDay t)))) mo
                 (snd (civilFromDays (wallDay t)) + k) = wallDay t + k).
  { assert (k = 0 \/ k = 1) as [-> | ->] by lia.
    - rewrite Z.add_0_r. subst mo. rewrite daysFromCivil_civilFromDays. lia.
    - rewrite daysFromCivil_succ_day. subst mo.
      rewrite daysFromCivil_civilFromDays. lia. }
  rewrite Hd. reflexivity.
Qed.

Lemma Date_on_day0 (t : Time) (hour min sec nsec : Z) (loc : Location) :
  Date (Year t) (Month t) (Day t) hour min sec nsec loc =
  mkTime ((wallDay t * secondsPerDay + hour * 3600 + min * 60 + sec - loc)
            * nanosPerSecond + nsec) loc.
Proof.
  rewrite <- (Z.add_0_r (Day t)).
  rewrite Date_on_day by lia. rewrite Z.add_0_r. reflexivity.
Qed.

End GoTimeFacts.

(** ** The slot allocator *)

Module SlotFacts.
Import GoStrings GoTime GoTimeFacts SlotAllocator SlotSpec.

Lemma wallSeconds_atClock day clock :
  wallSeconds (atClock day clock) = day * secondsPerDay + clock.
Proof.
  unfold wallSeconds, atClock. cbn [unixNano location].
  unfold nanosPerSecond. rewrite Z.div_mul by lia. lia.
Qed.

Lemma wallDay_atClock day clock :
  0 <= clock < secondsPerDay -> wallDay (atClock day clock) = day.
Proof.
  intros H. unfold wallDay. rewrite wallSeconds_atClock.
  unfold secondsPerDay in *. rewrite Z.add_comm, Z.div_add by lia.
  rewrite Z.div_small by lia. lia.
Qed.

(** The wall clock of a slot instant shows the slot's hour and minute. *)
Lemma clock_atClock day h m :
  0 <= h < 24 -> 0 <= m < 60 ->
  let r := atClock day (h * 3600 + m * 60) in
  Hour r = h /\ Minute r = m /\ Second r = 0 /\ Nanosecond r = 0.
Proof.
  intros Hh Hm r. unfold Hour, Minute, Second, Nanosecond. subst r.
  rewrite wallSeconds_atClock. unfold secondsPerDay.
  repeat split.
  - replace (day * 86400 + (h * 3600 + m * 60))
      with (h * 3600 + m * 60 + day * 86400) by lia.
    rewrite Z.mod_add by lia. rewrite Z.mod_small by lia.
    rewrite Z.add_comm, Z.div_add by lia. rewrite Z.div_small by lia. lia.
  - replace (day * 86400 + (h * 3600 + m * 60))
      with (m * 60 + (day * 24 + h) * 3600) by lia.
    rewrite Z.mod_add by lia. rewrite Z.mod_small by lia.
    apply Z.div_mul; lia.
  - replace (day * 86400 + (h * 3600 + m * 60))
      with (0 + (day * 1440 + h * 60 + m) * 60) by lia.
    rewrite Z.mod_add by lia. reflexivity.
  - unfold atClock. cbn [unixNano]. apply Z.mod_mul. unfold nanosPerSecond. lia.
Qed.

(** An instant lies between the midnights that bound its calendar day. *)
Lemma taipeiDay_bounds (t : Time) :
  unixNano (atClock (taipeiDay t) 0) <= unixNano t
  /\ unixNano t < unixNano (atClock (taipeiDay t + 1) 0).
Proof.
  unfold taipeiDay, wallDay, wallSeconds, atClock, In. cbn [unixNano location].
  unfold secondsPerDay, nanosPerSecond, Taipei.
  set (n := unixNano t).
  pose proof (Z.div_mod n 1000000000 ltac:(lia)) as H1.
  pose proof (Z.mod_pos_bound n 1000000000 ltac:(lia)) as H2.
  set (s := n / 1000000000) in *.
  pose proof (Z.div_mod (s + 8 * 3600) 86400 ltac:(lia)) as H3.
  pose proof (Z.mod_pos_bound (s + 8 * 3600) 86400 ltac:(lia)) as H4.
  set (d := (s + 8 * 3600) / 86400) in *.
  lia.
Qed.

(** [baseDate]: midnight of the calendar day of [t], in Taipei. *)
Lemma baseDate_eq (t : Time) :
  Date (Year t) (Month t) (Day t) 0 0 0 0 Taipei = atClock (wallDay t) 0.
Proof. rewrite Date_on_day0. unfold atClock. f_equal. lia. Qed.

(** The candidate of a well-formed slot on the day of [day]. *)
Lemma slotOn_valid (day : Time) (slot : string) (clock : Z) :
  clockOfSlot slot = Some clock ->
  slotOn day slot = Some (atClock (wallDay day) clock).
Proof.
  unfold clockOfSlot, slotOn. intros H.
  destruct (slotClock slot) as [[h m]|]; [|discriminate].
  cbn [mbind option_bind] in *.
  destruct (_ && _) in H; [|discriminate].
  injection H as <-. f_equal.
  rewrite Date_on_day0. unfold atClock. f_equal. lia.
Qed.

Lemma clockOfSlot_range slot clock :
  clockOfSlot slot = Some clock ->
  exists h m, slotClock slot = Some (h, m) /\ clock = h * 3600 + m * 60
              /\ 0 <= h < 24 /\ 0 <= m < 60.
Proof.
  unfold clockOfSlot. intros H.
  destruct (slotClock slot) as [[h m]|]; [|discriminate].
  cbn [mbind option_bind] in *.
  destruct (_ && _) eqn:E in H; [|discriminate].
  injection H as <-. exists h, m.
  repeat (apply andb_prop in E; destruct E as [E ?]). repeat split; lia.
Qed.

(** The day after midnight of day [d] is midnight of day [d + 1]. *)
Lemma AddDate_midnight (d : Z) :
  AddDate (atClock d 0) 0 0 1 = atClock (d + 1) 0.
Proof.
  unfold AddDate.
  pose proof (clock_atClock d 0 0 ltac:(lia) ltac:(lia)) as H.
  cbv zeta in H. rewrite !Z.mul_0_l, Z.add_0_l in H.
  destruct H as (Hh & Hm & Hs & Hn).
  rewrite Hh, Hm, Hs, Hn, !Z.add_0_r.
  rewrite Date_on_day by lia.
  rewrite wallDay_atClock by (unfold secondsPerDay; lia).
  unfold atClock. cbn [location]. f_equal. lia.
Qed.

(** The loop returns the first slot, in list order, that lies after
    [lastTime], and falls through to [rest] when there is none. *)
Lemma scanSlots_find (baseDate lastTime : Time) (rest : option Time)
    (slots : list string) (clocks : list Z) :
  Forall2 (fun slot clock => clockOfSlot slot = Some clock) slots clocks ->
  scanSlots baseDate lastTime slots rest =
  match List.find (fun c => After (atClock (wallDay baseDate) c) lastTime) clocks with
  | Some c => Some (atClock (wallDay baseDate) c)
  | None => rest
  end.
Proof.
  induction 1 as [|slot clock slots clocks Hc _ IH]; [reflexivity|].
  cbn [scanSlots List.find]. rewrite (slotOn_valid _ _ _ Hc).
  cbn [mbind option_bind].
  destruct (After _ lastTime); [reflexivity | exact IH].
Qed.

(** In an ascending list the first element with a property is the least. *)
Lemma find_sorted_least (p : Z -> bool) (l : list Z) (x : Z) :
  Sorted Z.le l -> List.find p l = Some x ->
  forall y, List.In y l -> p y = true -> x <= y.
Proof.
  intros Hs. apply Sorted_StronglySorted in Hs; [|intros a b c; lia].
  induction Hs as [|a l Hs IH Hall]; [discriminate|].
  cbn [List.find]. intros Hf y [<- | Hy] Hp.
  - rewrite Hp in Hf. injection Hf as <-. lia.
  - destruct (p a).
    + injection Hf as <-. rewrite List.Forall_forall in Hall. apply Hall, Hy.
    + apply IH; assumption.
Qed.

Lemma Forall2_clock_source (slots : list string) (clocks : list Z) (c : Z) :
  Forall2 (fun slot clock => clockOfSlot slot = Some clock) slots clocks ->
  List.In c clocks ->
  exists slot, List.In slot slots /\ clockOfSlot slot = Some c.
Proof.
  induction 1 as [|slot clock slots clocks Hc _ IH]; [intros []|].
  intros [<- | Hin].
  - exists slot. split; [left; reflexivity | exact Hc].
  - destruct (IH Hin) as (s & Hs & Hsc). exists s. split; [right|]; assumption.
Qed.

(** A slot instant of day [d] shows the clock of an entry of the list. *)
Lemma atClock_on_slot (slots : list string) (clocks : list Z) (d c : Z) :
  Forall2 (fun slot clock => clockOfSlot slot = Some clock) slots clocks ->
  List.In c clocks ->
  (exists slot, List.In slot slots
     /\ slotClock slot = Some (Hour (atClock d c), Minute (atClock d c)))
  /\ Second (atClock d c) = 0 /\ Nanosecond (atClock d c) = 0
  /\ 0 <= c < secondsPerDay.
Proof.
  intros HF Hin.
  destruct (Forall2_clock_source _ _ _ HF Hin) as (slot & Hs & Hc).
  destruct (clockOfSlot_range _ _ Hc) as (h & m & Hhm & -> & Hh & Hm).
  pose proof (clock_atClock d h m Hh Hm) as H. cbv zeta in H.
  destruct H as (H1 & H2 & H3 & H4).
  rewrite H1, H2. repeat split; try assumption; try (unfold secondsPerDay; lia).
  exists slot. split; assumption.
Qed.
(** C1. For a non-zero instant [t] and a well-formed configuration (every
    entry a 24-hour clock time, the list non-empty and ascending),
    [calculateNextSlot] returns the earliest instant of [t]'s calendar day in
    Asia/Taipei that lies on a configured slot and strictly after [t]; when no
    slot of that day lies after [t] it returns the first configured slot of
    the following calendar day. The result is strictly after [t] and its
    time of day is that of a configured slot. *)
Theorem calculateNextSlot_earliest_slot
    (slots : list string) (clocks : list Z) (now t : Time) :
  mapM clockOfSlot slots = Some clocks ->
  slots <> [] ->
  Sorted Z.le clocks ->
  IsZero t = false ->
  exists r,
    calculateNextSlot slots now t = Some r
    /\ After r t = true
    /\ (exists slot, List.In slot slots /\ slotClock slot = Some (Hour r, Minute r))
    /\ Second r = 0 /\ Nanosecond r = 0
    /\ ((taipeiDay r = taipeiDay t
         /\ (exists c, List.In c clocks /\ r = atClock (taipeiDay t) c)
         /\ (forall c', List.In c' clocks ->
               After (atClock (taipeiDay t) c') t = true ->
               unixNano r <= unixNano (atClock (taipeiDay t) c')))
        \/ (taipeiDay r = taipeiDay t + 1
            /\ (forall c', List.In c' clocks ->
                  After (atClock (taipeiDay t) c') t = false)
            /\ (exists slot0 c0, slots !! 0%nat = Some slot0
                  /\ clockOfSlot slot0 = Some c0
                  /\ r = atClock (taipeiDay t + 1) c0))).
Proof.
  intros Hmap Hne Hsorted Hnz.
  apply mapM_Some in Hmap.
  unfold calculateNextSlot. rewrite Hnz.
  rewrite (baseDate_eq (In t Taipei)). fold (taipeiDay t).
  set (day := taipeiDay t).
  rewrite AddDate_midnight.
  rewrite (scanSlots_find _ _ _ _ _ Hmap).
  rewrite (wallDay_atClock day 0) by (unfold secondsPerDay; lia).
  assert (Hin_eq : forall d c, In (atClock d c) Taipei = atClock d c) by reflexivity.
  assert (Hafter_eq : forall x, After x (In t Taipei) = After x t) by reflexivity.
  destruct (List.find _ clocks) as [c|] eqn:Hfind.
  - destruct (List.find_some _ _ Hfind) as [Hin Hafter].
    rewrite Hafter_eq in Hafter.
    destruct (atClock_on_slot slots clocks day c Hmap Hin) as (Hslot & Hs & Hn & Hc).
    exists (atClock day c). repeat split; try assumption.
    left. repeat split.
    + unfold taipeiDay. rewrite Hin_eq. apply wallDay_atClock, Hc.
    + exists c. split; [assumption | reflexivity].
    + intros c' Hin' Hafter'. rewrite <- Hafter_eq in Hafter'.
      pose proof (find_sorted_least _ _ _ Hsorted Hfind c' Hin' Hafter') as Hle.
      unfold atClock, nanosPerSecond. cbn [unixNano]. lia.
  - pose proof (List.find_none _ _ Hfind) as Hnone.
    destruct Hmap as [|slot0 c0 slots' clocks' Hc0 Hrest]; [congruence|].
    cbn [lookup list_lookup mbind option_bind].
    rewrite (slotOn_valid _ _ _ Hc0).
    rewrite (wallDay_atClock (day + 1) 0) by (unfold secondsPerDay; lia).
    assert (Hin0 : List.In c0 (c0 :: clocks')) by (left; reflexivity).
    assert (Hall : Forall2 (fun slot clock => clockOfSlot slot = Some clock)
                     (slot0 :: slots') (c0 :: clocks')) by (constructor; assumption).
    destruct (atClock_on_slot (slot0 :: slots') (c0 :: clocks') (day + 1) c0
                Hall Hin0) as (Hslot & Hs & Hn & Hc).
    exists (atClock (day + 1) c0). repeat split; try assumption.
    + pose proof (taipeiDay_bounds t) as [_ Hlt]. fold day in Hlt.
      unfold After. apply Z.ltb_lt.
      unfold atClock, nanosPerSecond, secondsPerDay in *. cbn [unixNano] in *. lia.
    + right. repeat split.
      * unfold taipeiDay. rewrite Hin_eq. apply wallDay_atClock, Hc.
      * intros c' Hc'. rewrite <- Hafter_eq. apply Hnone, Hc'.
      * exists slot0, c0. repeat split; assumption.
Qed.

(** The theorem at the default slots and 2024-03-10 09:30 Taipei time. *)
Lemma calculateNextSlot_earliest_slot_witness :
  exists r,
    calculateNextSlot defaultScheduleSlots zeroTime
      (Date 2024 3 10 9 30 0 0 Taipei) = Some r
    /\ After r (Date 2024 3 10 9 30 0 0 Taipei) = true
    /\ Hour r = 12 /\ Minute r = 0.
Proof.
  destruct (calculateNextSlot_earliest_slot defaultScheduleSlots
              [0; 28800; 43200; 57600] zeroTime (Date 2024 3 10 9 30 0 0 Taipei))
    as (r & Hr & Hafter & _).
  - reflexivity.
  - discriminate.
  - repeat constructor; lia.
  - reflexivity.
  - exists r. split; [exact Hr|]. split; [exact Hafter|].
    vm_compute in Hr. injection Hr as <-. split; reflexivity.
Defined.

(** The scenarios of the specification, at the default slots: 09:30 yields
    12:00 of the same day, 23:00 yields 00:00 of the next day (here across
    the end of a leap-year February and of a year), and 12:00 sharp yields
    16:00. *)
Example calculateNextSlot_0930 :
  calculateNextSlot defaultScheduleSlots zeroTime (Date 2024 3 10 9 30 0 0 Taipei)
  = Some (Date 2024 3 10 12 0 0 0 Taipei).
Proof. vm_compute. reflexivity. Qed.

Example calculateNextSlot_2300 :
  calculateNextSlot defaultScheduleSlots zeroTime (Date 2024 2 29 23 0 0 0 Taipei)
  = Some (Date 2024 3 1 0 0 0 0 Taipei)
  /\ calculateNextSlot defaultScheduleSlots zeroTime (Date 2024 12 31 23 0 0 0 Taipei)
     = Some (Date 2025 1 1 0 0 0 0 Taipei).
Proof. split; vm_compute; reflexivity. Qed.

Example calculateNextSlot_on_slot :
  calculateNextSlot defaultScheduleSlots zeroTime (Date 2024 3 10 12 0 0 0 Taipei)
  = Some (Date 2024 3 10 16 0 0 0 Taipei).
Proof. vm_compute. reflexivity. Qed.

(** Outside the well-formed configurations the loop still returns the first
    matching entry in list order, which is not the earliest when the list is
    not ascending; an empty list or an entry without a colon is a panic. *)
Example calculateNextSlot_unsorted :
  calculateNextSlot ["16:00"; "08:00"] zeroTime (Date 2024 3 10 7 0 0 0 Taipei)
  = Some (Date 2024 3 10 16 0 0 0 Taipei).
Proof. vm_compute. reflexivity. Qed.

Example calculateNextSlot_panics :
  calculateNextSlot [] zeroTime (Date 2024 3 10 7 0 0 0 Taipei) = None
  /\ calculateNextSlot ["0800"] zeroTime (Date 2024 3 10 7 0 0 0 Taipei) = None.
Proof. split; vm_compute; reflexivity. Qed.
End SlotFacts.
(** ** The task matcher *)

Module MatcherFacts.
Import GoStrings Matcher MatcherSpec.

Lemma app_cons (c : ascii) (a b : string) :
  String c a +:+ b = String c (a +:+ b).
Proof. reflexivity. Qed.

Lemma app_nil (b : string) : "" +:+ b = b.
Proof. reflexivity. Qed.

Lemma HasPrefix_spec (s pre : string) :
  HasPrefix s pre = true <-> exists post, s = pre +:+ post.
Proof.
  revert s. induction pre as [|c pre IH]; intros s; cbn [HasPrefix].
  - split; [intros _; exists s; reflexivity | reflexivity].
  - destruct s as [|d s].
    + split; [discriminate | intros [post H]; discriminate H].
    + destruct (Ascii.eqb_spec c d) as [<- | Hne].
      * rewrite IH. split; intros [post H]; exists post.
        -- rewrite app_cons. f_equal. exact H.
        -- rewrite app_cons in H. injection H as H. exact H.
      * split; [discriminate|]. intros [post H]. rewrite app_cons in H.
        injection H as H1 H2. congruence.
Qed.

(** [strings.Contains] decides the substring relation. *)
Lemma Contains_spec (s substr : string) :
  Contains s substr = true <-> exists pre post, s = pre +:+ substr +:+ post.
Proof.
  induction s as [|c s IH]; cbn [Contains].
  - destruct (HasPrefix "" substr) eqn:E.
    + apply HasPrefix_spec in E as [post E].
      split; [intros _; exists "", post; exact E | reflexivity].
    + split; [discriminate|]. intros (pre & post & H).
      destruct pre; [|discriminate H]. rewrite app_nil in H.
      assert (HasPrefix "" substr = true) by (apply HasPrefix_spec; eauto).
      congruence.
  - destruct (HasPrefix (String c s) substr) eqn:E.
    + apply HasPrefix_spec in E as [post E].
      split; [intros _; exists "", post; exact E | reflexivity].
    + rewrite IH. split; intros (pre & post & H).
      * exists (String c pre), post. rewrite app_cons. f_equal. exact H.
      * destruct pre as [|d pre].
        -- rewrite app_nil in H.
           assert (HasPrefix (String c s) substr = true) by (apply HasPrefix_spec; eauto).
           congruence.
        -- rewrite app_cons in H. injection H as _ H. exists pre, post. exact H.
Qed.

Lemma Contains_empty (s : string) : Contains s "" = true.
Proof. destruct s; reflexivity. Qed.

Lemma nonEmpty_true (s : string) : nonEmpty s = true <-> s <> "".
Proof.
  unfold nonEmpty. destruct (String.eqb_spec s ""); cbn; split; congruence.
Qed.

Lemma isSubstring_Contains (a b : string) :
  isSubstring a b <-> Contains b a = true.
Proof. unfold isSubstring. symmetry. apply Contains_spec. Qed.

(** A completed record with a URL is collected by the loop of
    [extractLinksSmart] as soon as it matches on either tier. *)
Lemma smartLinks_In (targetID targetKey : string) (items : list MailboxItem)
    (item : MailboxItem) :
  List.In item items ->
  Kind item = sora_gen_complete ->
  DownloadableURL (Draft item) <> "" ->
  (targetID <> "" /\ Contains (DisplayStr item) targetID = true)
  \/ Contains (normalizePrompt (DisplayStr item)) targetKey = true
  \/ Contains targetKey (normalizePrompt (DisplayStr item)) = true ->
  List.In (DownloadableURL (Draft item)) (smartLinks targetID targetKey items).
Proof.
  intros Hin Hkind Hurl Hmatch.
  induction items as [|x items IH]; [destruct Hin|].
  cbn [smartLinks].
  destruct Hin as [-> | Hin].
  - rewrite Hkind, String.eqb_refl. cbn [negb].
    apply nonEmpty_true in Hurl. rewrite Hurl, andb_true_r.
    assert (Hm : (if nonEmpty targetID && Contains (DisplayStr item) targetID
                  then true
                  else Contains (normalizePrompt (DisplayStr item)) targetKey
                       || Contains targetKey (normalizePrompt (DisplayStr item)))
                 = true).
    { destruct Hmatch as [[Hid Hc] | [Hc | Hc]].
      - apply nonEmpty_true in Hid. rewrite Hid, Hc. reflexivity.
      - rewrite Hc. destruct (_ && _); reflexivity.
      - rewrite Hc, orb_true_r. destruct (_ && _); reflexivity. }
    rewrite Hm. left. reflexivity.
  - specialize (IH Hin).
    destruct (negb _); [exact IH|].
    destruct (_ && nonEmpty _); [right|]; exact IH.
Qed.

(** C9. Whatever the feed, a completed record with a non-empty URL whose
    normalized display text contains the normalized target text, or is
    contained in it, has its URL in the list [extractLinksSmart] returns; so
    has a record whose display text contains the identifier extracted from
    the target. *)
Theorem extractLinksSmart_fuzzy_match
    (jsonUnmarshal : string -> option (list MailboxItem))
    (jsonBody targetPrompt : string) (items : list MailboxItem)
    (item : MailboxItem) :
  jsonUnmarshal jsonBody = Some items ->
  List.In item items ->
  Kind item = sora_gen_complete ->
  DownloadableURL (Draft item) <> "" ->
  isSubstring (normalizePrompt targetPrompt) (normalizePrompt (DisplayStr item))
  \/ isSubstring (normalizePrompt (DisplayStr item)) (normalizePrompt targetPrompt)
  \/ (FindID targetPrompt <> ""
      /\ isSubstring (FindID targetPrompt) (DisplayStr item)) ->
  List.In (DownloadableURL (Draft item))
          (extractLinksSmart jsonUnmarshal jsonBody targetPrompt).
Proof.
  intros Hdec Hin Hkind Hurl Hmatch.
  unfold extractLinksSmart. rewrite Hdec.
  apply smartLinks_In; try assumption.
  rewrite !isSubstring_Contains in Hmatch.
  destruct Hmatch as [H | [H | H]]; auto.
Qed.

(** The theorem on a feed of two records and a target text without
    identifier: the cat record matches on the normalized text. *)
Lemma extractLinksSmart_fuzzy_match_witness :
  List.In "https://videos.example/files/aaa/raw"
    (extractLinksSmart (decoderOf twoTaskFeed) (jsonFeed twoTaskFeed) "a cat, dancing").
Proof.
  apply (extractLinksSmart_fuzzy_match (decoderOf twoTaskFeed) (jsonFeed twoTaskFeed)
           "a cat, dancing" twoTaskFeed catRecord).
  - vm_compute. reflexivity.
  - left. reflexivity.
  - reflexivity.
  - discriminate.
  - left. apply isSubstring_Contains. vm_compute. reflexivity.
Defined.

(** The scenario of the specification: no record carries an identifier of
    the target, the normalized target is contained in one normalized display
    text, and exactly that record's URL is returned. Normalization keeps at
    most 30 bytes. *)
Example extractLinksSmart_scenario :
  extractLinksSmart (decoderOf twoTaskFeed) (jsonFeed twoTaskFeed) "a cat, dancing"
  = ["https://videos.example/files/aaa/raw"]
  /\ normalizePrompt "A Cat -- dancing in the RAIN!" = "acatdancingintherain"
  /\ normalizePrompt "The quick brown fox jumps over the lazy dog, twice"
     = "thequickbrownfoxjumpsoverthela".
Proof. repeat split; vm_compute; reflexivity. Qed.

Example FindID_examples :
  FindID "video S2_12_3_456 of a cat" = "S2_12_3_456"
  /\ FindID "S2_1_x S2_7_8_9z" = "S2_7_8_9"
  /\ FindID "S2_12_3_" = "".
Proof. repeat split; vm_compute; reflexivity. Qed.

(** With an empty target prompt every completed record matches: the empty
    key is contained in every normalized display text. *)
Lemma smartLinks_empty_target (items : list MailboxItem) :
  smartLinks "" "" items = completedLinks items.
Proof.
  unfold completedLinks.
  induction items as [|x items IH]; [reflexivity|].
  cbn [smartLinks List.filter].
  destruct (String.eqb (Kind x) sora_gen_complete); cbn [negb andb]; [|exact IH].
  change (nonEmpty "") with false. cbn [andb].
  rewrite Contains_empty. cbn [orb andb].
  destruct (nonEmpty (DownloadableURL (Draft x))); cbn [map]; rewrite IH; reflexivity.
Qed.

(** The first loop of [extractLinksByTaskID] returns as soon as the feed has
    a completed record with a draft id and the body contains the target as
    text; the result is then every completed link of the feed and the loop
    over [task_id] is never reached. *)
Lemma extractLinksByTaskID_smart_path
    (jsonUnmarshal : string -> option (list MailboxItem))
    (jsonBody targetTaskID : string) (items : list MailboxItem) :
  jsonUnmarshal jsonBody = Some items ->
  reachesSmartMatch jsonBody targetTaskID items = true ->
  extractLinksByTaskID jsonUnmarshal jsonBody targetTaskID = completedLinks items.
Proof.
  intros Hdec Hreach. unfold extractLinksByTaskID, extractLinksSmart.
  rewrite Hdec, Hreach. apply smartLinks_empty_target.
Qed.

(** C2, at the failing input. The feed holds the completed records of two
    tasks; the poll asks for the second. The loop over [task_id] alone would
    answer with the second record's URL, but [handleSoraPoll] answers with
    both URLs, the other task's first. *)
Theorem handleSoraPoll_exact_match_not_reached :
  handleSoraPoll (decoderOf twoTaskFeed) true "task_2"
    (Some "[]") (Some (jsonFeed twoTaskFeed))
  = PollDone ["https://videos.example/files/aaa/raw";
              "https://videos.example/files/bbb/raw"]
  /\ linkOfTask "task_2" twoTaskFeed = ["https://videos.example/files/bbb/raw"].
Proof. split; vm_compute; reflexivity. Qed.

End MatcherFacts.
(** ** The store file *)

Module LoadFacts.
Import Store.

(** C10. [loadConfig] returns a [nil] error whatever the state of the store
    file and whatever [encoding/json] makes of its bytes. For a missing
    file, and for a file whose text is not valid JSON, it returns the empty
    collection; when the text is valid JSON it returns what was decoded,
    also when the decoder reported an error. *)
Theorem loadConfig_never_fails (jsonDecode : string -> option Decoded) :
  (forall file, snd (loadConfig jsonDecode file) = false)
  /\ loadConfig jsonDecode Missing = ([], false)
  /\ (forall data, jsonDecode data = None ->
        loadConfig jsonDecode (Readable data) = ([], false)
        /\ loadConfig jsonDecode (Unreadable data) = ([], false))
  /\ (forall data d, data <> "" -> jsonDecode data = Some d ->
        loadConfig jsonDecode (Readable data) = (decoded d, false)).
Proof.
  repeat split.
  - intros file. unfold loadConfig.
    destruct (ReadFile file) as [b e]. destruct (jsonUnmarshal jsonDecode b []).
    reflexivity.
  - unfold loadConfig, jsonUnmarshal. cbn [ReadFile]. destruct data; [reflexivity|].
    rewrite H. reflexivity.
  - unfold loadConfig, jsonUnmarshal. cbn [ReadFile]. destruct data; [reflexivity|].
    rewrite H. reflexivity.
  - intros data d Hne Hd. unfold loadConfig, jsonUnmarshal. cbn [ReadFile].
    destruct data; [congruence|]. rewrite Hd. reflexivity.
Qed.

End LoadFacts.

(** ** The artifact fetcher *)

Module FetcherFacts.
Import GoStrings Matcher MatcherFacts Fetcher FetcherSpec.

(** A path on which an error is returned and the directory is unchanged. *)
Ltac error_case Hfree :=
  cbn [fst snd]; rewrite Hfree;
  split; [split; [discriminate | intros [? ?]; discriminate]|];
  split; [reflexivity | discriminate].

(** Where the removal of the file that is still open succeeds, the
    download is as the specification says: with no file at the destination
    beforehand and a request that can be built, a file is there afterwards
    exactly when [nil] is returned, on every error the working directory
    is what it was, and each of the listed failures is an error. *)
Lemma downloadFileWithProgress_clean_where_removed
    (newRequest : string -> bool) (clientDo : string -> option Response)
    (canCreate removeHeld : string -> bool)
    (url filename : string) (fs : FileSystem) :
  fs !! filename = None ->
  newRequest url = true ->
  removeHeld filename = true ->
  let r := downloadFileWithProgress newRequest clientDo canCreate removeHeld
             url filename fs in
  (snd r = Returns None <-> is_Some (fst r !! filename))
  /\ (snd r <> Returns None -> fst r = fs)
  /\ (forall resp, clientDo url = Some resp ->
        StatusCode resp <> 200
        \/ Contains (ContentType resp) "xml" = true
        \/ Contains (ContentType resp) "text" = true
        \/ copyErr resp = true
        \/ (0 < ContentLength resp
            /\ Z.of_nat (String.length (copied resp)) <> ContentLength resp) ->
        snd r <> Returns None).
Proof.
  intros Hfree Hreq Hrm r. subst r. unfold downloadFileWithProgress, osRemove.
  rewrite Hreq, Hrm. cbn [negb].
  destruct (clientDo url) as [resp|] eqn:Hdo; [|error_case Hfree].
  destruct (StatusCode resp =? 200) eqn:Hstatus; cbn [negb]; [|error_case Hfree].
  destruct (Contains (ContentType resp) "xml" || Contains (ContentType resp) "text")
    eqn:Hct; [error_case Hfree|].
  apply orb_false_elim in Hct as [Hxml Htext].
  destruct (canCreate filename); cbn [negb]; [|error_case Hfree].
  rewrite insert_insert_eq.
  destruct (copyErr resp) eqn:Hcopy.
  { rewrite (delete_insert_id _ _ _ Hfree). error_case Hfree. }
  destruct ((0 <? ContentLength resp)
            && negb (Z.of_nat (String.length (copied resp)) =? ContentLength resp))
    eqn:Hsize.
  { rewrite (delete_insert_id _ _ _ Hfree). error_case Hfree. }
  cbn [fst snd]. rewrite lookup_insert_eq. repeat split; try congruence; eauto.
  intros resp' Hresp' Hfail. injection Hresp' as <-.
  destruct Hfail as [H | [H | [H | [H | [H1 H2]]]]]; try congruence.
  - apply Z.eqb_eq in Hstatus. contradiction.
  - apply andb_false_iff in Hsize as [Hs | Hs].
    + apply Z.ltb_ge in Hs. lia.
    + apply negb_false_iff, Z.eqb_eq in Hs. contradiction.
Qed.

(** C6, at its failing inputs. The destination is free, the reply passes
    the status and content-type checks and the file is created; then the
    copy fails, or delivers another number of bytes than the positive length
    the reply declared. The function returns an error, and the partial file
    is at the destination afterwards exactly when [os.Remove] fails: it is
    called while the file is still open, its result is dropped, and where an
    open file cannot be deleted the bytes that were copied stay on disk. *)
Theorem downloadFileWithProgress_partial_file_stays
    (newRequest : string -> bool) (clientDo : string -> option Response)
    (canCreate removeHeld : string -> bool)
    (url filename : string) (fs : FileSystem) (resp : Response) :
  fs !! filename = None ->
  newRequest url = true ->
  clientDo url = Some resp ->
  StatusCode resp = 200 ->
  Contains (ContentType resp) "xml" = false ->
  Contains (ContentType resp) "text" = false ->
  canCreate filename = true ->
  copyErr resp = true
  \/ (0 < ContentLength resp
      /\ Z.of_nat (String.length (copied resp)) <> ContentLength resp) ->
  let r := downloadFileWithProgress newRequest clientDo canCreate removeHeld
             url filename fs in
  (exists err, snd r = Returns (Some err))
  /\ fst r !! filename
     = (if removeHeld filename then None else Some (copied resp)).
Proof.
  intros Hfree Hreq Hdo Hstatus Hxml Htext Hcreate Hfail r. subst r.
  unfold downloadFileWithProgress, osRemove.
  rewrite Hreq, Hdo, Hxml, Htext, Hcreate. cbn [negb orb].
  apply Z.eqb_eq in Hstatus. rewrite Hstatus. cbn [negb].
  rewrite insert_insert_eq.
  assert (Hlook : forall err : DownloadError,
            (exists err', Returns (Some err) = Returns (Some err'))
            /\ (if removeHeld filename
                then delete filename (<[filename := copied resp]> fs)
                else <[filename := copied resp]> fs) !! filename
               = (if removeHeld filename then None else Some (copied resp))).
  { intros err. split; [eauto|].
    destruct (removeHeld filename);
      [apply lookup_delete_eq | apply lookup_insert_eq]. }
  destruct (copyErr resp) eqn:Hcopy; [cbn [fst snd]; apply Hlook|].
  destruct Hfail as [Hfail | [Hpos Hne]]; [discriminate|].
  assert (Hsize : (0 <? ContentLength resp)
                  && negb (Z.of_nat (String.length (copied resp)) =? ContentLength resp)
                  = true).
  { apply andb_true_intro. split; [apply Z.ltb_lt, Hpos|].
    apply negb_true_iff, Z.eqb_neq, Hne. }
  rewrite Hsize. cbn [fst snd]. apply Hlook.
Qed.

(** The theorem on an empty directory, a reply that declares 10 bytes and
    delivers 3, and a platform on which the open file cannot be removed:
    the error is returned and the 3 bytes are at the destination. *)
Lemma downloadFileWithProgress_partial_file_stays_witness :
  let r := downloadFileWithProgress (fun _ => true) (fun _ => Some shortReply)
             (fun _ => true) (fun _ => false)
             "https://videos.example/files/aaa/raw" "sora_aaa.mp4" ∅ in
  (exists err, snd r = Returns (Some err))
  /\ fst r !! "sora_aaa.mp4" = Some "abc".
Proof.
  apply (downloadFileWithProgress_partial_file_stays (fun _ => true)
           (fun _ => Some shortReply) (fun _ => true) (fun _ => false)
           "https://videos.example/files/aaa/raw" "sora_aaa.mp4" ∅ shortReply).
  - apply lookup_empty.
  - reflexivity.
  - reflexivity.
  - reflexivity.
  - reflexivity.
  - reflexivity.
  - reflexivity.
  - right. split; [reflexivity | discriminate].
Defined.

(** The same call where the removal succeeds leaves nothing behind. *)
Example downloadFileWithProgress_removed_on_unix :
  downloadFileWithProgress (fun _ => true) (fun _ => Some shortReply)
    (fun _ => true) (fun _ => true)
    "https://videos.example/files/aaa/raw" "sora_aaa.mp4" ∅
  = (∅, Returns (Some (ErrSizeMismatch 10 3))).
Proof.
  unfold downloadFileWithProgress, osRemove. cbn.
  rewrite insert_insert_eq, delete_insert_id by apply lookup_empty. reflexivity.
Qed.

(** A URL from which no request can be built: the nil request panics. *)
Lemma downloadFileWithProgress_panics_on_nil_request
    (clientDo : string -> option Response) (canCreate removeHeld : string -> bool)
    (url filename : string) (fs : FileSystem) :
  downloadFileWithProgress (fun _ => false) clientDo canCreate removeHeld
    url filename fs = (fs, Panics).
Proof. reflexivity. Qed.

(** C7, as amended. When the destination holds more than 1024 bytes, the
    fetch step requests nothing from the network and leaves the working
    directory as it is; it answers that the file already exists when a URL
    is known and that there is no link when none is. A second fetch of the
    same destination, whatever the environment would answer, does the
    same. *)
Theorem fetch_skips_existing
    (newRequest newRequest' : string -> bool)
    (clientDo clientDo' : string -> option Response)
    (canCreate canCreate' removeHeld removeHeld' removeFile removeFile'
       : string -> bool)
    (targetURL targetFilename content : string) (fs : FileSystem) :
  fs !! targetFilename = Some content ->
  1024 < Z.of_nat (String.length content) ->
  let answer := if nonEmpty targetURL then MsgAlreadyExists else MsgNoLink in
  fetch newRequest clientDo canCreate removeHeld removeFile
        targetURL targetFilename fs
  = (Some answer, fs, [])
  /\ fetch newRequest' clientDo' canCreate' removeHeld' removeFile'
           targetURL targetFilename
           (snd (fst (fetch newRequest clientDo canCreate removeHeld removeFile
                        targetURL targetFilename fs)))
     = (Some answer, fs, []).
Proof.
  intros Hfile Hsize answer.
  assert (H : forall n c k h f,
            fetch n c k h f targetURL targetFilename fs = (Some answer, fs, [])).
  { intros n c k h f. unfold fetch. subst answer.
    destruct (nonEmpty targetURL); [|reflexivity].
    rewrite Hfile. apply Z.ltb_lt in Hsize. rewrite Hsize. reflexivity. }
  split; [apply H|]. rewrite H. cbn [fst snd]. apply H.
Qed.

(** The theorem on a directory that holds a file of 2048 bytes, with a
    network that would refuse every request. *)
Lemma fetch_skips_existing_witness :
  fetch (fun _ => true) (fun _ => None) (fun _ => false) (fun _ => false)
        (fun _ => false) "https://videos.example/files/aaa/raw"
        "sora_aaa.mp4" {["sora_aaa.mp4" := filler 2048]}
  = (Some MsgAlreadyExists, {["sora_aaa.mp4" := filler 2048]}, []).
Proof.
  apply (fetch_skips_existing (fun _ => true) (fun _ => true)
           (fun _ => None) (fun _ => None) (fun _ => false) (fun _ => false)
           (fun _ => false) (fun _ => false) (fun _ => false) (fun _ => false)
           "https://videos.example/files/aaa/raw" "sora_aaa.mp4"
           (filler 2048) {["sora_aaa.mp4" := filler 2048]}).
  - apply lookup_singleton_eq.
  - vm_compute. reflexivity.
Defined.

(** Without a URL nothing is fetched, and the answer says so, whether or
    not the file is there. *)
Lemma fetch_no_link (newRequest : string -> bool)
    (clientDo : string -> option Response)
    (canCreate removeHeld removeFile : string -> bool)
    (targetFilename : string) (fs : FileSystem) :
  fetch newRequest clientDo canCreate removeHeld removeFile "" targetFilename fs
  = (Some MsgNoLink, fs, []).
Proof. reflexivity. Qed.

(** C7 as stated fails: a request that reaches the fetch step without a
    URL, as the reconciliation calls of the page do, is answered with "no
    link" although the file is in place. *)
Lemma fetch_answers_no_link_for_existing : ~ skipsWheneverPresent.
Proof.
  intros H.
  specialize (H (fun _ => true) (fun _ => None) (fun _ => true) (fun _ => true)
                (fun _ => true) "" "sora_aaa.mp4" (filler 2048)
                {["sora_aaa.mp4" := filler 2048]}
                (lookup_singleton_eq _ _)).
  assert (Hsize : 1024 < Z.of_nat (String.length (filler 2048)))
    by (vm_compute; reflexivity).
  specialize (H Hsize). rewrite fetch_no_link in H. discriminate H.
Qed.

(** A file of at most 1024 bytes is removed and fetched again. *)
Example fetch_replaces_small_file :
  fetch (fun _ => true) (fun _ => Some {| StatusCode := 200; ContentType := "video/mp4";
                                          ContentLength := 3; copied := "abc";
                                          copyErr := false |})
        (fun _ => true) (fun _ => true) (fun _ => true)
        "https://videos.example/files/aaa/raw"
        "sora_aaa.mp4" {["sora_aaa.mp4" := filler 1024]}
  = (Some MsgOK, {["sora_aaa.mp4" := "abc"]}, ["https://videos.example/files/aaa/raw"]).
Proof.
  unfold fetch, downloadFileWithProgress, osRemove.
  change (nonEmpty "https://videos.example/files/aaa/raw") with true. cbv iota.
  rewrite lookup_singleton_eq.
  change (1024 <? Z.of_nat (String.length (filler 1024))) with false. cbv iota.
  rewrite delete_singleton_eq. cbn. rewrite insert_insert_eq, insert_empty.
  reflexivity.
Qed.

End FetcherFacts.
(** ** The metadata upsert *)

Module UpsertFacts.
Import GoStrings Matcher MatcherFacts Store StoreSpec.

(** The loop stops at the first entry, in store order, that matches on
    either key. *)
Lemma findSameItem_first (newVideo : VideoConfig) (currentVideos : list VideoConfig) :
  forall (base i : nat) (v : VideoConfig),
    currentVideos !! i = Some v ->
    sameItem v newVideo = true ->
    exists j w,
      (j <= i)%nat
      /\ currentVideos !! j = Some w
      /\ sameItem w newVideo = true
      /\ (forall k u, (k < j)%nat -> currentVideos !! k = Some u ->
            sameItem u newVideo = false)
      /\ findSameItem base newVideo currentVideos = Some ((base + j)%nat, w).
Proof.
  induction currentVideos as [|x rest IH]; intros base i v Hi Hv; [discriminate|].
  cbn [findSameItem].
  destruct (sameItem x newVideo) eqn:Hx.
  - exists 0%nat, x. split_and!.
    + lia.
    + reflexivity.
    + exact Hx.
    + intros k u Hk. lia.
    + rewrite Nat.add_0_r. reflexivity.
  - destruct i as [|i]; [cbn in Hi; congruence|].
    destruct (IH (S base) i v Hi Hv) as (j & w & Hle & Hj & Hw & Hmin & Hfind).
    exists (S j), w. split_and!.
    + lia.
    + exact Hj.
    + exact Hw.
    + intros [|k] u Hk Hu; [cbn in Hu; congruence|].
      apply (Hmin k u); [lia | exact Hu].
    + rewrite Hfind. f_equal. f_equal. lia.
Qed.

Lemma mergeDownloadURL_keys (v newVideo : VideoConfig) (targetURL : string) :
  UniqueID (mergeDownloadURL v newVideo targetURL) = UniqueID newVideo
  /\ FileName (mergeDownloadURL v newVideo targetURL) = FileName newVideo.
Proof.
  unfold mergeDownloadURL.
  destruct (_ && _); destruct (nonEmpty targetURL); split; reflexivity.
Qed.

(** C8, as amended. When the incoming item matches an entry of the store on
    either key, the upsert overwrites the first matching entry in store
    order with the incoming item and saves the result: the number of entries
    is unchanged, nothing is appended and every other entry is as it was. *)
Theorem metadataFirst_overwrites_first_match
    (req : DownloadRequest) (meta : VideoConfig)
    (currentVideos : list VideoConfig) (i : nat) (v : VideoConfig) :
  req_MetaJSON req = Some meta ->
  currentVideos !! i = Some v ->
  sameItem v (snd (incoming req meta)) = true ->
  exists j w merged saved,
    (j <= i)%nat
    /\ currentVideos !! j = Some w
    /\ sameItem w (snd (incoming req meta)) = true
    /\ (forall k u, (k < j)%nat -> currentVideos !! k = Some u ->
          sameItem u (snd (incoming req meta)) = false)
    /\ snd (metadataFirst req currentVideos) = Some saved
    /\ length saved = length currentVideos
    /\ saved !! j = Some merged
    /\ UniqueID merged = UniqueID (snd (incoming req meta))
    /\ FileName merged = FileName (snd (incoming req meta))
    /\ (forall k, k <> j -> saved !! k = currentVideos !! k).
Proof.
  intros Hmeta Hi Hv.
  destruct (findSameItem_first _ _ 0%nat i v Hi Hv)
    as (j & w & Hle & Hj & Hw & Hmin & Hfind).
  unfold metadataFirst. rewrite Hmeta.
  destruct (incoming req meta) as [targetFilename newVideo]. cbn [snd] in *.
  rewrite Hfind. cbn [snd Nat.add].
  exists j, w, (mergeDownloadURL w newVideo (req_URL req)),
    (<[j := mergeDownloadURL w newVideo (req_URL req)]> currentVideos).
  destruct (mergeDownloadURL_keys w newVideo (req_URL req)) as [Hid Hname].
  split_and!.
  - exact Hle.
  - exact Hj.
  - exact Hw.
  - exact Hmin.
  - reflexivity.
  - apply length_insert.
  - apply list_lookup_insert_eq. apply lookup_lt_Some in Hj. exact Hj.
  - exact Hid.
  - exact Hname.
  - intros k Hk. apply list_lookup_insert_ne. congruence.
Qed.

(** The theorem on a store of two items and an incoming item that shares
    its identifier with the second and its file name with the first. *)
Lemma metadataFirst_overwrites_first_match_witness :
  exists saved,
    snd (metadataFirst (metaRequest (pendingItem "a" "f.mp4"))
           [pendingItem "b" "f.mp4"; pendingItem "a" "g.mp4"]) = Some saved
    /\ length saved = 2%nat.
Proof.
  destruct (metadataFirst_overwrites_first_match
              (metaRequest (pendingItem "a" "f.mp4")) (pendingItem "a" "f.mp4")
              [pendingItem "b" "f.mp4"; pendingItem "a" "g.mp4"] 1%nat
              (pendingItem "a" "g.mp4") eq_refl eq_refl eq_refl)
    as (j & w & merged & saved & _ & _ & _ & _ & Hsaved & Hlen & _).
  exists saved. split; [exact Hsaved | exact Hlen].
Defined.

(** C8 as stated fails: the entry whose identifier matches is not the one
    that is replaced when an earlier entry carries the incoming file name.
    The store then holds the identifier twice. *)
Lemma metadataFirst_not_identifier_first : ~ replacesIdentifiedEntry.
Proof.
  intros H.
  destruct (H (metaRequest (pendingItem "a" "f.mp4")) (pendingItem "a" "f.mp4")
              [pendingItem "b" "f.mp4"; pendingItem "a" "g.mp4"] 1%nat
              (pendingItem "a" "g.mp4") eq_refl eq_refl ltac:(discriminate) eq_refl)
    as (saved & w & Hsaved & _ & Hw & _ & Hname).
  vm_compute in Hsaved. injection Hsaved as <-.
  vm_compute in Hw. injection Hw as <-.
  vm_compute in Hname. discriminate Hname.
Qed.

Example metadataFirst_replaces_file_match :
  snd (metadataFirst (metaRequest (pendingItem "a" "f.mp4"))
         [pendingItem "b" "f.mp4"; pendingItem "a" "g.mp4"])
  = Some [pendingItem "a" "f.mp4"; pendingItem "a" "g.mp4"].
Proof. vm_compute. reflexivity. Qed.

(** C5, at a failing input of the upsert. The incoming item shares its
    identifier with the first entry and its file name with the second: the
    first entry is overwritten and the file name stands twice. *)
Example metadataFirst_duplicates_fileName :
  uniqueFileNames [pendingItem "a" "f1.mp4"; pendingItem "b" "f2.mp4"]
  /\ snd (metadataFirst (metaRequest (pendingItem "a" "f2.mp4"))
            [pendingItem "a" "f1.mp4"; pendingItem "b" "f2.mp4"])
     = Some [pendingItem "a" "f2.mp4"; pendingItem "b" "f2.mp4"]
  /\ ~ uniqueFileNames [pendingItem "a" "f2.mp4"; pendingItem "b" "f2.mp4"].
Proof.
  unfold uniqueFileNames. repeat split.
  - cbn. apply NoDup_cons. split; [|apply NoDup_singleton].
    rewrite list_elem_of_singleton. discriminate.
  - cbn. intros H. apply NoDup_cons in H as [H _]. apply H. left.
Qed.

End UpsertFacts.
(** ** The history-batch sync *)

Module HistorySyncFacts.
Import GoStrings Matcher MatcherSpec Store StoreSpec HistorySync.

(** C5, at a failing input of the history batch. The store holds one item
    without identifier whose file is named after the identifier [S2_1_2_3];
    the feed holds a completed record whose display text carries that
    identifier. The branch for records with an identifier looks the
    identifier up in [existingIDs] and never consults [localFileNames], as
    the branch for records without identifier does: a second item with the
    same file name is appended and saved. *)
Theorem syncHistory_duplicates_fileName (growCap : nat -> nat) (cap : nat) :
  let loaded := [pendingItem "" "S2_1_2_3.mp4"] in
  let record :=
    {| item_ID := "mail_1"; Kind := sora_gen_complete;
       DisplayStr := "S2_1_2_3 a cat";
       Draft := {| draft_ID := "gen_1"; draft_TaskID := "task_1";
                   DownloadableURL := "https://videos.example/files/aaa/raw" |} |} in
  uniqueFileNames loaded
  /\ syncHistory growCap [record] loaded cap
     = ([pendingItem "" "S2_1_2_3.mp4";
         syncedVideo "S2_1_2_3" "S2_1_2_3.mp4" "SYNC: S2_1_2_3"
                     "https://videos.example/files/aaa/raw"], 1)
  /\ ~ uniqueFileNames (fst (syncHistory growCap [record] loaded cap)).
Proof.
  intros loaded record.
  assert (Hrun : syncHistory growCap [record] loaded cap
     = ([pendingItem "" "S2_1_2_3.mp4";
         syncedVideo "S2_1_2_3" "S2_1_2_3.mp4" "SYNC: S2_1_2_3"
                     "https://videos.example/files/aaa/raw"], 1)).
  { unfold syncHistory. cbn [indexLoaded fold_left loaded].
    unfold syncItem, appendVideo.
    destruct (_ <? _)%nat; vm_compute; reflexivity. }
  split_and!.
  - unfold uniqueFileNames. cbn. apply NoDup_singleton.
  - exact Hrun.
  - rewrite Hrun. unfold uniqueFileNames. cbn.
    intros H. apply NoDup_cons in H as [H _]. apply H. left.
Qed.

(** The branch for records without identifier does consult the file names:
    the same store with a record whose text carries no identifier and whose
    URL names the stored file is left alone. *)
Example syncHistory_checks_fileName_without_id (growCap : nat -> nat) (cap : nat) :
  let loaded := [pendingItem "" "sora_aaa.mp4"] in
  let record :=
    {| item_ID := "mail_1"; Kind := sora_gen_complete; DisplayStr := "a cat";
       Draft := {| draft_ID := "gen_1"; draft_TaskID := "task_1";
                   DownloadableURL := "https://videos.example/files/aaa/raw" |} |} in
  syncHistory growCap [record] loaded cap = (loaded, 0).
Proof. vm_compute. reflexivity. Qed.

Example FindFileID_examples :
  FindFileID "https://videos.example/files/aaa-B_9/raw" = Some "aaa-B_9"
  /\ FindFileID "https://videos.example/files//x/files/ok/" = Some "ok"
  /\ FindFileID "https://videos.example/files/aaa" = None.
Proof. repeat split; vm_compute; reflexivity. Qed.

End HistorySyncFacts.
(** ** The scheduling orchestrator *)

Module OrchestratorFacts.
Import GoStrings GoTime SlotAllocator Matcher Store Orchestrator OrchestratorSpec.
Import RunTrace.

Lemma rescheduled_refl (v : VideoConfig) : rescheduled v v.
Proof. destruct v; reflexivity. Qed.

Lemma rescheduled_setPublishAt (v : VideoConfig) (x : string) :
  rescheduled v (setPublishAt v x).
Proof. destruct v; reflexivity. Qed.

Lemma rescheduled_Uploaded (v0 v : VideoConfig) :
  rescheduled v0 v -> Uploaded v = Uploaded v0.
Proof. intros ->. reflexivity. Qed.

Section RunFacts.

Variable ScheduleSlots : list string.
Variable now : Time.
Variable parseRFC3339 : string -> option Time.
Variable uploadVideo : nat -> VideoConfig -> bool.

Local Abbreviation assignSlot := (assignSlot ScheduleSlots now parseRFC3339).
Local Abbreviation iteration := (iteration ScheduleSlots now parseRFC3339 uploadVideo).
Local Abbreviation loop := (loop ScheduleSlots now parseRFC3339 uploadVideo).

(** The schedule step changes nothing of the item but [PublishAt]. *)
Lemma assignSlot_rescheduled (v v' : VideoConfig) (clock clock' : Time) :
  assignSlot v clock = Some (v', clock') -> rescheduled v v'.
Proof.
  unfold Orchestrator.assignSlot. intros H.
  destruct (IsManual v && nonEmpty (PublishAt v)).
  - destruct (parseRFC3339 (PublishAt v)) as [t|].
    + destruct (negb (IgnoreCalc v) && After t clock).
      * destruct (calculateNextSlot ScheduleSlots now t); [|discriminate].
        cbn in H. injection H as <- _. apply rescheduled_refl.
      * injection H as <- _. apply rescheduled_refl.
    + injection H as <- _. apply rescheduled_refl.
  - destruct (calculateNextSlot ScheduleSlots now clock); [|discriminate].
    cbn in H. injection H as <- _. apply rescheduled_setPublishAt.
Qed.

Lemma iteration_outcome (i : nat) (st st' : RunState) :
  iteration i st = Some st' -> Outcome uploadVideo i st st'.
Proof.
  unfold Orchestrator.iteration. intros H.
  destruct (videos st !! i) as [v|] eqn:Hv.
  2:{ injection H as <-. apply Untouched; [left; exact Hv | reflexivity]. }
  destruct (Uploaded v) eqn:Hup.
  { injection H as <-. apply Untouched; [right; eauto | reflexivity]. }
  destruct (bool_decide (FileName v ∈ files st)) eqn:Hfile; cbn [negb] in H.
  2:{ injection H as <-. apply bool_decide_eq_false in Hfile.
      eapply SkippedMissing; eauto. }
  apply bool_decide_eq_true in Hfile.
  destruct (assignSlot v (currTime st)) as [[v' clock]|] eqn:Hslot; [|discriminate].
  cbn [mbind option_bind] in H.
  pose proof (assignSlot_rescheduled _ _ _ _ Hslot) as Hres.
  destruct (uploadVideo i v') eqn:Hupload; injection H as <-.
  - eapply Done; eauto.
  - eapply Failed; eauto.
Qed.

Lemma Inv_start (loaded : list VideoConfig) (files0 : gset string) (clock : Time) :
  Inv loaded files0 0 (mkRun loaded clock 0 files0 [] []).
Proof.
  split; cbn [videos saves events processed files]; try reflexivity.
  - intros j v0 Hj. exists v0. split_and!; [exact Hj | reflexivity |].
    left. apply rescheduled_refl.
  - intros s j [].
  - intros j [].
  - intros j [].
  - intros j v0 Hj. lia.
Qed.

Lemma Inv_step (loaded : list VideoConfig) (files0 : gset string) (i : nat)
    (st st' : RunState) :
  Inv loaded files0 i st -> Outcome uploadVideo i st st' ->
  Inv loaded files0 (S i) st'.
Proof.
  intros [Hlen Hrest Hitem Hsaves Hfailed Hdone Hvisited Hproc Hfiles] Hout.
  assert (Hi : videos st !! i = loaded !! i) by (apply Hrest; lia).
  destruct Hout as [Hno -> | v Hv Hup Hmiss -> | v v' clock Hv Hup Hfile Hres Hupl ->
                   | v v' clock Hv Hup Hfile Hres Hupl ->].
  - split; try assumption.
    + intros j Hj. apply Hrest. lia.
    + intros j Hj. destruct (Hfailed j Hj) as [Hlt Hx]. split; [lia | exact Hx].
    + intros j Hj. destruct (Hdone j Hj) as [Hlt Hx]. split; [lia | exact Hx].
    + intros j v0 Hj Hl Hu.
      destruct (decide (j = i)) as [-> | Hne]; [|apply (Hvisited j v0); [lia | assumption..]].
      rewrite Hl in Hi. destruct Hno as [Hno | (v & Hv & Hvu)]; congruence.
  - split; cbn [videos saves events processed files]; try assumption.
    + intros j Hj. apply Hrest. lia.
    + intros j Hj. apply in_app_or in Hj as [Hj | [Hj | []]]; [|discriminate].
      destruct (Hfailed j Hj) as [Hlt Hx]. split; [lia | exact Hx].
    + intros j Hj. apply in_app_or in Hj as [Hj | [Hj | []]]; [|discriminate].
      destruct (Hdone j Hj) as [Hlt Hx]. split; [lia | exact Hx].
    + intros j v0 Hj Hl Hu.
      destruct (decide (j = i)) as [-> | Hne].
      * left. apply in_or_app. right. left. reflexivity.
      * destruct (Hvisited j v0) as [H | [H | H]]; [lia | assumption.. | | |].
        -- left. apply in_or_app. left. exact H.
        -- right. left. apply in_or_app. left. exact H.
        -- right. right. apply in_or_app. left. exact H.
  - assert (Hlt : (i < length (videos st))%nat) by (eapply lookup_lt_Some; eauto).
    assert (HupV' : Uploaded v' = false)
      by (rewrite (rescheduled_Uploaded _ _ Hres); exact Hup).
    split; cbn [videos saves events processed files]; try assumption.
    + rewrite length_insert. exact Hlen.
    + intros j Hj. rewrite list_lookup_insert_ne by lia. apply Hrest. lia.
    + intros j v0 Hj. destruct (decide (j = i)) as [-> | Hne].
      * rewrite list_lookup_insert_eq by exact Hlt.
        assert (v = v0) as -> by congruence.
        exists v'. split_and!; [reflexivity | congruence | left; exact Hres].
      * rewrite list_lookup_insert_ne by congruence. apply Hitem, Hj.
    + intros s j Hs. destruct (decide (j = i)) as [-> | Hne].
      * destruct (Hsaves s i Hs) as [H | H]; left; congruence.
      * rewrite list_lookup_insert_ne by congruence. apply Hsaves, Hs.
    + intros j Hj. apply in_app_or in Hj as [Hj | [Hj | []]].
      * destruct (Hfailed j Hj) as [Hlt' Hx]. split; [lia|].
        rewrite list_lookup_insert_ne by lia. exact Hx.
      * injection Hj as <-. split; [lia|]. exists v'.
        rewrite list_lookup_insert_eq by exact Hlt. split; [reflexivity | exact HupV'].
    + intros j Hj. apply in_app_or in Hj as [Hj | [Hj | []]]; [|discriminate].
      destruct (Hdone j Hj) as [Hlt' Hx]. split; [lia|].
      rewrite list_lookup_insert_ne by lia. exact Hx.
    + intros j v0 Hj Hl Hu.
      destruct (decide (j = i)) as [-> | Hne].
      * right. left. apply in_or_app. right. left. reflexivity.
      * destruct (Hvisited j v0) as [H | [H | H]]; [lia | assumption.. | | |].
        -- left. apply in_or_app. left. exact H.
        -- right. left. apply in_or_app. left. exact H.
        -- right. right. apply in_or_app. left. exact H.
  - assert (Hlt : (i < length (videos st))%nat) by (eapply lookup_lt_Some; eauto).
    assert (Hins : <[i := setUploaded v' true]> (<[i := v']> (videos st))
                   = <[i := setUploaded v' true]> (videos st))
      by apply list_insert_insert_eq.
    rewrite Hins.
    split; cbn [videos saves events processed files].
    + rewrite length_insert. exact Hlen.
    + intros j Hj. rewrite list_lookup_insert_ne by lia. apply Hrest. lia.
    + intros j v0 Hj. destruct (decide (j = i)) as [-> | Hne].
      * rewrite list_lookup_insert_eq by exact Hlt.
        assert (v = v0) as -> by congruence.
        exists (setUploaded v' true). split_and!; [reflexivity | congruence |].
        right. split; [exact Hup|].
        change (PublishAt (setUploaded v' true)) with (PublishAt v').
        unfold rescheduled in Hres. rewrite <- Hres. reflexivity.
      * rewrite list_lookup_insert_ne by congruence. apply Hitem, Hj.
    + intros s j Hs. apply in_app_or in Hs as [Hs | [<- | []]]; [|right; reflexivity].
      destruct (decide (j = i)) as [-> | Hne].
      * destruct (Hsaves s i Hs) as [H | H]; left; congruence.
      * rewrite list_lookup_insert_ne by congruence. apply Hsaves, Hs.
    + intros j Hj. apply in_app_or in Hj as [Hj | [Hj | []]]; [|discriminate].
      destruct (Hfailed j Hj) as [Hlt' Hx]. split; [lia|].
      rewrite list_lookup_insert_ne by lia. exact Hx.
    + intros j Hj. apply in_app_or in Hj as [Hj | [Hj | []]].
      * destruct (Hdone j Hj) as [Hlt' (x & Hx & Hxu & Hxf)]. split; [lia|].
        rewrite list_lookup_insert_ne by lia. exists x. split_and!; try assumption.
        unfold archiveVideo. set_solver.
      * injection Hj as <-. split; [lia|]. exists (setUploaded v' true).
        rewrite list_lookup_insert_eq by exact Hlt. split_and!; try reflexivity.
        unfold archiveVideo. cbn. set_solver.
    + intros j v0 Hj Hl Hu.
      destruct (decide (j = i)) as [-> | Hne].
      * right. right. apply in_or_app. right. left. reflexivity.
      * destruct (Hvisited j v0) as [H | [H | H]]; [lia | assumption.. | | |].
        -- left. apply in_or_app. left. exact H.
        -- right. left. apply in_or_app. left. exact H.
        -- right. right. apply in_or_app. left. exact H.
    + rewrite length_app, Hproc. cbn. lia.
    + unfold archiveVideo. set_solver.
Qed.

(** The invariant at the end of the loop; when the limit was not reached
    the loop went through every index. *)
Lemma Inv_loop (loaded : list VideoConfig) (files0 : gset string) (limit : Z)
    (n : nat) :
  forall (i : nat) (st r : RunState),
    loop limit n i st = Some r ->
    Inv loaded files0 i st ->
    exists i', Inv loaded files0 i' r /\ (processed r < limit -> i' = (i + n)%nat).
Proof.
  induction n as [|n IH]; intros i st r Hloop Hinv; cbn [Orchestrator.loop] in Hloop.
  - injection Hloop as <-. exists i. split; [exact Hinv | lia].
  - destruct (limit <=? processed st) eqn:Hlim.
    + injection Hloop as <-. exists i. split; [exact Hinv|].
      apply Z.leb_le in Hlim. lia.
    + destruct (iteration i st) as [st'|] eqn:Hit; [|discriminate].
      cbn [mbind option_bind] in Hloop.
      destruct (IH (S i) st' r Hloop) as (i' & Hinv' & Hend).
      { eapply Inv_step; [exact Hinv | apply iteration_outcome, Hit]. }
      exists i'. split; [exact Hinv'|]. intros H. rewrite (Hend H). lia.
Qed.

(** Every run that ends ends in a state of the invariant. *)
Lemma Inv_run (startDate : Time) (limit : Z) (clientSecret : bool) (lastTime : Time)
    (loaded : list VideoConfig) (files0 : gset string) (r : RunState) :
  processScheduleAndUpload ScheduleSlots now parseRFC3339 uploadVideo
    startDate limit clientSecret lastTime loaded files0 = Some r ->
  exists i', Inv loaded files0 i' r
             /\ (processed r < limit -> i' = length loaded).
Proof.
  unfold processScheduleAndUpload. intros H.
  destruct clientSecret; [|discriminate]. cbn [negb] in H.
  destruct (startClock _ _ _ _ _ _) as [clock|]; [|discriminate].
  cbn [mbind option_bind] in H.
  destruct (Inv_loop loaded files0 limit _ _ _ _ H (Inv_start loaded files0 clock))
    as (i' & Hinv & Hend).
  exists i'. split; [exact Hinv | exact Hend].
Qed.

(** The schedule step on an automatic item stamps it with the running
    clock. *)
Lemma assignSlot_stamp (v v' : VideoConfig) (clock clock' : Time) :
  assignSlot v clock = Some (v', clock') ->
  IsManual v && nonEmpty (PublishAt v) = false ->
  PublishAt v' = FormatRFC3339 (In clock UTC).
Proof.
  unfold Orchestrator.assignSlot. intros H Hauto. rewrite Hauto in H.
  destruct (calculateNextSlot ScheduleSlots now clock); [|discriminate].
  cbn in H. injection H as <- _. reflexivity.
Qed.

(** The loop over the first [n + 1] indices is the loop over the first
    [n] followed by one more turn. *)
Lemma loop_snoc (limit : Z) (n : nat) :
  forall (i : nat) (st : RunState),
    loop limit (S n) i st = (st1 ← loop limit n i st; loop limit 1 (i + n) st1).
Proof.
  induction n as [|n IH]; intros i st.
  - rewrite Nat.add_0_r. reflexivity.
  - change (loop limit (S (S n)) i st)
      with (if limit <=? processed st then Some st
            else st' ← iteration i st; loop limit (S n) (S i) st').
    change (loop limit (S n) i st)
      with (if limit <=? processed st then Some st
            else st' ← iteration i st; loop limit n (S i) st').
    destruct (limit <=? processed st) eqn:E.
    + cbn [mbind option_bind Orchestrator.loop]. rewrite E. reflexivity.
    + destruct (iteration i st) as [st'|]; [|reflexivity].
      cbn [mbind option_bind]. rewrite IH.
      replace (S i + n)%nat with (i + S n)%nat by lia. reflexivity.
Qed.

Lemma keepsAttempts_start (limit : Z) (loaded : list VideoConfig)
    (files0 : gset string) (clock : Time) :
  keepsAttempts ScheduleSlots now parseRFC3339 uploadVideo limit
    (mkRun loaded clock 0 files0 [] []) loaded (mkRun loaded clock 0 files0 [] []).
Proof. split; intros j []. Qed.

(** An iteration leaves the earlier attempts as they are and records its
    own. *)
Lemma keepsAttempts_step (limit : Z) (init : RunState) (loaded : list VideoConfig)
    (files0 : gset string) (i : nat) (st st' : RunState) :
  Inv loaded files0 i st ->
  loop limit i 0 init = Some st ->
  keepsAttempts ScheduleSlots now parseRFC3339 uploadVideo limit init loaded st ->
  iteration i st = Some st' ->
  keepsAttempts ScheduleSlots now parseRFC3339 uploadVideo limit init loaded st'.
Proof.
  intros Hinv Hreach [Hfail Hdone] Hit.
  pose proof (inv_failed _ _ _ _ Hinv) as Hf_lt.
  pose proof (inv_done _ _ _ _ Hinv) as Hd_lt.
  assert (Hi : videos st !! i = loaded !! i) by (apply (inv_rest _ _ _ _ Hinv); lia).
  unfold Orchestrator.iteration in Hit.
  destruct (videos st !! i) as [v|] eqn:Hv; [|injection Hit as <-; split; assumption].
  destruct (Uploaded v); [injection Hit as <-; split; assumption|].
  destruct (negb (bool_decide (FileName v ∈ files st))).
  { injection Hit as <-. split; cbn [events videos saves].
    - intros j Hj. apply in_app_or in Hj as [Hj | [Hj | []]]; [auto | discriminate].
    - intros k Hk. apply in_app_or in Hk as [Hk | [Hk | []]]; [auto | discriminate]. }
  destruct (assignSlot v (currTime st)) as [[v' clock']|] eqn:Hslot; [|discriminate].
  cbn [mbind option_bind] in Hit.
  assert (Hlt : (i < length (videos st))%nat) by (eapply lookup_lt_Some; eauto).
  destruct (uploadVideo i v') eqn:Hup; injection Hit as <-;
    split; cbn [events videos saves].
  - intros j Hj. apply in_app_or in Hj as [Hj | [Hj | []]]; [|discriminate].
    destruct (Hf_lt j Hj) as [Hlt' _].
    destruct (Hfail j Hj) as (before & v0 & w & n & H0 & H1 & H2 & H3 & H4).
    exists before, v0, w, n. split_and!; auto.
    rewrite !list_lookup_insert_ne by lia. exact H2.
  - intros k Hk. apply in_app_or in Hk as [Hk | [Hk | []]].
    + destruct (Hd_lt k Hk) as [Hlt' _].
      destruct (Hdone k Hk) as (s & Hs & Hagree).
      exists s. split; [apply in_or_app; left; exact Hs|].
      intros j Hj. rewrite !list_lookup_insert_ne by lia. apply Hagree, Hj.
    + injection Hk as <-. eexists. split; [apply in_or_app; right; left; reflexivity|].
      reflexivity.
  - intros j Hj. apply in_app_or in Hj as [Hj | [Hj | []]].
    + destruct (Hf_lt j Hj) as [Hlt' _].
      destruct (Hfail j Hj) as (before & v0 & w & n & H0 & H1 & H2 & H3 & H4).
      exists before, v0, w, n. split_and!; auto.
      rewrite list_lookup_insert_ne by lia. exact H2.
    + injection Hj as <-. exists st, v, v', clock'.
      split_and!; [exact Hreach | congruence | | exact Hslot | exact Hup].
      apply list_lookup_insert_eq. exact Hlt.
  - intros k Hk. apply in_app_or in Hk as [Hk | [Hk | []]]; [|discriminate].
    destruct (Hd_lt k Hk) as [Hlt' _].
    destruct (Hdone k Hk) as (s & Hs & Hagree).
    exists s. split; [exact Hs|].
    intros j Hj. rewrite list_lookup_insert_ne by lia. apply Hagree, Hj.
Qed.

Lemma keepsAttempts_loop (limit : Z) (init : RunState) (loaded : list VideoConfig)
    (files0 : gset string) (n : nat) :
  forall (i : nat) (st r : RunState),
    loop limit n i st = Some r ->
    Inv loaded files0 i st ->
    loop limit i 0 init = Some st ->
    keepsAttempts ScheduleSlots now parseRFC3339 uploadVideo limit init loaded st ->
    keepsAttempts ScheduleSlots now parseRFC3339 uploadVideo limit init loaded r.
Proof.
  induction n as [|n IH]; intros i st r Hloop Hinv Hreach Hkeep;
    cbn [Orchestrator.loop] in Hloop.
  - injection Hloop as <-. exact Hkeep.
  - destruct (limit <=? processed st) eqn:Hlim; [injection Hloop as <-; exact Hkeep|].
    destruct (iteration i st) as [st'|] eqn:Hit; [|discriminate].
    cbn [mbind option_bind] in Hloop.
    apply (IH (S i) st' r Hloop).
    + eapply Inv_step; [exact Hinv | apply iteration_outcome, Hit].
    + rewrite loop_snoc, Hreach. cbn [mbind option_bind Orchestrator.loop Nat.add].
      rewrite Hlim, Hit. reflexivity.
    + eapply keepsAttempts_step; eauto.
Qed.

Lemma keepsAttempts_run (startDate : Time) (limit : Z) (clientSecret : bool)
    (lastTime : Time) (loaded : list VideoConfig) (files0 : gset string)
    (r : RunState) :
  processScheduleAndUpload ScheduleSlots now parseRFC3339 uploadVideo
    startDate limit clientSecret lastTime loaded files0 = Some r ->
  exists start,
    startClock ScheduleSlots now parseRFC3339 startDate lastTime loaded = Some start
    /\ keepsAttempts ScheduleSlots now parseRFC3339 uploadVideo limit
         (mkRun loaded start 0 files0 [] []) loaded r.
Proof.
  unfold processScheduleAndUpload. intros H.
  destruct clientSecret; [|discriminate]. cbn [negb] in H.
  destruct (startClock _ _ _ _ _ _) as [clock|]; [|discriminate].
  cbn [mbind option_bind] in H.
  exists clock. split; [reflexivity|].
  eapply keepsAttempts_loop;
    [exact H | apply Inv_start | reflexivity | apply keepsAttempts_start].
Qed.

(** C3, as amended. When the upload of an item fails in a run that ends,
    the item was pending and stays pending: its [Uploaded] flag is false in
    memory and in every collection the run passes to [saveConfig], and no
    field of it other than [PublishAt] differs from what was loaded. Nothing
    is rolled back: the item stays in memory exactly as it was handed to the
    failed call, which is the outcome of the schedule step on the loaded
    item at the clock the run had when its loop reached the item, for an
    automatic item with that clock as its [PublishAt]; every collection the
    run saves holds the item as it was loaded or in that state, and every
    upload that succeeds later in the run saves it in that state. The run
    goes on after the failure: unless it
    stops at the limit, every pending item of the backlog is attempted or
    skipped for its missing file. *)
Theorem processScheduleAndUpload_upload_failure
    (startDate : Time) (limit : Z) (clientSecret : bool) (lastTime : Time)
    (loaded : list VideoConfig) (files0 : gset string) (r : RunState) (j : nat) :
  processScheduleAndUpload ScheduleSlots now parseRFC3339 uploadVideo
    startDate limit clientSecret lastTime loaded files0 = Some r ->
  List.In (UploadFailed j) (events r) ->
  exists v0 v,
    loaded !! j = Some v0 /\ Uploaded v0 = false
    /\ videos r !! j = Some v /\ Uploaded v = false /\ rescheduled v0 v
    /\ (forall s, List.In s (saves r) ->
          exists w, s !! j = Some w /\ Uploaded w = false /\ rescheduled v0 w)
    /\ (processed r < limit ->
        forall k u, loaded !! k = Some u -> Uploaded u = false ->
          List.In (FileMissing k) (events r) \/ List.In (UploadFailed k) (events r)
          \/ List.In (UploadDone k) (events r))
    /\ (exists start before next,
          startClock ScheduleSlots now parseRFC3339 startDate lastTime loaded
          = Some start
          /\ loop limit j 0 (mkRun loaded start 0 files0 [] []) = Some before
          /\ assignSlot v0 (currTime before) = Some (v, next)
          /\ uploadVideo j v = false
          /\ (IsManual v0 && nonEmpty (PublishAt v0) = false ->
              PublishAt v = FormatRFC3339 (In (currTime before) UTC)))
    /\ (forall s, List.In s (saves r) -> s !! j = Some v0 \/ s !! j = Some v)
    /\ (forall k, (j < k)%nat -> List.In (UploadDone k) (events r) ->
          exists s, List.In s (saves r) /\ s !! j = Some v
                    /\ exists w, s !! k = Some w /\ Uploaded w = true).
Proof.
  intros Hrun Hfail.
  destruct (Inv_run _ _ _ _ _ _ _ Hrun) as (i' & Hinv & Hend).
  destruct (keepsAttempts_run _ _ _ _ _ _ _ Hrun) as (start & Hstart & Hkept & Hsaved).
  destruct Hinv as [Hlen Hrest Hitem Hsaves Hfailed Hdone Hvisited Hproc Hfiles].
  destruct (Hfailed j Hfail) as (Hlt & v & Hv & Hup).
  assert (Hj : is_Some (loaded !! j)).
  { apply lookup_lt_is_Some. rewrite <- Hlen. eapply lookup_lt_Some; eauto. }
  destruct Hj as [v0 Hv0].
  destruct (Hitem j v0 Hv0) as (v1 & Hv1 & Hkeep & Hrel).
  assert (v1 = v) as -> by congruence.
  assert (Hup0 : Uploaded v0 = false).
  { destruct (Uploaded v0) eqn:E; [|reflexivity].
    rewrite (Hkeep eq_refl) in Hup. congruence. }
  assert (Hres : rescheduled v0 v).
  { destruct Hrel as [H | [_ H]]; [exact H|]. rewrite H in Hup. discriminate. }
  exists v0, v. split_and!; try assumption.
  - intros s Hs. destruct (Hsaves s j Hs) as [H | H].
    + exists v0. split_and!; [congruence | exact Hup0 | apply rescheduled_refl].
    + exists v. split_and!; [congruence | exact Hup | exact Hres].
  - intros Hlim k u Hk Hu. apply (Hvisited k u); [|assumption..].
    rewrite (Hend Hlim). eapply lookup_lt_Some; eauto.
  - destruct (Hkept j Hfail) as (before & v0' & v' & next & H0 & H1 & H2 & H3 & H4).
    assert (v0' = v0) as -> by congruence.
    assert (v' = v) as -> by congruence.
    exists start, before, next. split_and!; [exact Hstart | exact H0 | exact H3 | exact H4 |].
    intros Hauto. exact (assignSlot_stamp _ _ _ _ H3 Hauto).
  - intros s Hs. destruct (Hsaves s j Hs) as [H | H]; [left | right]; congruence.
  - intros k Hk Hdone_k.
    destruct (Hsaved k Hdone_k) as (s & Hs & Hagree).
    destruct (Hdone k Hdone_k) as (_ & w & Hw & Hwu & _).
    exists s. split_and!; [exact Hs | |].
    + rewrite (Hagree j) by lia. exact Hv.
    + exists w. split; [|exact Hwu]. rewrite (Hagree k) by lia. exact Hw.
Qed.

(** C4, as amended. A batch run never touches an item that was loaded with
    [Uploaded] set: the item is the same in memory at the end and in every
    collection the run passes to [saveConfig]. *)
Theorem processScheduleAndUpload_keeps_uploaded
    (startDate : Time) (limit : Z) (clientSecret : bool) (lastTime : Time)
    (loaded : list VideoConfig) (files0 : gset string) (r : RunState)
    (j : nat) (v0 : VideoConfig) :
  processScheduleAndUpload ScheduleSlots now parseRFC3339 uploadVideo
    startDate limit clientSecret lastTime loaded files0 = Some r ->
  loaded !! j = Some v0 ->
  Uploaded v0 = true ->
  videos r !! j = Some v0
  /\ forall s, List.In s (saves r) -> s !! j = Some v0.
Proof.
  intros Hrun Hv0 Hup.
  destruct (Inv_run _ _ _ _ _ _ _ Hrun) as (i' & Hinv & _).
  destruct Hinv as [Hlen Hrest Hitem Hsaves Hfailed Hdone Hvisited Hproc Hfiles].
  destruct (Hitem j v0 Hv0) as (v & Hv & Hkeep & _).
  rewrite (Hkeep Hup) in Hv. split; [exact Hv|].
  intros s Hs. destruct (Hsaves s j Hs) as [H | H]; congruence.
Qed.

End RunFacts.

Lemma twoItemRun_result :
  match twoItemRun with
  | Some r =>
      events r = [UploadFailed 0; UploadDone 1]
      /\ saves r = [[setPublishAt (autoItem "a.mp4") "2024-03-10T04:00:00Z";
                     setUploaded (setPublishAt (autoItem "b.mp4") "2024-03-10T08:00:00Z")
                                 true]]
  | None => False
  end.
Proof. vm_compute. split; reflexivity. Qed.

(** The theorem on that run: the first item stays pending, and the save of
    the second item holds it as it was handed to the failed call. *)
Lemma processScheduleAndUpload_upload_failure_witness :
  exists r v s,
    twoItemRun = Some r /\ videos r !! 0%nat = Some v /\ Uploaded v = false
    /\ List.In s (saves r) /\ s !! 0%nat = Some v.
Proof.
  pose proof twoItemRun_result as Hres.
  destruct twoItemRun as [r|] eqn:Hrun; [|contradiction].
  destruct Hres as [Hev _]. unfold twoItemRun in Hrun.
  destruct (processScheduleAndUpload_upload_failure defaultScheduleSlots zeroTime
              noStamp failFirst zeroTime 1 true (Date 2024 3 10 9 30 0 0 Taipei)
              [autoItem "a.mp4"; autoItem "b.mp4"] {["a.mp4"; "b.mp4"]} r 0%nat Hrun)
    as (v0 & v & _ & _ & Hv & Hup & _ & _ & _ & _ & _ & Hlater).
  - rewrite Hev. left. reflexivity.
  - destruct (Hlater 1%nat) as (s & Hs & Hsj & _).
    + lia.
    + rewrite Hev. right. left. reflexivity.
    + exists r, v, s. split_and!; [reflexivity | exact Hv | exact Hup | exact Hs | exact Hsj].
Defined.

(** C3 as stated fails: the slot assigned to the first item before its
    upload failed is written to the store when the second item is saved. *)
Lemma processScheduleAndUpload_commits_failed_slot : ~ failedItemNeverCommitted.
Proof.
  intros H.
  pose proof twoItemRun_result as Hres.
  destruct twoItemRun as [r|] eqn:Hrun; [|contradiction].
  destruct Hres as [Hev Hsaves]. unfold twoItemRun in Hrun.
  assert (Hin : List.In (UploadFailed 0) (events r)) by (rewrite Hev; left; reflexivity).
  assert (Hs : List.In [setPublishAt (autoItem "a.mp4") "2024-03-10T04:00:00Z";
                        setUploaded (setPublishAt (autoItem "b.mp4")
                                                  "2024-03-10T08:00:00Z") true]
                       (saves r)) by (rewrite Hsaves; left; reflexivity).
  specialize (H defaultScheduleSlots zeroTime noStamp failFirst zeroTime 1
                (Date 2024 3 10 9 30 0 0 Taipei)
                [autoItem "a.mp4"; autoItem "b.mp4"] {["a.mp4"; "b.mp4"]}
                r 0%nat (autoItem "a.mp4") _ Hrun Hin eq_refl Hs).
  discriminate H.
Qed.

(** The theorem of C4 on a run over an uploaded item and a pending one. *)
Lemma mixedRun_result :
  match mixedRun with
  | Some r => length (saves r) = 1%nat
  | None => False
  end.
Proof. vm_compute. reflexivity. Qed.

Lemma processScheduleAndUpload_keeps_uploaded_witness :
  exists r,
    mixedRun = Some r
    /\ videos r !! 0%nat = Some (uploadedItem "a.mp4" "")
    /\ length (saves r) = 1%nat.
Proof.
  pose proof mixedRun_result as Hlen.
  destruct mixedRun as [r|] eqn:Hrun; [|contradiction].
  unfold mixedRun in Hrun.
  destruct (processScheduleAndUpload_keeps_uploaded defaultScheduleSlots zeroTime
              noStamp (fun _ _ => true) zeroTime 5 true
              (Date 2024 3 10 9 30 0 0 Taipei)
              [uploadedItem "a.mp4" ""; autoItem "b.mp4"] {["b.mp4"]} r 0%nat
              (uploadedItem "a.mp4" "") Hrun eq_refl eq_refl) as [Hv _].
  exists r. split_and!; [reflexivity | exact Hv | exact Hlen].
Defined.

(** C4 as stated fails: a manual-schedule request that names an uploaded
    item saves it with [Uploaded] reset, before any upload is tried. *)
Lemma handleManualSchedule_resets_uploaded : ~ uploadedIsTerminalForManual.
Proof.
  intros H.
  specialize (H (fun _ _ => false) "POST" "a.mp4"
                (Some (Date 2024 3 10 9 30 0 0 UTC)) "on"
                [uploadedItem "a.mp4" "2024-01-01T00:00:00Z"] ∅ 0%nat
                (uploadedItem "a.mp4" "2024-01-01T00:00:00Z")
                [mkVideo "" "a.mp4" "title" "" [] "24" "private" false
                         "2024-03-10T09:30:00Z" true false ""]
                eq_refl eq_refl).
  assert (Hin : List.In
    [mkVideo "" "a.mp4" "title" "" [] "24" "private" false
             "2024-03-10T09:30:00Z" true false ""]
    (snd (fst (handleManualSchedule (fun _ _ => false) "POST" "a.mp4"
                 (Some (Date 2024 3 10 9 30 0 0 UTC)) "on"
                 [uploadedItem "a.mp4" "2024-01-01T00:00:00Z"] ∅)))).
  { vm_compute. left. reflexivity. }
  specialize (H Hin). discriminate H.
Qed.

(** The metadata upsert resets the flag as well. *)
Example metadataFirst_resets_uploaded :
  snd (metadataFirst
         {| req_URL := ""; req_Filename := "";
            req_MetaJSON := Some (uploadedItem "a.mp4" "2024-01-01T00:00:00Z");
            req_UniqueIDLookup := "" |}
         [uploadedItem "a.mp4" "2024-01-01T00:00:00Z"])
  = Some [setUploaded (uploadedItem "a.mp4" "2024-01-01T00:00:00Z") false].
Proof. vm_compute. reflexivity. Qed.

End OrchestratorFacts.
(** ** More on the slot allocator *)

Module SlotMore.
Import GoStrings GoTime GoTimeFacts SlotAllocator SlotSpec SlotFacts.

(** The body of [calculateNextSlot] once [lastTime] is presented in Taipei:
    it returns a slot instant after [lastTime], on the day of [lastTime] or
    on the next. *)
Lemma nextSlot_from (slots : list string) (clocks : list Z) (last : Time) :
  mapM clockOfSlot slots = Some clocks ->
  slots <> [] ->
  exists d c,
    scanSlots (Date (Year last) (Month last) (Day last) 0 0 0 0 Taipei) last slots
      (slot0 ← slots !! 0%nat;
       slotOn (AddDate (Date (Year last) (Month last) (Day last) 0 0 0 0 Taipei) 0 0 1)
              slot0)
    = Some (atClock d c)
    /\ List.In c clocks
    /\ (d = wallDay last \/ d = wallDay last + 1)
    /\ (location last = Taipei -> After (atClock d c) last = true).
Proof.
  intros Hmap Hne. apply mapM_Some in Hmap.
  rewrite baseDate_eq, AddDate_midnight.
  rewrite (scanSlots_find _ _ _ _ _ Hmap).
  rewrite (wallDay_atClock (wallDay last) 0) by (unfold secondsPerDay; lia).
  destruct (List.find _ clocks) as [c|] eqn:Hfind.
  - destruct (List.find_some _ _ Hfind) as [Hin Hafter].
    exists (wallDay last), c. split_and!; auto.
  - destruct Hmap as [|slot0 c0 slots' clocks' Hc0 Hrest]; [congruence|].
    cbn [lookup list_lookup mbind option_bind].
    rewrite (slotOn_valid _ _ _ Hc0).
    rewrite (wallDay_atClock (wallDay last + 1) 0) by (unfold secondsPerDay; lia).
    exists (wallDay last + 1), c0. split_and!; auto; [left; reflexivity|].
    intros Hloc.
    destruct (clockOfSlot_range _ _ Hc0) as (h & m & _ & -> & Hh & Hm).
    assert (Hlast : In last Taipei = last).
    { destruct last as [n l]. cbn in Hloc. subst l. reflexivity. }
    pose proof (taipeiDay_bounds last) as [_ Hlt].
    unfold taipeiDay in Hlt. rewrite Hlast in Hlt.
    unfold After. apply Z.ltb_lt.
    unfold atClock, nanosPerSecond, secondsPerDay in *. cbn [unixNano] in *. lia.
Qed.

(** X1. Fed with its own output the allocator moves strictly forward: for
    an instant after the zero time and a well-formed configuration, the
    next slot of the next slot exists and lies after it. *)
Theorem calculateNextSlot_iterates
    (slots : list string) (clocks : list Z) (now t : Time) :
  mapM clockOfSlot slots = Some clocks ->
  slots <> [] ->
  After t zeroTime = true ->
  exists r r',
    calculateNextSlot slots now t = Some r
    /\ calculateNextSlot slots now r = Some r'
    /\ After r t = true /\ After r' r = true.
Proof.
  intros Hmap Hne Hpos.
  assert (Hstep : forall u, After u zeroTime = true ->
            exists r, calculateNextSlot slots now u = Some r /\ After r u = true).
  { intros u Hu. unfold calculateNextSlot.
    assert (Hnz : IsZero u = false).
    { unfold IsZero, After in *. apply Z.ltb_lt in Hu. apply Z.eqb_neq. lia. }
    rewrite Hnz.
    destruct (nextSlot_from slots clocks (In u Taipei) Hmap Hne)
      as (d & c & Hr & _ & _ & Hafter).
    exists (atClock d c). split; [exact Hr | exact (Hafter eq_refl)]. }
  destruct (Hstep t Hpos) as (r & Hr & Hrt).
  assert (Hrpos : After r zeroTime = true).
  { unfold After in *. apply Z.ltb_lt in Hpos, Hrt. apply Z.ltb_lt. lia. }
  destruct (Hstep r Hrpos) as (r' & Hr' & Hrr).
  exists r, r'. split_and!; assumption.
Qed.

Lemma calculateNextSlot_iterates_witness :
  exists r r',
    calculateNextSlot defaultScheduleSlots zeroTime (Date 2024 3 10 23 0 0 0 Taipei)
      = Some r
    /\ calculateNextSlot defaultScheduleSlots zeroTime r = Some r'
    /\ After r' r = true.
Proof.
  destruct (calculateNextSlot_iterates defaultScheduleSlots
              [0; 28800; 43200; 57600] zeroTime (Date 2024 3 10 23 0 0 0 Taipei))
    as (r & r' & H1 & H2 & _ & H3).
  - reflexivity.
  - discriminate.
  - reflexivity.
  - exists r, r'. split_and!; assumption.
Defined.

(** X2. For the zero time the baseline is [time.Now()] as it is, in the
    machine's own zone. When that zone is Taipei the result is a slot
    instant after now. *)
Theorem calculateNextSlot_zero_uses_now
    (slots : list string) (clocks : list Z) (now : Time) :
  mapM clockOfSlot slots = Some clocks ->
  slots <> [] ->
  location now = Taipei ->
  exists d c,
    calculateNextSlot slots now zeroTime = Some (atClock d c)
    /\ List.In c clocks
    /\ After (atClock d c) now = true.
Proof.
  intros Hmap Hne Hloc. unfold calculateNextSlot.
  change (IsZero zeroTime) with true. cbv iota.
  destruct (nextSlot_from slots clocks now Hmap Hne) as (d & c & Hr & Hin & _ & Hafter).
  exists d, c. split_and!; auto.
Qed.

Lemma calculateNextSlot_zero_uses_now_witness :
  exists d c,
    calculateNextSlot defaultScheduleSlots (Date 2024 3 10 9 30 0 0 Taipei) zeroTime
      = Some (atClock d c)
    /\ After (atClock d c) (Date 2024 3 10 9 30 0 0 Taipei) = true.
Proof.
  destruct (calculateNextSlot_zero_uses_now defaultScheduleSlots
              [0; 28800; 43200; 57600] (Date 2024 3 10 9 30 0 0 Taipei))
    as (d & c & H1 & _ & H2).
  - reflexivity.
  - discriminate.
  - reflexivity.
  - exists d, c. split; assumption.
Defined.

(** In another zone the day is taken from the machine's calendar and the
    slots from Taipei's clock: at 23:30 of March 10 in UTC-8, which is
    15:30 of March 11 in Taipei, the result is 00:00 of March 11 in Taipei,
    before now. *)
Example calculateNextSlot_zero_other_zone :
  let now := Date 2024 3 10 23 30 0 0 (-8 * 3600) in
  calculateNextSlot defaultScheduleSlots now zeroTime
  = Some (Date 2024 3 11 0 0 0 0 Taipei)
  /\ After now (Date 2024 3 11 0 0 0 0 Taipei) = true.
Proof. split; vm_compute; reflexivity. Qed.

Lemma SplitByte_no_separator (s : string) (c : ascii) :
  Contains s (String c EmptyString) = false -> SplitByte s c = [s].
Proof.
  induction s as [|a s IH]; [reflexivity|].
  cbn [Contains HasPrefix SplitByte].
  rewrite (Ascii.eqb_sym a c).
  destruct (Ascii.eqb c a); [destruct s; discriminate|].
  intros H. rewrite (IH H). reflexivity.
Qed.

(** X3. An entry without a colon has no second piece: reading it panics,
    and so does [calculateNextSlot] for every time when such an entry
    stands first in the list. *)
Theorem calculateNextSlot_panics_without_colon
    (slot : string) (rest : list string) (now t : Time) :
  Contains slot ":" = false ->
  slotClock slot = None
  /\ calculateNextSlot (slot :: rest) now t = None.
Proof.
  intros H.
  assert (Hclock : slotClock slot = None).
  { unfold slotClock. rewrite (SplitByte_no_separator _ _ H). reflexivity. }
  split; [exact Hclock|].
  unfold calculateNextSlot. cbn [scanSlots]. unfold slotOn. rewrite Hclock.
  reflexivity.
Qed.

Lemma calculateNextSlot_panics_without_colon_witness :
  calculateNextSlot ["0800"; "12:00"] zeroTime (Date 2024 3 10 9 30 0 0 Taipei) = None.
Proof.
  apply (calculateNextSlot_panics_without_colon "0800" ["12:00"] zeroTime
           (Date 2024 3 10 9 30 0 0 Taipei)).
  reflexivity.
Defined.

(** X4. An entry written [hh:mm] with two digits each is read as that hour
    and minute, for every minute of the day. *)
Theorem slotClock_reads_hh_mm (h m : Z) :
  0 <= h < 24 -> 0 <= m < 60 ->
  slotClock (appendInt h 2 +:+ ":" +:+ appendInt m 2) = Some (h, m).
Proof.
  intros Hh Hm.
  assert (Hall : allFrom SlotChecks.readsBack 0 (Z.to_nat 1440) = true)
    by (vm_compute; reflexivity).
  pose proof (allFrom_spec _ _ _ Hall (h * 60 + m) ltac:(lia)) as H.
  unfold SlotChecks.readsBack in H.
  assert (E1 : (h * 60 + m) / 60 = h).
  { rewrite Z.add_comm, Z.div_add by lia. rewrite Z.div_small by lia. lia. }
  assert (E2 : (h * 60 + m) mod 60 = m).
  { rewrite Z.add_comm, Z.mod_add by lia. apply Z.mod_small. lia. }
  rewrite E1, E2 in H.
  destruct (slotClock _) as [[h' m']|]; [|discriminate].
  apply andb_prop in H as [H1 H2]. apply Z.eqb_eq in H1, H2. congruence.
Qed.

Lemma slotClock_reads_hh_mm_witness : slotClock "08:05" = Some (8, 5).
Proof.
  exact (slotClock_reads_hh_mm 8 5 ltac:(lia) ltac:(lia)).
Defined.

End SlotMore.

(** ** More on the task matcher *)

Module MatcherMore.
Import GoStrings Matcher MatcherSpec MatcherChecks MatcherFacts StoreHandlers.

Lemma smartLinks_completed (targetID targetKey : string) (items : list MailboxItem) :
  incl (smartLinks targetID targetKey items) (completedLinks items).
Proof.
  unfold completedLinks.
  induction items as [|x items IH]; [intros l []|].
  cbn [smartLinks List.filter].
  destruct (String.eqb (Kind x) sora_gen_complete); cbn [negb andb]; [|exact IH].
  destruct (nonEmpty (DownloadableURL (Draft x))).
  - rewrite andb_true_r. cbn [map].
    destruct (if nonEmpty targetID && Contains (DisplayStr x) targetID then true else _).
    + intros l [<- | Hl]; [left; reflexivity | right; apply IH, Hl].
    + intros l Hl. right. apply IH, Hl.
  - rewrite andb_false_r. exact IH.
Qed.

Lemma linkOfTask_completed (targetTaskID : string) (items : list MailboxItem) :
  incl (linkOfTask targetTaskID items) (completedLinks items).
Proof.
  unfold completedLinks.
  induction items as [|x items IH]; [intros l []|].
  cbn [linkOfTask List.filter].
  destruct (String.eqb (Kind x) sora_gen_complete); cbn [andb]; [|exact IH].
  destruct (nonEmpty (DownloadableURL (Draft x))).
  - rewrite andb_true_r. cbn [map].
    destruct (String.eqb (draft_TaskID (Draft x)) targetTaskID).
    + intros l [<- | []]. left. reflexivity.
    + intros l Hl. right. apply IH, Hl.
  - rewrite andb_false_r. exact IH.
Qed.

(** X5. The fallback returns the first completed record with a URL, in
    feed order, and nothing else. *)
Theorem firstValidLink_is_first_completed (items : list MailboxItem) :
  firstValidLink items = List.firstn 1 (completedLinks items).
Proof.
  unfold completedLinks.
  induction items as [|x items IH]; [reflexivity|].
  cbn [firstValidLink List.filter].
  destruct (String.eqb (Kind x) sora_gen_complete && nonEmpty (DownloadableURL (Draft x))).
  - reflexivity.
  - exact IH.
Qed.

Lemma extractLinksByTaskID_completed
    (jsonUnmarshal : string -> option (list MailboxItem))
    (jsonBody targetTaskID : string) (items : list MailboxItem) :
  jsonUnmarshal jsonBody = Some items ->
  incl (extractLinksByTaskID jsonUnmarshal jsonBody targetTaskID)
       (completedLinks items).
Proof.
  intros Hdec. unfold extractLinksByTaskID, extractLinksSmart. rewrite Hdec.
  destruct (reachesSmartMatch jsonBody targetTaskID items).
  - apply smartLinks_completed.
  - apply linkOfTask_completed.
Qed.

(** X6. Whatever tier answers, every link the poll handler returns is the
    non-empty URL of a completed record of the feed; the answer is empty
    only when the feed has no such record. *)
Theorem handleSoraPoll_links_of_completed
    (jsonUnmarshal : string -> option (list MailboxItem))
    (loggedIn : bool) (targetTaskId : string) (pendingData : option string)
    (mailData : string) (items : list MailboxItem) (links : list string) :
  jsonUnmarshal mailData = Some items ->
  handleSoraPoll jsonUnmarshal loggedIn targetTaskId pendingData (Some mailData)
    = PollDone links ->
  incl links (completedLinks items)
  /\ (links = [] <-> completedLinks items = []).
Proof.
  intros Hdec Hpoll. unfold handleSoraPoll in Hpoll.
  destruct (negb loggedIn); [discriminate|].
  destruct pendingData as [pending|]; [|discriminate].
  destruct (nonEmpty targetTaskId && Contains pending targetTaskId); [discriminate|].
  injection Hpoll as <-.
  pose proof (extractLinksByTaskID_completed jsonUnmarshal mailData targetTaskId
                items Hdec) as Hincl.
  destruct (extractLinksByTaskID jsonUnmarshal mailData targetTaskId) as [|l ls].
  - unfold extractFirstValidLink. rewrite Hdec, firstValidLink_is_first_completed.
    split.
    + destruct (completedLinks items) as [|l ls]; [intros x []|].
      intros x [<- | []]. left. reflexivity.
    + destruct (completedLinks items); split; intros H; try reflexivity; discriminate.
  - split; [exact Hincl|]. split; [discriminate|].
    intros Hnone. rewrite Hnone in Hincl. destruct (Hincl l (or_introl eq_refl)).
Qed.

Lemma handleSoraPoll_links_of_completed_witness :
  incl ["https://videos.example/files/aaa/raw"; "https://videos.example/files/bbb/raw"]
       (completedLinks twoTaskFeed).
Proof.
  apply (handleSoraPoll_links_of_completed (decoderOf twoTaskFeed) true "task_2"
           (Some "[]") (jsonFeed twoTaskFeed) twoTaskFeed).
  - vm_compute. reflexivity.
  - vm_compute. reflexivity.
Defined.

(** X7. [fetchSoraURLFromHistory] answers with a non-empty URL of a
    completed record whose display text contains the identifier, the first
    such record in feed order. *)
Theorem fetchSoraURLFromHistory_finds_display_id
    (jsonUnmarshal : string -> option (list MailboxItem))
    (loggedIn : bool) (mailBody : option string) (targetUniqueID url : string) :
  fetchSoraURLFromHistory jsonUnmarshal loggedIn mailBody targetUniqueID = Some url ->
  exists body items before item after,
    mailBody = Some body /\ jsonUnmarshal body = Some items
    /\ items = (before ++ item :: after)%list
    /\ Kind item = sora_gen_complete
    /\ isSubstring targetUniqueID (DisplayStr item)
    /\ DownloadableURL (Draft item) = url /\ url <> ""
    /\ linkOfDisplayID targetUniqueID before = None.
Proof.
  unfold fetchSoraURLFromHistory. intros H.
  destruct (negb loggedIn); [discriminate|].
  destruct mailBody as [body|]; [|discriminate]. cbn [mbind option_bind] in H.
  destruct (jsonUnmarshal body) as [items|] eqn:Hdec; [|discriminate].
  cbn [mbind option_bind] in H.
  exists body, items.
  assert (Hfind : exists before item after,
            items = (before ++ item :: after)%list
            /\ Kind item = sora_gen_complete
            /\ isSubstring targetUniqueID (DisplayStr item)
            /\ DownloadableURL (Draft item) = url /\ url <> ""
            /\ linkOfDisplayID targetUniqueID before = None).
  { clear Hdec. induction items as [|x items IH]; [discriminate|].
    cbn [linkOfDisplayID] in H.
    destruct (String.eqb (Kind x) sora_gen_complete) eqn:Hk; cbn [andb] in H.
    - destruct (Contains (DisplayStr x) targetUniqueID) eqn:Hc; cbn [andb] in H.
      + destruct (nonEmpty (DownloadableURL (Draft x))) eqn:Hu.
        * injection H as <-. exists [], x, items.
          apply String.eqb_eq in Hk. apply nonEmpty_true in Hu.
          apply isSubstring_Contains in Hc. split_and!; auto.
        * destruct (IH H) as (b & it & a & -> & H1 & H2 & H3 & H4 & H5).
          exists (x :: b), it, a. split_and!; auto.
          cbn [linkOfDisplayID]. rewrite Hk, Hc, Hu. exact H5.
      + destruct (IH H) as (b & it & a & -> & H1 & H2 & H3 & H4 & H5).
        exists (x :: b), it, a. split_and!; auto.
        cbn [linkOfDisplayID]. rewrite Hk, Hc. exact H5.
    - destruct (IH H) as (b & it & a & -> & H1 & H2 & H3 & H4 & H5).
      exists (x :: b), it, a. split_and!; auto.
      cbn [linkOfDisplayID]. rewrite Hk. exact H5. }
  destruct Hfind as (b & it & a & Hf).
  exists b, it, a. split; [reflexivity|]. split; [exact Hdec | exact Hf].
Qed.

Lemma fetchSoraURLFromHistory_finds_display_id_witness :
  exists item, List.In item twoTaskFeed
    /\ DownloadableURL (Draft item) = "https://videos.example/files/bbb/raw".
Proof.
  destruct (fetchSoraURLFromHistory_finds_display_id (decoderOf twoTaskFeed) true
              (Some (jsonFeed twoTaskFeed)) "skateboard"
              "https://videos.example/files/bbb/raw")
    as (body & items & b & it & a & Hb & Hdec & Hitems & _ & _ & Hurl & _).
  - vm_compute. reflexivity.
  - exists it. split; [|exact Hurl].
    injection Hb as <-.
    assert (Hd : decoderOf twoTaskFeed (jsonFeed twoTaskFeed) = Some twoTaskFeed)
      by (vm_compute; reflexivity).
    rewrite Hd in Hdec. injection Hdec as <-.
    rewrite Hitems. apply in_or_app. right. left. reflexivity.
Defined.

End MatcherMore.

(** ** [normalizePrompt] and the identifier pattern *)

Module KeyFacts.
Import GoStrings GoTime GoTimeFacts Matcher MatcherChecks MatcherFacts StoryID.

Lemma lowerAZ_isKeyByte (c : ascii) : isUpperAZ c = true -> isKeyByte (lowerAZ c) = true.
Proof. destruct c as [[] [] [] [] [] [] [] []]; vm_compute; congruence. Qed.

Lemma lowerAlnum_clean (s : string) : allBytes isKeyByte (lowerAlnum s) = true.
Proof.
  assert (H : forall n s, (String.length s <= n)%nat ->
                          allBytes isKeyByte (lowerAlnum s) = true).
  { clear s. induction n as [|n IH]; intros s Hlen.
    - destruct s; [reflexivity | cbn in Hlen; lia].
    - destruct s as [|c s]; [reflexivity|]. cbn [String.length] in Hlen.
      cbn [lowerAlnum].
      destruct (isLowerAZ c || isDigit c) eqn:Hkey.
      { cbn [allBytes]. unfold isKeyByte at 1. rewrite Hkey. apply IH. lia. }
      destruct (isUpperAZ c) eqn:Hup.
      { cbn [allBytes]. rewrite (lowerAZ_isKeyByte c Hup). apply IH. lia. }
      destruct s as [|c1 s1]; [reflexivity|]. cbn [String.length] in Hlen.
      destruct (Ascii.eqb c "196" && Ascii.eqb c1 "176").
      { cbn [allBytes]. change (isKeyByte "i") with true. apply IH. lia. }
      destruct s1 as [|c2 s2]; [apply IH; cbn; lia|]. cbn [String.length] in Hlen.
      destruct (Ascii.eqb c "226" && Ascii.eqb c1 "132" && Ascii.eqb c2 "170").
      { cbn [allBytes]. change (isKeyByte "k") with true. apply IH. lia. }
      apply IH. cbn. lia. }
  apply (H (String.length s)). lia.
Qed.

(** A text of key bytes is its own normal form. *)
Lemma lowerAlnum_fixed (s : string) :
  allBytes isKeyByte s = true -> lowerAlnum s = s.
Proof.
  induction s as [|c s IH]; [reflexivity|].
  cbn [allBytes]. intros H. apply andb_prop in H as [Hc Hs].
  cbn [lowerAlnum]. unfold isKeyByte in Hc. rewrite Hc, (IH Hs). reflexivity.
Qed.

Lemma firstBytes_clean (p : ascii -> bool) (n : nat) (s : string) :
  allBytes p s = true -> allBytes p (firstBytes n s) = true.
Proof.
  revert s. induction n as [|n IH]; intros s H; [reflexivity|].
  destruct s as [|c s]; [reflexivity|]. cbn [firstBytes allBytes] in *.
  apply andb_prop in H as [Hc Hs]. rewrite Hc, (IH s Hs). reflexivity.
Qed.

Lemma firstBytes_length (n : nat) (s : string) :
  (String.length (firstBytes n s) <= n)%nat.
Proof.
  revert s. induction n as [|n IH]; intros s; [cbn; lia|].
  destruct s as [|c s]; [cbn; lia|]. cbn [firstBytes String.length].
  specialize (IH s). lia.
Qed.

(** X8. A normalized prompt has at most 30 bytes, all of them lower-case
    ASCII letters or digits, and normalizing it again changes nothing. *)
Theorem normalizePrompt_normal_form (s : string) :
  (String.length (normalizePrompt s) <= 30)%nat
  /\ allBytes isKeyByte (normalizePrompt s) = true
  /\ normalizePrompt (normalizePrompt s) = normalizePrompt s.
Proof.
  assert (Hlen : (String.length (normalizePrompt s) <= 30)%nat).
  { unfold normalizePrompt.
    destruct (30 <? String.length (lowerAlnum s))%nat eqn:E.
    - apply firstBytes_length.
    - apply Nat.ltb_ge in E. exact E. }
  assert (Hclean : allBytes isKeyByte (normalizePrompt s) = true).
  { unfold normalizePrompt.
    destruct (30 <? String.length (lowerAlnum s))%nat.
    - apply firstBytes_clean, lowerAlnum_clean.
    - apply lowerAlnum_clean. }
  split_and!; [exact Hlen | exact Hclean |].
  unfold normalizePrompt at 1. rewrite (lowerAlnum_fixed _ Hclean).
  assert (E : (30 <? String.length (normalizePrompt s))%nat = false)
    by (apply Nat.ltb_ge; exact Hlen).
  rewrite E. reflexivity.
Qed.

End KeyFacts.

(** ** The generator's identifier under the matcher's pattern *)

Module StoryIDFacts.
Import GoStrings GoTime GoTimeFacts Matcher MatcherChecks MatcherFacts StoryID.

Lemma allBytes_rev_app (p : ascii -> bool) (s1 s2 : string) :
  allBytes p (String.rev_app s1 s2) = allBytes p s1 && allBytes p s2.
Proof.
  revert s2. induction s1 as [|c s1 IH]; intros s2; [reflexivity|].
  cbn [String.rev_app allBytes]. rewrite IH. cbn [allBytes].
  destruct (p c), (allBytes p s1), (allBytes p s2); reflexivity.
Qed.

Lemma rev_app_nonempty (s1 s2 : string) :
  s1 <> EmptyString \/ s2 <> EmptyString -> String.rev_app s1 s2 <> EmptyString.
Proof.
  revert s2. induction s1 as [|c s1 IH]; intros s2 H.
  - destruct H as [H|H]; [congruence | exact H].
  - cbn [String.rev_app]. apply IH. right. discriminate.
Qed.

Lemma isDigit_decimal (k : Z) : 0 <= k < 10 ->
  isDigit (ascii_of_nat (48 + Z.to_nat k)) = true.
Proof.
  intros Hk. unfold isDigit. rewrite nat_ascii_embedding by lia.
  apply andb_true_intro; split; apply Nat.leb_le; lia.
Qed.

Lemma decimalRev_digits (fuel width : nat) (n : Z) :
  0 <= n -> allBytes isDigit (decimalRev fuel width n) = true.
Proof.
  revert width n. induction fuel as [|fuel IH]; intros width n Hn; [reflexivity|].
  cbn [decimalRev]. destruct ((n =? 0) && Nat.eqb width 0); [reflexivity|].
  cbn [allBytes]. rewrite isDigit_decimal by (apply Z.mod_pos_bound; lia).
  apply IH. apply Z.div_pos; lia.
Qed.

(** A non-negative number is written as a non-empty run of digits. *)
Lemma appendInt_digits (n : Z) (width : nat) :
  0 <= n ->
  allBytes isDigit (appendInt n width) = true /\ appendInt n width <> EmptyString.
Proof.
  intros Hn. unfold appendInt.
  assert (E : (n <? 0) = false) by lia. rewrite E.
  unfold String.rev. split.
  - rewrite allBytes_rev_app. rewrite decimalRev_digits by lia. reflexivity.
  - apply rev_app_nonempty. left. cbn [Nat.add decimalRev].
    destruct (Nat.max width 1) eqn:Hw; [lia|].
    rewrite andb_false_r. discriminate.
Qed.

Lemma allBytes_app (p : ascii -> bool) (s1 s2 : string) :
  allBytes p (s1 +:+ s2) = allBytes p s1 && allBytes p s2.
Proof.
  induction s1 as [|c s1 IH]; [reflexivity|].
  rewrite app_cons. cbn [allBytes]. rewrite IH. apply andb_assoc.
Qed.

Lemma digitRun_stops (ds rest : string) (c : ascii) :
  allBytes isDigit ds = true -> isDigit c = false ->
  digitRun (ds +:+ String c rest) = (ds, String c rest).
Proof.
  intros Hds Hc. induction ds as [|d ds IH].
  - rewrite app_nil. cbn [digitRun]. rewrite Hc. reflexivity.
  - cbn [allBytes] in Hds. apply andb_prop in Hds as [Hd Hds].
    rewrite app_cons. cbn [digitRun]. rewrite Hd, (IH Hds). reflexivity.
Qed.

Lemma string_app_assoc (a b c : string) : (a +:+ b) +:+ c = a +:+ (b +:+ c).
Proof.
  induction a as [|x a IH]; [rewrite !app_nil; reflexivity|].
  rewrite !app_cons, IH. reflexivity.
Qed.

Lemma civilFromDays_day z : 1 <= snd (civilFromDays z).
Proof.
  unfold civilFromDays; cbn [fst snd].
  set (era := (z + 719468) / 146097).
  set (doe := z + 719468 - era * 146097).
  set (yoe := (doe - doe / 1460 + doe / 36524 - doe / 146096) / 365).
  set (doy := doe - (365 * yoe + yoe / 4 - yoe / 100)).
  set (mp := (5 * doy + 2) / 153).
  pose proof (Z.div_mod (5 * doy + 2) 153 ltac:(lia)) as H1.
  pose proof (Z.mod_pos_bound (5 * doy + 2) 153 ltac:(lia)) as H2.
  fold mp in H1.
  assert (H3 : (153 * mp + 2) / 5 <= doy).
  { apply Z.lt_succ_r. apply Z.div_lt_upper_bound; lia. }
  lia.
Qed.

(** X9. The generator writes its identifier as [S2_date_hh_mm_ss]; the
    pattern the matcher and the sync search with has three digit groups, so
    what they find in a text that starts with the identifier is the
    identifier without its seconds. *)
Theorem FindID_fixedID_drops_seconds (now : Time) (rest : string) :
  0 <= Year now ->
  FindID (fixedID now +:+ rest)
  = "S2_" +:+ Format20060102 now +:+ "_" +:+ appendInt (Hour now) 2
    +:+ "_" +:+ appendInt (Minute now) 2.
Proof.
  intros Hy.
  pose proof (civilFromDays_month (wallDay now)) as Hm.
  pose proof (civilFromDays_day (wallDay now)) as Hd.
  assert (Hdate : allBytes isDigit (Format20060102 now) = true
                  /\ Format20060102 now <> EmptyString).
  { unfold Format20060102.
    destruct (appendInt_digits (Year now) 4 Hy) as [Y1 Y2].
    destruct (appendInt_digits (Month now) 2) as [M1 _]; [unfold Month; lia|].
    destruct (appendInt_digits (Day now) 2) as [D1 _]; [unfold Day; lia|].
    split.
    - rewrite !allBytes_app, Y1, M1, D1. reflexivity.
    - destruct (appendInt (Year now) 4); [congruence|]. rewrite app_cons. discriminate. }
  destruct Hdate as [Hdate Hdate'].
  destruct (appendInt_digits (Hour now) 2) as [H1 H2].
  { unfold Hour. apply Z.div_pos; [|lia].
    apply Z.mod_pos_bound. unfold secondsPerDay. lia. }
  destruct (appendInt_digits (Minute now) 2) as [Mi1 Mi2].
  { unfold Minute. apply Z.div_pos; [|lia]. apply Z.mod_pos_bound. lia. }
  destruct (appendInt_digits (Second now) 2) as [S1 S2].
  { unfold Second. apply Z.mod_pos_bound. lia. }
  unfold fixedID, Format15_04_05.
  set (date := Format20060102 now) in *.
  set (hh := appendInt (Hour now) 2) in *.
  set (mm := appendInt (Minute now) 2) in *.
  set (ss := appendInt (Second now) 2) in *.
  rewrite !string_app_assoc. rewrite !app_cons, !app_nil.
  cbn [FindID matchIDHere].
  rewrite (digitRun_stops date _ "_" Hdate eq_refl).
  destruct date as [|d0 date']; [congruence|].
  rewrite (digitRun_stops hh _ "_" H1 eq_refl).
  destruct hh as [|h0 hh']; [congruence|].
  rewrite (digitRun_stops mm _ "_" Mi1 eq_refl).
  destruct mm as [|m0 mm']; [congruence|].
  rewrite !app_cons, !app_nil. reflexivity.
Qed.

Lemma FindID_fixedID_drops_seconds_witness :
  FindID (fixedID (Date 2025 11 27 14 30 5 0 Taipei) +:+ " A cat bakes bread")
  = "S2_20251127_14_30".
Proof.
  rewrite (FindID_fixedID_drops_seconds (Date 2025 11 27 14 30 5 0 Taipei)
             " A cat bakes bread"); [|vm_compute; discriminate].
  vm_compute. reflexivity.
Defined.

End StoryIDFacts.

(** ** [handleVideoDelete] and [handleStatusAPI] *)

Module StoreHandlersFacts.
Import GoStrings GoTime SlotAllocator Matcher Store Orchestrator StoreHandlers.
Import OrchestratorSpec StatusChecks.

Lemma dropFileName_filter (filename : string) (videos : list VideoConfig) :
  dropFileName filename videos
  = (List.filter (fun v => negb (String.eqb (FileName v) filename)) videos,
     bool_decide (filename ∈ FileName <$> videos)).
Proof.
  induction videos as [|v rest IH]; [reflexivity|].
  cbn [dropFileName List.filter]. rewrite IH. rewrite fmap_cons.
  destruct (String.eqb (FileName v) filename) eqn:E; cbn [negb].
  - apply String.eqb_eq in E. f_equal. symmetry. apply bool_decide_eq_true.
    rewrite E. set_solver.
  - apply String.eqb_neq in E. f_equal. apply bool_decide_ext. set_solver.
Qed.

(** X10. A delete request writes the store exactly when it is a POST with a
    non-empty file name that some entry carries; what it writes is the
    store without every entry of that name, the others in their order. *)
Theorem handleVideoDelete_removes_every_entry
    (method filename : string) (loaded : list VideoConfig) :
  (forall saved,
     snd (handleVideoDelete method filename loaded) = Some saved <->
     method = "POST" /\ filename <> "" /\ filename ∈ FileName <$> loaded
     /\ saved = List.filter (fun v => negb (String.eqb (FileName v) filename)) loaded)
  /\ filename ∉ FileName <$>
       List.filter (fun v => negb (String.eqb (FileName v) filename)) loaded.
Proof.
  split.
  - intros saved. unfold handleVideoDelete. rewrite dropFileName_filter.
    destruct (String.eqb method "POST") eqn:Em; cbn [negb].
    2:{ apply String.eqb_neq in Em. cbn [snd]. split; [discriminate|]. tauto. }
    apply String.eqb_eq in Em.
    destruct (String.eqb filename "") eqn:Ef.
    { apply String.eqb_eq in Ef. cbn [snd]. split; [discriminate|]. tauto. }
    apply String.eqb_neq in Ef.
    destruct (bool_decide (filename ∈ FileName <$> loaded)) eqn:Ei; cbn [snd].
    + apply bool_decide_eq_true in Ei. split.
      * intros [= <-]. tauto.
      * intros (_ & _ & _ & ->). reflexivity.
    + apply bool_decide_eq_false in Ei. split; [discriminate|]. tauto.
  - intros Hin. apply list_elem_of_fmap in Hin as (v & Hv & Hin).
    apply list_elem_of_In, List.filter_In in Hin as [_ Hin].
    apply negb_true_iff, String.eqb_neq in Hin. congruence.
Qed.

Lemma filter_pending_split (videos : list VideoConfig) (p : VideoConfig -> bool) :
  length (List.filter (fun v => negb (Uploaded v)) videos)
  = (length (List.filter (fun v => negb (Uploaded v) && negb (p v)) videos)
     + length (List.filter (fun v => negb (Uploaded v) && p v) videos))%nat.
Proof.
  induction videos as [|v l IHl]; [reflexivity|]. cbn [List.filter].
  destruct (Uploaded v), (p v); cbn [negb andb length]; rewrite IHl; lia.
Qed.

Section StatusFacts.

Variable ScheduleSlots : list string.
Variable now : Time.
Variable parseRFC3339 : string -> option Time.

Lemma statusStep_clock (files : gset string) (acc : StatusAcc) (v : VideoConfig) :
  lastScheduledTime (statusStep parseRFC3339 files acc v)
  = if nonEmpty (PublishAt v) && negb (IgnoreCalc v) then
      match parseRFC3339 (PublishAt v) with
      | Some t => if After t (lastScheduledTime acc) then t else lastScheduledTime acc
      | None => lastScheduledTime acc
      end
    else lastScheduledTime acc.
Proof.
  unfold statusStep.
  destruct (negb (Uploaded v)), (IsManual v),
    (nonEmpty (PublishAt v) && negb (IgnoreCalc v)); cbn; try reflexivity;
    destruct (parseRFC3339 (PublishAt v)) as [t|]; cbn; try reflexivity;
    destruct (After t (lastScheduledTime acc)); reflexivity.
Qed.

Lemma statusStep_lists (files : gset string) (acc : StatusAcc) (v : VideoConfig) :
  let acc' := statusStep parseRFC3339 files acc v in
  let entry :=
    {| vs_UniqueID := UniqueID v; vs_FileName := FileName v; vs_Title := Title v;
       vs_Status := if bool_decide (FileName v ∈ files)
                    then StatusAvailable else StatusMissing |} in
  pendingCount acc' = pendingCount acc + (if Uploaded v then 0 else 1)
  /\ statusList acc' = (statusList acc
                        ++ (if negb (Uploaded v) && negb (IsManual v) then [entry] else []))%list
  /\ manualList acc' = (manualList acc
                        ++ (if negb (Uploaded v) && IsManual v then [entry] else []))%list.
Proof.
  unfold statusStep.
  destruct (Uploaded v), (IsManual v),
    (nonEmpty (PublishAt v) && negb (IgnoreCalc v)); cbn;
    try destruct (parseRFC3339 (PublishAt v)) as [t|]; cbn;
    try destruct (After t (lastScheduledTime acc)); cbn;
    rewrite ?app_nil_r; split_and!; try reflexivity; lia.
Qed.

Lemma statusStep_fold (files : gset string) (videos : list VideoConfig) :
  forall acc,
  let acc' := fold_left (statusStep parseRFC3339 files) videos acc in
  pendingCount acc'
  = pendingCount acc
    + Z.of_nat (length (List.filter (fun v => negb (Uploaded v)) videos))
  /\ vs_FileName <$> statusList acc'
     = ((vs_FileName <$> statusList acc)
        ++ (FileName <$> List.filter (fun v => negb (Uploaded v) && negb (IsManual v))
                           videos))%list
  /\ vs_FileName <$> manualList acc'
     = ((vs_FileName <$> manualList acc)
        ++ (FileName <$> List.filter (fun v => negb (Uploaded v) && IsManual v)
                           videos))%list
  /\ (Forall (statusTellsFile files) (statusList acc ++ manualList acc) ->
      Forall (statusTellsFile files) (statusList acc' ++ manualList acc')).
Proof.
  induction videos as [|v rest IH]; intros acc.
  - cbn. rewrite !app_nil_r. split_and!; try reflexivity; [lia | tauto].
  - cbn [fold_left]. specialize (IH (statusStep parseRFC3339 files acc v)).
    cbv zeta in IH. destruct IH as (IH1 & IH2 & IH3 & IH4).
    destruct (statusStep_lists files acc v) as (S1 & S2 & S3).
    cbv zeta. rewrite IH1, IH2, IH3, S1, S2, S3. cbn [List.filter].
    assert (Hentry : statusTellsFile files
              {| vs_UniqueID := UniqueID v; vs_FileName := FileName v;
                 vs_Title := Title v;
                 vs_Status := if bool_decide (FileName v ∈ files)
                              then StatusAvailable else StatusMissing |}).
    { unfold statusTellsFile. cbn.
      destruct (bool_decide (FileName v ∈ files)) eqn:E.
      - apply bool_decide_eq_true in E. tauto.
      - apply bool_decide_eq_false in E. split; [discriminate | tauto]. }
    split_and!.
    + destruct (Uploaded v); cbn [negb length]; lia.
    + destruct (Uploaded v), (IsManual v); cbn [negb andb];
        rewrite ?fmap_app, ?app_nil_r, <- ?app_assoc; reflexivity.
    + destruct (Uploaded v), (IsManual v); cbn [negb andb];
        rewrite ?fmap_app, ?app_nil_r, <- ?app_assoc; reflexivity.
    + intros Hall. apply IH4. rewrite S2, S3.
      rewrite !Forall_app in *. destruct Hall as [Ha Hb].
      destruct (Uploaded v), (IsManual v); cbn [negb andb];
        split_and!; auto using Forall_nil_2, Forall_singleton.
      all: apply Forall_singleton; exact Hentry.
Qed.

(** X11. The status page counts and lists exactly the items that are not
    uploaded: the automatic ones and the manual ones in two lists, each in
    store order, and an entry reads [Available] exactly when its file is in
    the working directory. *)
Theorem handleStatusAPI_lists_pending
    (loaded : list VideoConfig) (files : gset string) (resp : StatusAPIResponse) :
  handleStatusAPI ScheduleSlots now parseRFC3339 loaded files = Some resp ->
  PendingCount resp = Z.of_nat (length (StatusData resp) + length (ManualData resp))
  /\ PendingCount resp
     = Z.of_nat (length (List.filter (fun v => negb (Uploaded v)) loaded))
  /\ vs_FileName <$> StatusData resp
     = FileName <$> List.filter (fun v => negb (Uploaded v) && negb (IsManual v)) loaded
  /\ vs_FileName <$> ManualData resp
     = FileName <$> List.filter (fun v => negb (Uploaded v) && IsManual v) loaded
  /\ forall e, e ∈ (StatusData resp ++ ManualData resp)%list ->
       (vs_Status e = StatusAvailable <-> vs_FileName e ∈ files).
Proof.
  unfold handleStatusAPI. intros H.
  destruct (statusStep_fold files loaded (mkAcc 0 [] [] zeroTime)) as (F1 & F2 & F3 & F4).
  cbv zeta in F1, F2, F3, F4. cbn [pendingCount statusList manualList] in F1, F2, F3, F4.
  set (acc := fold_left (statusStep parseRFC3339 files) loaded (mkAcc 0 [] [] zeroTime)) in *.
  destruct (calculateNextSlot ScheduleSlots now (lastScheduledTime acc)) as [t|];
    [|discriminate].
  cbn in H. injection H as <-. cbn [PendingCount StatusData ManualData].
  pose proof (filter_pending_split loaded) as Hlen.
  split_and!.
  - rewrite F1, (Hlen IsManual).
    rewrite <- (length_fmap vs_FileName (statusList acc)), F2.
    rewrite <- (length_fmap vs_FileName (manualList acc)), F3.
    cbn [fmap list_fmap app]. rewrite !length_fmap. lia.
  - rewrite F1. lia.
  - rewrite F2. reflexivity.
  - rewrite F3. reflexivity.
  - intros e He. specialize (F4 (Forall_nil_2 _)).
    rewrite List.Forall_forall in F4. apply F4. apply list_elem_of_In. exact He.
Qed.

Lemma localMax_fold (files : gset string) (videos : list VideoConfig) :
  forall acc,
    unixNano zeroTime <= unixNano (lastScheduledTime acc) ->
    lastScheduledTime (fold_left (statusStep parseRFC3339 files) videos acc)
    = localMax parseRFC3339 videos (lastScheduledTime acc)
    /\ unixNano zeroTime
       <= unixNano (localMax parseRFC3339 videos (lastScheduledTime acc)).
Proof.
  induction videos as [|v rest IH]; intros acc Hacc; [split; [reflexivity | exact Hacc]|].
  cbn [fold_left localMax].
  pose proof (statusStep_clock files acc v) as Hstep.
  destruct (nonEmpty (PublishAt v) && negb (IgnoreCalc v)).
  - destruct (parseRFC3339 (PublishAt v)) as [t|]; cbn [default]; unfold id.
    + destruct (After t (lastScheduledTime acc)) eqn:E.
      * destruct (IH (statusStep parseRFC3339 files acc v)) as [I1 I2].
        { rewrite Hstep. unfold After in E. lia. }
        rewrite Hstep in I1, I2. cbv iota. split; assumption.
      * destruct (IH (statusStep parseRFC3339 files acc v)) as [I1 I2].
        { rewrite Hstep. exact Hacc. }
        rewrite Hstep in I1, I2. cbv iota. split; assumption.
    + assert (E : After zeroTime (lastScheduledTime acc) = false)
        by (unfold After; lia).
      rewrite E.
      destruct (IH (statusStep parseRFC3339 files acc v)) as [I1 I2].
      { rewrite Hstep. exact Hacc. }
      rewrite Hstep in I1, I2. split; assumption.
  - destruct (IH (statusStep parseRFC3339 files acc v)) as [I1 I2].
    { rewrite Hstep. exact Hacc. }
    rewrite Hstep in I1, I2. split; assumption.
Qed.

Lemma calculateNextSlot_zero_instant (t : Time) :
  IsZero t = true ->
  calculateNextSlot ScheduleSlots now t = calculateNextSlot ScheduleSlots now zeroTime.
Proof.
  intros H. unfold calculateNextSlot. rewrite H.
  change (IsZero zeroTime) with true. reflexivity.
Qed.

(** X12. The next slot the status page shows is the clock a run without a
    start date starts with, when the hosting service reports no scheduled
    video: both take the latest [PublishAt] of the store that counts as
    their baseline. *)
Theorem handleStatusAPI_shows_run_start
    (loaded : list VideoConfig) (files : gset string) :
  NextSchedule <$> handleStatusAPI ScheduleSlots now parseRFC3339 loaded files
  = (fun t => FormatMinute (In t Taipei))
      <$> startClock ScheduleSlots now parseRFC3339 zeroTime zeroTime loaded.
Proof.
  unfold handleStatusAPI, startClock.
  destruct (localMax_fold files loaded (mkAcc 0 [] [] zeroTime)) as [L1 L2];
    [cbn; lia|].
  cbn [lastScheduledTime] in L1, L2. rewrite L1.
  change (IsZero zeroTime) with true. cbv iota.
  set (lm := localMax parseRFC3339 loaded zeroTime) in *.
  assert (E : calculateNextSlot ScheduleSlots now
                (if After lm zeroTime then lm else zeroTime)
              = calculateNextSlot ScheduleSlots now lm).
  { destruct (After lm zeroTime) eqn:Ea; [reflexivity|].
    symmetry. apply calculateNextSlot_zero_instant.
    unfold IsZero, After in *. lia. }
  rewrite E.
  destruct (calculateNextSlot ScheduleSlots now lm); reflexivity.
Qed.

End StatusFacts.

Lemma handleVideoDelete_example :
  handleVideoDelete "POST" "a.mp4"
    [autoItem "a.mp4"; autoItem "b.mp4"; uploadedItem "a.mp4" ""]
  = (DeleteOK, Some [autoItem "b.mp4"]).
Proof. reflexivity. Qed.

Lemma handleStatusAPI_lists_pending_witness :
  match handleStatusAPI defaultScheduleSlots (Date 2024 3 10 9 30 0 0 Taipei) noStamp
          [uploadedItem "a.mp4" ""; autoItem "b.mp4"; autoItem "c.mp4"] {["b.mp4"]} with
  | Some resp => PendingCount resp = 2
  | None => False
  end.
Proof.
  destruct (handleStatusAPI defaultScheduleSlots (Date 2024 3 10 9 30 0 0 Taipei) noStamp
              [uploadedItem "a.mp4" ""; autoItem "b.mp4"; autoItem "c.mp4"] {["b.mp4"]})
    as [resp|] eqn:E; [|vm_compute in E; discriminate].
  destruct (handleStatusAPI_lists_pending defaultScheduleSlots
              (Date 2024 3 10 9 30 0 0 Taipei) noStamp _ _ resp E) as (_ & -> & _).
  reflexivity.
Defined.

End StoreHandlersFacts.

(** ** More on the metadata upsert *)

Module UpsertMore.
Import GoStrings Matcher MatcherFacts Store StoreSpec UpsertFacts.

Ltac empty_cases :=
  unfold nonEmpty in *;
  repeat match goal with
         | |- context [String.eqb ?s EmptyString] =>
             let E := fresh "E" in
             destruct (String.eqb s EmptyString) eqn:E;
             [apply String.eqb_eq in E | apply String.eqb_neq in E];
             cbn [negb andb orb] in *
         end.

Lemma incoming_fields (req : DownloadRequest) (meta : VideoConfig) :
  let new := snd (incoming req meta) in
  UniqueID new = UniqueID meta
  /\ Uploaded new = false
  /\ IsManual new = false
  /\ FileName new = (if nonEmpty (FileName meta) then FileName meta else req_Filename req)
  /\ fst (incoming req meta) = FileName new
  /\ DownloadURL new
     = (if nonEmpty (req_URL req) then req_URL req else DownloadURL meta).
Proof.
  unfold incoming.
  destruct (nonEmpty (FileName meta)) eqn:E1;
    [|destruct (nonEmpty (req_Filename req)) eqn:E2];
    destruct (nonEmpty (req_URL req)); cbn; split_and!; try reflexivity.
  all: try (rewrite E1; reflexivity).
  all: unfold nonEmpty in *; apply negb_false_iff, String.eqb_eq in E1, E2; congruence.
Qed.

Lemma mergeDownloadURL_fields (v newVideo : VideoConfig) (targetURL : string) :
  let w := mergeDownloadURL v newVideo targetURL in
  DownloadURL w
  = (if nonEmpty targetURL then targetURL
     else if nonEmpty (DownloadURL newVideo) then DownloadURL newVideo
          else DownloadURL v)
  /\ Uploaded w = Uploaded newVideo
  /\ IsManual w = IsManual newVideo
  /\ UniqueID w = UniqueID newVideo
  /\ FileName w = FileName newVideo.
Proof.
  unfold mergeDownloadURL. destruct newVideo; cbn.
  empty_cases; cbn; split_and!; congruence.
Qed.

Lemma findSameItem_none (newVideo : VideoConfig) (currentVideos : list VideoConfig) :
  forall base,
    findSameItem base newVideo currentVideos = None <->
    Forall (fun v => sameItem v newVideo = false) currentVideos.
Proof.
  induction currentVideos as [|v rest IH]; intros base; cbn [findSameItem].
  - split; [constructor | reflexivity].
  - destruct (sameItem v newVideo) eqn:E.
    + split; [discriminate|]. intros H. apply Forall_cons in H as [H _]. congruence.
    + rewrite IH. split; [intros H; constructor; assumption|].
      intros H. apply Forall_cons in H as [_ H]. exact H.
Qed.

Lemma findSameItem_some (newVideo : VideoConfig) (currentVideos : list VideoConfig) :
  forall base j v,
    findSameItem base newVideo currentVideos = Some (j, v) ->
    exists i, j = (base + i)%nat /\ currentVideos !! i = Some v
              /\ sameItem v newVideo = true
              /\ Forall (fun u => sameItem u newVideo = false) (take i currentVideos).
Proof.
  induction currentVideos as [|x rest IH]; intros base j v H; [discriminate|].
  cbn [findSameItem] in H. destruct (sameItem x newVideo) eqn:E.
  - injection H as <- <-. exists 0%nat. split_and!; [lia | reflexivity | exact E | constructor].
  - destruct (IH _ _ _ H) as (i & -> & Hi & Hv & Hbefore).
    exists (S i). split_and!; [lia | exact Hi | exact Hv |].
    cbn [take]. constructor; assumption.
Qed.

(** X13. An incoming item that matches no entry of the store on either key
    is appended: the store is saved with the item as its new last entry,
    pending and automatic, and every entry before it as it was. *)
Theorem metadataFirst_appends_unmatched
    (req : DownloadRequest) (meta : VideoConfig) (currentVideos : list VideoConfig) :
  req_MetaJSON req = Some meta ->
  Forall (fun v => sameItem v (snd (incoming req meta)) = false) currentVideos ->
  exists new,
    snd (metadataFirst req currentVideos) = Some (currentVideos ++ [new])%list
    /\ UniqueID new = UniqueID meta
    /\ FileName new = (if nonEmpty (FileName meta) then FileName meta
                       else req_Filename req)
    /\ Uploaded new = false /\ IsManual new = false.
Proof.
  intros Hmeta Hnone.
  destruct (incoming_fields req meta) as (F1 & F2 & F3 & F4 & F5 & F6).
  cbv zeta in *.
  apply (findSameItem_none _ _ 0%nat) in Hnone.
  exists (snd (incoming req meta)).
  unfold metadataFirst. rewrite Hmeta.
  destruct (incoming req meta) as [targetFilename newVideo]. cbn [snd fst] in *.
  rewrite Hnone. cbn [snd]. split_and!; auto.
Qed.

Lemma metadataFirst_appends_unmatched_witness :
  exists new,
    snd (metadataFirst (metaRequest (pendingItem "c" "h.mp4"))
           [pendingItem "a" "f.mp4"; pendingItem "b" "g.mp4"])
    = Some ([pendingItem "a" "f.mp4"; pendingItem "b" "g.mp4"] ++ [new])%list
    /\ UniqueID new = "c".
Proof.
  destruct (metadataFirst_appends_unmatched
              (metaRequest (pendingItem "c" "h.mp4")) (pendingItem "c" "h.mp4")
              [pendingItem "a" "f.mp4"; pendingItem "b" "g.mp4"] eq_refl)
    as (new & Hsaved & Hid & _).
  - repeat constructor.
  - exists new. split; [exact Hsaved | exact Hid].
Defined.


(** X14. The link the handler goes on with, and the link of the saved
    item, is the first that is not empty of: the URL of the request, the
    [DownloadURL] of the incoming metadata, the [DownloadURL] of the entry
    that is overwritten. The saved item is pending and automatic whatever
    the metadata said. *)
Theorem metadataFirst_link_precedence
    (req : DownloadRequest) (meta : VideoConfig) (currentVideos : list VideoConfig) :
  req_MetaJSON req = Some meta ->
  let stored :=
    match findSameItem 0 (snd (incoming req meta)) currentVideos with
    | Some (_, v) => DownloadURL v
    | None => EmptyString
    end in
  let link :=
    if nonEmpty (req_URL req) then req_URL req
    else if nonEmpty (DownloadURL meta) then DownloadURL meta
    else stored in
  snd (fst (metadataFirst req currentVideos)) = link
  /\ exists saved j w,
       snd (metadataFirst req currentVideos) = Some saved
       /\ saved !! j = Some w
       /\ DownloadURL w = link
       /\ Uploaded w = false /\ IsManual w = false
       /\ UniqueID w = UniqueID meta
       /\ FileName w = fst (fst (metadataFirst req currentVideos)).
Proof.
  intros Hmeta stored link.
  destruct (incoming_fields req meta) as (F1 & F2 & F3 & F4 & F5 & F6).
  cbv zeta in *. subst stored link.
  unfold metadataFirst. rewrite Hmeta.
  destruct (incoming req meta) as [targetFilename newVideo]. cbn [snd fst] in *.
  destruct (findSameItem 0 newVideo currentVideos) as [[j v]|] eqn:Hfind.
  - destruct (findSameItem_some _ _ _ _ _ Hfind) as (i & -> & Hi & _).
    cbn [Nat.add fst snd].
    assert (Hw : (<[i := mergeDownloadURL v newVideo (req_URL req)]> currentVideos) !! i
                 = Some (mergeDownloadURL v newVideo (req_URL req))).
    { apply list_lookup_insert_eq. apply lookup_lt_Some in Hi. exact Hi. }
    destruct (mergeDownloadURL_fields v newVideo (req_URL req)) as (M1 & M2 & M3 & M4 & M5).
    rewrite F2 in M2. rewrite F3 in M3. rewrite F1 in M4. rewrite <- F5 in M5.
    rewrite F6 in M1.
    split.
    + rewrite M1. clear. empty_cases; congruence.
    + eexists _, i, _. split_and!; [reflexivity | exact Hw | | | | |]; try assumption.
      rewrite M1. clear. empty_cases; congruence.
  - cbn [fst snd].
    split.
    + rewrite F6. clear. empty_cases; congruence.
    + exists (currentVideos ++ [newVideo])%list, (length currentVideos), newVideo.
      split_and!; try assumption; try reflexivity.
      * rewrite lookup_app_r by lia. rewrite Nat.sub_diag. reflexivity.
      * rewrite F6. clear. empty_cases; congruence.
      * symmetry. exact F5.
Qed.

Lemma metadataFirst_link_precedence_witness :
  snd (fst (metadataFirst
              {| req_URL := ""; req_Filename := "f.mp4";
                 req_MetaJSON := Some (pendingItem "a" "");
                 req_UniqueIDLookup := "" |}
              [setDownloadURL (pendingItem "b" "f.mp4") "https://videos.example/1"]))
  = "https://videos.example/1".
Proof.
  destruct (metadataFirst_link_precedence
              {| req_URL := ""; req_Filename := "f.mp4";
                 req_MetaJSON := Some (pendingItem "a" "");
                 req_UniqueIDLookup := "" |}
              (pendingItem "a" "")
              [setDownloadURL (pendingItem "b" "f.mp4") "https://videos.example/1"]
              eq_refl) as [H _].
  exact H.
Defined.

Lemma sameItem_without_id (v newVideo : VideoConfig) :
  UniqueID newVideo = "" ->
  sameItem v newVideo = String.eqb (FileName v) (FileName newVideo).
Proof.
  intros H. unfold sameItem. rewrite H. unfold nonEmpty at 2. cbn [String.eqb negb].
  rewrite andb_false_r. reflexivity.
Qed.

(** X15. Unique file names survive the upsert of an item that carries no
    identifier: such an item is matched by its file name alone, so it
    overwrites the one entry of that name or is appended under a new name. *)
Theorem metadataFirst_keeps_fileNames_unique_without_id
    (req : DownloadRequest) (meta : VideoConfig)
    (currentVideos saved : list VideoConfig) :
  req_MetaJSON req = Some meta ->
  UniqueID meta = "" ->
  uniqueFileNames currentVideos ->
  snd (metadataFirst req currentVideos) = Some saved ->
  uniqueFileNames saved.
Proof.
  intros Hmeta Hid Huniq Hsaved.
  destruct (incoming_fields req meta) as (F1 & F2 & F3 & F4 & F5 & F6).
  cbv zeta in *. rewrite Hid in F1.
  unfold metadataFirst in Hsaved. rewrite Hmeta in Hsaved.
  destruct (incoming req meta) as [targetFilename newVideo]. cbn [snd fst] in *.
  unfold uniqueFileNames in *.
  destruct (findSameItem 0 newVideo currentVideos) as [[j v]|] eqn:Hfind.
  - destruct (findSameItem_some _ _ _ _ _ Hfind) as (i & -> & Hi & Hv & _).
    cbn [Nat.add snd] in Hsaved. injection Hsaved as <-.
    rewrite (sameItem_without_id _ _ F1) in Hv. apply String.eqb_eq in Hv.
    rewrite list_fmap_insert.
    destruct (mergeDownloadURL_keys v newVideo (req_URL req)) as [_ ->].
    rewrite <- Hv.
    rewrite list_insert_id; [exact Huniq|].
    rewrite list_lookup_fmap, Hi. reflexivity.
  - cbn [snd] in Hsaved. injection Hsaved as <-.
    apply (findSameItem_none _ _ 0%nat) in Hfind.
    rewrite fmap_app. apply NoDup_app. split_and!.
    + exact Huniq.
    + intros x Hx Hx'. cbn in Hx'. apply list_elem_of_singleton in Hx'. subst x.
      apply list_elem_of_fmap in Hx as (u & Hu & Hin).
      rewrite List.Forall_forall in Hfind.
      apply list_elem_of_In in Hin. specialize (Hfind u Hin).
      rewrite (sameItem_without_id _ _ F1) in Hfind.
      apply String.eqb_neq in Hfind. congruence.
    + cbn. apply NoDup_singleton.
Qed.

Lemma metadataFirst_keeps_fileNames_unique_without_id_witness :
  uniqueFileNames [pendingItem "" "f.mp4"; pendingItem "a" "g.mp4"].
Proof.
  apply (metadataFirst_keeps_fileNames_unique_without_id
           (metaRequest (pendingItem "" "f.mp4")) (pendingItem "" "f.mp4")
           [pendingItem "b" "f.mp4"; pendingItem "a" "g.mp4"]).
  - reflexivity.
  - reflexivity.
  - unfold uniqueFileNames. cbn. apply NoDup_cons. split; [|apply NoDup_singleton].
    rewrite list_elem_of_singleton. discriminate.
  - vm_compute. reflexivity.
Defined.

End UpsertMore.

(** ** More on the history-batch sync *)

Module HistorySyncMore.
Import GoStrings Matcher MatcherFacts Store StoreSpec HistorySync SyncChecks.

(** What the sync writes into an item it appends. *)
Lemma syncedVideo_fields (uniqueID fileName title url : string) :
  let w := syncedVideo uniqueID fileName title url in
  Uploaded w = false /\ IsManual w = true /\ PublishAt w = ""
  /\ DownloadURL w = url.
Proof. cbn. auto. Qed.

Section SyncFacts.

Variable growCap : nat -> nat.

(** The three things an iteration can do to the collection. *)
Lemma syncItem_videos (st : BatchState) (item : MailboxItem) :
  (localVideos (syncItem growCap st item) = localVideos st
   /\ syncedCount (syncItem growCap st item) = syncedCount st)
  \/ (exists i url, nonEmpty url = true
        /\ localVideos (syncItem growCap st item)
           = alter (fun v => setDownloadURL v url) i (localVideos st)
        /\ syncedCount (syncItem growCap st item) = syncedCount st)
  \/ (exists uniqueID fileName title url, nonEmpty url = true
        /\ localVideos (syncItem growCap st item)
           = (localVideos st ++ [syncedVideo uniqueID fileName title url])%list
        /\ syncedCount (syncItem growCap st item) = syncedCount st + 1).
Proof.
  unfold syncItem.
  destruct (String.eqb (Kind item) sora_gen_complete
            && nonEmpty (DownloadableURL (Draft item))) eqn:Hc; [|left; auto].
  apply andb_prop in Hc as [_ Hurl].
  destruct (FindFileID (DownloadableURL (Draft item))) as [fileUUID|]; [|left; auto].
  destruct (nonEmpty (FindID (DisplayStr item))).
  - destruct (existingIDs st !! FindID (DisplayStr item)) as [[i|]|].
    + right; left. exists i, (DownloadableURL (Draft item)). cbn. auto.
    + left. cbn. auto.
    + right; right. unfold appendVideo.
      destruct (length (localVideos st) <? capacity st)%nat; cbn;
        eexists _, _, _, _; split_and!; try reflexivity; exact Hurl.
  - destruct (bool_decide _); [left; auto|].
    right; right. unfold appendVideo.
    destruct (length (localVideos st) <? capacity st)%nat; cbn;
      eexists _, _, _, _; split_and!; try reflexivity; exact Hurl.
Qed.

Lemma grownFrom_step (loaded : list VideoConfig) (st : BatchState) (item : MailboxItem) :
  grownFrom loaded st -> grownFrom loaded (syncItem growCap st item).
Proof.
  intros (Hlen & Hold & Hnew). unfold grownFrom.
  destruct (syncItem_videos st item)
    as [[-> ->] | [(j & url & Hurl & -> & ->) | (a & b & c & url & Hurl & -> & ->)]].
  - split_and!; assumption.
  - split_and!.
    + rewrite length_alter. exact Hlen.
    + intros i v Hi. destruct (Hold i v Hi) as [url0 H0].
      destruct (decide (j = i)) as [->|Hne].
      * exists url. rewrite list_lookup_alter_eq, H0. reflexivity.
      * exists url0. rewrite list_lookup_alter_ne by exact Hne. exact H0.
    + intros i w Hi Hw.
      destruct (decide (j = i)) as [->|Hne].
      * rewrite list_lookup_alter_eq in Hw.
        destruct (localVideos st !! i) as [w0|] eqn:E; [|discriminate].
        injection Hw as <-. destruct (Hnew i w0 Hi E) as (N1 & N2 & N3 & _).
        cbn. auto.
      * rewrite list_lookup_alter_ne in Hw by exact Hne. eauto.
  - split_and!.
    + rewrite length_app. cbn [length]. lia.
    + intros i v Hi. destruct (Hold i v Hi) as [url0 H0].
      exists url0. rewrite lookup_app_l; [exact H0|]. apply lookup_lt_Some in H0. exact H0.
    + intros i w Hi Hw.
      destruct (decide (i < length (localVideos st))%nat) as [Hlt|Hge].
      * rewrite lookup_app_l in Hw by exact Hlt. eauto.
      * rewrite lookup_app_r in Hw by lia.
        destruct (i - length (localVideos st))%nat; [|discriminate].
        injection Hw as <-. cbn. auto.
Qed.

Lemma grownFrom_fold (loaded : list VideoConfig) (items : list MailboxItem) :
  forall st, grownFrom loaded st -> grownFrom loaded (fold_left (syncItem growCap) items st).
Proof.
  induction items as [|item items IH]; intros st H; [exact H|].
  cbn [fold_left]. apply IH, grownFrom_step, H.
Qed.

(** X16. The batch only appends: every stored item stays at its index with,
    at most, another [DownloadURL]; the count it reports is the number of
    items it appended; and every appended item is pending, manual, without
    [PublishAt] and with a link. *)
Theorem syncHistory_only_appends
    (items : list MailboxItem) (loaded : list VideoConfig) (cap : nat) :
  let saved := fst (syncHistory growCap items loaded cap) in
  let count := snd (syncHistory growCap items loaded cap) in
  Z.of_nat (length saved) = Z.of_nat (length loaded) + count
  /\ (forall i v, loaded !! i = Some v ->
        exists url, saved !! i = Some (setDownloadURL v url))
  /\ (forall i w, (length loaded <= i)%nat -> saved !! i = Some w ->
        Uploaded w = false /\ IsManual w = true /\ PublishAt w = ""
        /\ DownloadURL w <> "").
Proof.
  unfold syncHistory.
  destruct (indexLoaded 0 loaded ∅ ∅) as [names ids]. cbn [fst snd].
  set (st0 := mkBatch loaded (Nat.max cap (length loaded)) names ids 0).
  assert (H0 : grownFrom loaded st0).
  { split_and!; cbn.
    - lia.
    - intros i v Hi. exists (DownloadURL v). rewrite Hi. destruct v; reflexivity.
    - intros i w Hi Hw. apply lookup_lt_Some in Hw. lia. }
  destruct (grownFrom_fold loaded items st0 H0) as (G1 & G2 & G3).
  split_and!; [exact G1 | exact G2 |].
  intros i w Hi Hw. destruct (G3 i w Hi Hw) as (N1 & N2 & N3 & N4).
  split_and!; auto. intros E. rewrite E in N4. discriminate.
Qed.

(** *** Pointers after the array has moved *)

Lemma allStale_step (st : BatchState) (item : MailboxItem) :
  allStale st ->
  allStale (syncItem growCap st item)
  /\ take (length (localVideos st)) (localVideos (syncItem growCap st item))
     = localVideos st.
Proof.
  intros Hst. unfold syncItem.
  destruct (String.eqb (Kind item) sora_gen_complete
            && nonEmpty (DownloadableURL (Draft item)));
    [|split; [exact Hst | apply firstn_all]].
  destruct (FindFileID (DownloadableURL (Draft item))) as [fileUUID|];
    [|split; [exact Hst | apply firstn_all]].
  assert (Happ : forall v, allStale (appendVideo growCap st v)
                           /\ localVideos (appendVideo growCap st v)
                              = (localVideos st ++ [v])%list).
  { intros v. unfold appendVideo.
    destruct (length (localVideos st) <? capacity st)%nat; cbn; split; try reflexivity.
    - exact Hst.
    - intros id p. cbn. rewrite lookup_fmap.
      destruct (existingIDs st !! id); cbn; congruence. }
  destruct (nonEmpty (FindID (DisplayStr item))).
  - destruct (existingIDs st !! FindID (DisplayStr item)) as [p|] eqn:Hp.
    + rewrite (Hst _ _ Hp). cbn. split; [exact Hst | apply firstn_all].
    + match goal with
      | |- context [appendVideo growCap st ?v] => destruct (Happ v) as [H1 H2]
      end.
      cbn [localVideos existingIDs]. split.
      * intros id p. cbn [existingIDs].
        destruct (decide (id = FindID (DisplayStr item))) as [->|Hne].
        -- rewrite lookup_insert_eq. congruence.
        -- rewrite lookup_insert_ne by congruence. apply H1.
      * rewrite H2. apply take_app_length.
  - destruct (bool_decide _); [split; [exact Hst | apply firstn_all]|].
    match goal with
    | |- context [appendVideo growCap st ?v] => destruct (Happ v) as [H1 H2]
    end.
    cbn [localVideos existingIDs]. split; [exact H1|].
    rewrite H2. apply take_app_length.
Qed.

Lemma allStale_fold (items : list MailboxItem) :
  forall st, allStale st ->
    take (length (localVideos st)) (localVideos (fold_left (syncItem growCap) items st))
    = localVideos st.
Proof.
  induction items as [|item items IH]; intros st Hst; [apply firstn_all|].
  cbn [fold_left]. destruct (allStale_step st item Hst) as [H1 H2].
  specialize (IH _ H1).
  rewrite <- H2 at 2. rewrite <- IH at 1.
  rewrite take_take. f_equal.
  assert (length (localVideos st) <= length (localVideos (syncItem growCap st item)))%nat.
  { rewrite <- H2 at 1. rewrite length_take. lia. }
  lia.
Qed.

(** X17. When the loaded collection fills its array, the first append of a
    batch moves the collection to a new array and the pointers the batch
    keeps to the stored items go stale: from then on no record of the feed
    changes a stored item any more, whatever link it carries. *)
Theorem syncHistory_loses_links_after_growth
    (item : MailboxItem) (rest : list MailboxItem)
    (loaded : list VideoConfig) (cap : nat) :
  (cap <= length loaded)%nat ->
  snd (syncHistory growCap [item] loaded cap) = 1 ->
  exists new more,
    fst (syncHistory growCap (item :: rest) loaded cap)
    = (loaded ++ new :: more)%list.
Proof.
  unfold syncHistory. intros Hcap Hone.
  destruct (indexLoaded 0 loaded ∅ ∅) as [names ids]. cbn [fst snd fold_left] in *.
  set (st0 := mkBatch loaded (Nat.max cap (length loaded)) names ids 0) in *.
  assert (Hfull : (length (localVideos st0) <? capacity st0)%nat = false).
  { apply Nat.ltb_ge. cbn. lia. }
  assert (Hstep : allStale (syncItem growCap st0 item)
                  /\ exists new, localVideos (syncItem growCap st0 item)
                                 = (loaded ++ [new])%list).
  { revert Hone. unfold syncItem.
    destruct (String.eqb (Kind item) sora_gen_complete
              && nonEmpty (DownloadableURL (Draft item))); [|cbn; lia].
    destruct (FindFileID (DownloadableURL (Draft item))) as [fileUUID|]; [|cbn; lia].
    destruct (nonEmpty (FindID (DisplayStr item))).
    - destruct (existingIDs st0 !! FindID (DisplayStr item)) as [[i|]|];
        [cbn; lia | cbn; lia |].
      intros _. unfold appendVideo. rewrite Hfull. cbn. split; [|eexists; reflexivity].
      intros id p. cbn [existingIDs].
      destruct (decide (id = FindID (DisplayStr item))) as [->|Hne].
      + rewrite lookup_insert_eq. congruence.
      + rewrite lookup_insert_ne by congruence. rewrite lookup_fmap.
        destruct (ids !! id); cbn; congruence.
    - destruct (bool_decide _); [cbn; lia|].
      intros _. unfold appendVideo. rewrite Hfull. cbn. split; [|eexists; reflexivity].
      intros id p. cbn [existingIDs]. rewrite lookup_fmap.
      destruct (ids !! id); cbn; congruence. }
  destruct Hstep as [Hstale [new Hnew]].
  pose proof (allStale_fold rest _ Hstale) as Htake.
  rewrite Hnew in Htake.
  set (final := localVideos (fold_left (syncItem growCap) rest (syncItem growCap st0 item)))
    in *.
  exists new, (drop (length (loaded ++ [new])) final).
  rewrite <- (take_drop (length (loaded ++ [new])%list) final) at 1.
  rewrite Htake. rewrite <- app_assoc. reflexivity.
Qed.

End SyncFacts.

Lemma syncHistory_loses_links_after_growth_witness :
  exists new more,
    fst (syncHistory (fun n => (2 * n)%nat)
           [ {| item_ID := "mail_1"; Kind := sora_gen_complete;
                DisplayStr := "S2_1_2_3 a cat";
                Draft := {| draft_ID := "gen_1"; draft_TaskID := "task_1";
                            DownloadableURL := "https://videos.example/files/aaa/raw" |} |};
             {| item_ID := "mail_2"; Kind := sora_gen_complete;
                DisplayStr := "S2_4_5_6 a dog";
                Draft := {| draft_ID := "gen_2"; draft_TaskID := "task_2";
                            DownloadableURL := "https://videos.example/files/bbb/new" |} |} ]
           [pendingItem "S2_4_5_6" "dog.mp4"] 1)
    = ([pendingItem "S2_4_5_6" "dog.mp4"] ++ new :: more)%list.
Proof.
  apply (syncHistory_loses_links_after_growth (fun n => (2 * n)%nat)).
  - cbn. lia.
  - vm_compute. reflexivity.
Defined.

End HistorySyncMore.

(** ** A second pass of the history batch *)

Module HistorySyncAgain.
Import GoStrings Matcher MatcherFacts Store StoreSpec HistorySync SyncChecks.

Lemma indexLoaded_keys (videos : list VideoConfig) :
  forall i names ids,
    let r := indexLoaded i videos names ids in
    (forall name, name ∈ fst r <-> name ∈ names \/ name ∈ FileName <$> videos)
    /\ (forall id, is_Some (snd r !! id) <->
          is_Some (ids !! id) \/ (id <> "" /\ id ∈ UniqueID <$> videos)).
Proof.
  induction videos as [|v rest IH]; intros i names ids; cbn [indexLoaded].
  - cbn. split; intros x; rewrite ?elem_of_nil; [set_solver | tauto].
  - specialize (IH (S i) ({[FileName v]} ∪ names)
                  (if nonEmpty (UniqueID v) then <[UniqueID v := Live i]> ids else ids)).
    cbv zeta in IH. destruct IH as [IH1 IH2]. cbv zeta. split.
    + intros name. rewrite IH1, fmap_cons. set_solver.
    + intros id. rewrite IH2, fmap_cons, elem_of_cons.
      destruct (nonEmpty (UniqueID v)) eqn:E.
      * apply nonEmpty_true in E.
        destruct (decide (id = UniqueID v)) as [->|Hne].
        -- rewrite lookup_insert_eq. split; [intros _; right; auto | intros _; left; eauto].
        -- rewrite lookup_insert_ne by congruence. tauto.
      * assert (UniqueID v = "").
        { destruct (decide (UniqueID v = "")) as [e|n]; [exact e|].
          apply nonEmpty_true in n. congruence. }
        split; [tauto|]. intros [?|[? [?|?]]]; auto; congruence.
Qed.

Section AgainFacts.

Variable growCap : nat -> nat.

Lemma appendVideo_fields (st : BatchState) (v : VideoConfig) :
  localVideos (appendVideo growCap st v) = (localVideos st ++ [v])%list
  /\ localFileNames (appendVideo growCap st v) = localFileNames st
  /\ syncedCount (appendVideo growCap st v) = syncedCount st
  /\ (forall id, is_Some (existingIDs (appendVideo growCap st v) !! id)
                 <-> is_Some (existingIDs st !! id)).
Proof.
  unfold appendVideo.
  destruct (length (localVideos st) <? capacity st)%nat; cbn; split_and!; try reflexivity.
  intros id. rewrite lookup_fmap. rewrite fmap_is_Some. reflexivity.
Qed.

(** The keys and names only grow, and whatever is appended is under a key
    or a name. *)
Lemma syncItem_grows (st : BatchState) (item : MailboxItem) :
  (forall id, is_Some (existingIDs st !! id) ->
              is_Some (existingIDs (syncItem growCap st item) !! id))
  /\ localFileNames st ⊆ localFileNames (syncItem growCap st item)
  /\ (supported st -> supported (syncItem growCap st item))
  /\ known (syncItem growCap st item) item
  /\ (known st item ->
      length (localVideos (syncItem growCap st item)) = length (localVideos st)
      /\ syncedCount (syncItem growCap st item) = syncedCount st).
Proof.
  unfold known, syncItem.
  destruct (String.eqb (Kind item) sora_gen_complete
            && nonEmpty (DownloadableURL (Draft item))) eqn:Hc.
  2:{ split_and!; auto; discriminate. }
  destruct (FindFileID (DownloadableURL (Draft item))) as [fileUUID|].
  2:{ split_and!; auto; discriminate. }
  destruct (nonEmpty (FindID (DisplayStr item))) eqn:Hid.
  - destruct (existingIDs st !! FindID (DisplayStr item)) as [p|] eqn:Hp.
    + assert (Hw : existingIDs (writeDownloadURL st p (DownloadableURL (Draft item)))
                   = existingIDs st
                   /\ localFileNames (writeDownloadURL st p (DownloadableURL (Draft item)))
                      = localFileNames st
                   /\ syncedCount (writeDownloadURL st p (DownloadableURL (Draft item)))
                      = syncedCount st
                   /\ length (localVideos
                        (writeDownloadURL st p (DownloadableURL (Draft item))))
                      = length (localVideos st)
                   /\ UniqueID <$> localVideos
                        (writeDownloadURL st p (DownloadableURL (Draft item)))
                      = UniqueID <$> localVideos st
                   /\ FileName <$> localVideos
                        (writeDownloadURL st p (DownloadableURL (Draft item)))
                      = FileName <$> localVideos st).
      { destruct p as [i|]; cbn; split_and!; try reflexivity.
        - apply length_alter.
        - apply list_eq. intros k. rewrite !list_lookup_fmap.
          destruct (decide (i = k)) as [->|Hne].
          + rewrite list_lookup_alter_eq. destruct (localVideos st !! k); reflexivity.
          + rewrite list_lookup_alter_ne by exact Hne. reflexivity.
        - apply list_eq. intros k. rewrite !list_lookup_fmap.
          destruct (decide (i = k)) as [->|Hne].
          + rewrite list_lookup_alter_eq. destruct (localVideos st !! k); reflexivity.
          + rewrite list_lookup_alter_ne by exact Hne. reflexivity. }
      destruct Hw as (W1 & W2 & W3 & W4 & W5 & W6).
      split_and!.
      * intros id. rewrite W1. auto.
      * rewrite W2. reflexivity.
      * unfold supported. rewrite W1, W2, W5, W6. auto.
      * intros _ f _. rewrite W1, Hp. eauto.
      * intros _. auto.
    + match goal with
      | |- context [appendVideo growCap st ?v] =>
          destruct (appendVideo_fields st v) as (A1 & A2 & A3 & A4);
          set (st' := appendVideo growCap st v) in *
      end.
      cbn [existingIDs localFileNames localVideos syncedCount].
      split_and!.
      * intros id Hsome.
        destruct (decide (id = FindID (DisplayStr item))) as [->|Hne].
        -- rewrite lookup_insert_eq. eauto.
        -- rewrite lookup_insert_ne by congruence. apply A4. exact Hsome.
      * rewrite A2. reflexivity.
      * intros [S1 S2]. split; cbn [existingIDs localFileNames localVideos].
        -- intros id Hsome. rewrite A1, fmap_app, elem_of_app.
           destruct (decide (id = FindID (DisplayStr item))) as [->|Hne].
           ++ split; [apply nonEmpty_true; exact Hid|]. right. cbn. set_solver.
           ++ rewrite lookup_insert_ne in Hsome by congruence.
              apply A4, S1 in Hsome. tauto.
        -- intros name Hname. rewrite A2 in Hname. rewrite A1, fmap_app, elem_of_app.
           left. auto.
      * intros _ f _. rewrite lookup_insert_eq. eauto.
      * intros Hk. specialize (Hk eq_refl fileUUID eq_refl).
        destruct Hk as [? Hk]. discriminate Hk.
  - destruct (bool_decide _) eqn:Hin.
    + apply bool_decide_eq_true in Hin. split_and!; auto.
      intros _ f [= <-]. exact Hin.
    + apply bool_decide_eq_false in Hin.
      match goal with
      | |- context [appendVideo growCap st ?v] =>
          destruct (appendVideo_fields st v) as (A1 & A2 & A3 & A4);
          set (st' := appendVideo growCap st v) in *
      end.
      cbn [existingIDs localFileNames localVideos syncedCount].
      split_and!.
      * intros id Hsome. apply A4. exact Hsome.
      * rewrite A2. set_solver.
      * intros [S1 S2]. split; cbn [existingIDs localFileNames localVideos].
        -- intros id Hsome. rewrite A1, fmap_app, elem_of_app.
           apply A4, S1 in Hsome. tauto.
        -- intros name Hname. rewrite A2 in Hname. rewrite A1, fmap_app, elem_of_app.
           apply elem_of_union in Hname as [Hname|Hname].
           ++ right. apply elem_of_singleton in Hname. subst name. cbn. set_solver.
           ++ left. auto.
      * intros _ f [= <-]. set_solver.
      * intros Hk. specialize (Hk eq_refl fileUUID eq_refl). contradiction.
Qed.

Lemma known_mono (st st' : BatchState) (item : MailboxItem) :
  (forall id, is_Some (existingIDs st !! id) -> is_Some (existingIDs st' !! id)) ->
  localFileNames st ⊆ localFileNames st' ->
  known st item -> known st' item.
Proof.
  unfold known. intros Hids Hnames Hk Hc f Hf. specialize (Hk Hc f Hf).
  destruct (nonEmpty (FindID (DisplayStr item))); [auto | set_solver].
Qed.

Lemma fold_known (items : list MailboxItem) :
  forall st,
    let st' := fold_left (syncItem growCap) items st in
    (forall id, is_Some (existingIDs st !! id) -> is_Some (existingIDs st' !! id))
    /\ localFileNames st ⊆ localFileNames st'
    /\ (supported st -> supported st')
    /\ Forall (known st') items.
Proof.
  induction items as [|item items IH]; intros st; cbn [fold_left].
  - split_and!; auto. 
  - destruct (syncItem_grows st item) as (G1 & G2 & G3 & G4 & _).
    specialize (IH (syncItem growCap st item)). cbv zeta in IH.
    destruct IH as (I1 & I2 & I3 & I4).
    split_and!; auto.
    + set_solver.
    + constructor; [|exact I4]. eapply known_mono; [exact I1 | exact I2 | exact G4].
Qed.

Lemma fold_all_known (items : list MailboxItem) :
  forall st, Forall (known st) items ->
    length (localVideos (fold_left (syncItem growCap) items st)) = length (localVideos st)
    /\ syncedCount (fold_left (syncItem growCap) items st) = syncedCount st.
Proof.
  induction items as [|item items IH]; intros st Hall; cbn [fold_left]; [auto|].
  apply Forall_cons in Hall as [Hitem Hall].
  destruct (syncItem_grows st item) as (G1 & G2 & _ & _ & G5).
  destruct (G5 Hitem) as [L1 L2].
  destruct (IH (syncItem growCap st item)) as [I1 I2].
  { eapply Forall_impl; [exact Hall|]. intros x Hx.
    eapply known_mono; [exact G1 | exact G2 | exact Hx]. }
  split; congruence.
Qed.

(** X18. A second pass over the same feed appends nothing: run on the
    collection the first pass saved, the batch reports a count of zero and
    saves a collection of the same length. *)
Theorem syncHistory_second_pass_appends_nothing
    (items : list MailboxItem) (loaded : list VideoConfig) (cap cap' : nat) :
  let saved := fst (syncHistory growCap items loaded cap) in
  snd (syncHistory growCap items saved cap') = 0
  /\ length (fst (syncHistory growCap items saved cap')) = length saved.
Proof.
  unfold syncHistory.
  pose proof (indexLoaded_keys loaded 0 ∅ ∅) as Hkeys. cbv zeta in Hkeys.
  destruct (indexLoaded 0 loaded ∅ ∅) as [names ids]. cbn [fst snd] in *.
  destruct Hkeys as [K1 K2].
  set (st0 := mkBatch loaded (Nat.max cap (length loaded)) names ids 0).
  assert (Hsup : supported st0).
  { split; cbn.
    - intros id Hid. apply K2 in Hid as [Hid|Hid]; [|exact Hid].
      rewrite lookup_empty in Hid. destruct Hid as [? Hid]. discriminate Hid.
    - intros name Hname. apply K1 in Hname as [Hname|Hname]; [set_solver | exact Hname]. }
  destruct (fold_known items st0) as (_ & _ & F3 & F4). cbv zeta in F3, F4.
  specialize (F3 Hsup).
  set (stF := fold_left (syncItem growCap) items st0) in *.
  pose proof (indexLoaded_keys (localVideos stF) 0 ∅ ∅) as Hkeys'. cbv zeta in Hkeys'.
  destruct (indexLoaded 0 (localVideos stF) ∅ ∅) as [names' ids']. cbn [fst snd] in *.
  destruct Hkeys' as [K1' K2'].
  set (st1 := mkBatch (localVideos stF) (Nat.max cap' (length (localVideos stF)))
                names' ids' 0).
  assert (Hall : Forall (known st1) items).
  { eapply Forall_impl; [exact F4|]. intros item Hk. unfold known in *.
    intros Hc f Hf. specialize (Hk Hc f Hf). destruct F3 as [S1 S2].
    destruct (nonEmpty (FindID (DisplayStr item))); cbn.
    - apply K2'. right. apply S1. exact Hk.
    - apply K1'. right. apply S2. exact Hk. }
  destruct (fold_all_known items st1 Hall) as [L1 L2].
  split; [exact L2 | exact L1].
Qed.

End AgainFacts.

End HistorySyncAgain.

(** ** More on the orchestrator *)

Module OrchestratorMore.
Import GoStrings GoTime GoTimeFacts SlotAllocator SlotSpec SlotFacts SlotMore.
Import Matcher Store Orchestrator OrchestratorSpec OrchestratorFacts.

Section RunMore.

Variable ScheduleSlots : list string.
Variable now : Time.
Variable parseRFC3339 : string -> option Time.
Variable uploadVideo : nat -> VideoConfig -> bool.

Local Abbreviation assignSlot := (assignSlot ScheduleSlots now parseRFC3339).
Local Abbreviation iteration := (iteration ScheduleSlots now parseRFC3339 uploadVideo).
Local Abbreviation loop := (loop ScheduleSlots now parseRFC3339 uploadVideo).

Lemma iteration_processed (i : nat) (st st' : RunState) :
  iteration i st = Some st' -> processed st <= processed st' <= processed st + 1.
Proof.
  intros H. apply iteration_outcome in H.
  destruct H as [_ -> | v _ _ _ -> | v v' clock _ _ _ _ _ -> | v v' clock _ _ _ _ _ ->];
    cbn [processed]; lia.
Qed.

Lemma loop_at_limit (limit : Z) (n i : nat) (st : RunState) :
  limit <= processed st -> loop limit n i st = Some st.
Proof.
  intros H. destruct n; cbn [Orchestrator.loop]; [reflexivity|].
  apply Z.leb_le in H. rewrite H. reflexivity.
Qed.

Lemma loop_limit (limit : Z) (n : nat) :
  forall (i : nat) (st r : RunState),
    loop limit n i st = Some r -> processed r <= Z.max limit (processed st).
Proof.
  induction n as [|n IH]; intros i st r H; cbn [Orchestrator.loop] in H.
  - injection H as <-. lia.
  - destruct (limit <=? processed st) eqn:E.
    + injection H as <-. lia.
    + apply Z.leb_gt in E.
      destruct (iteration i st) as [st'|] eqn:Hit; [|discriminate].
      cbn [mbind option_bind] in H.
      pose proof (iteration_processed _ _ _ Hit).
      pose proof (IH _ _ _ H). lia.
Qed.

(** X19. A run uploads at most [limit] items and saves the store once per
    upload; with a limit of zero or less it does nothing at all. *)
Theorem processScheduleAndUpload_respects_limit
    (startDate : Time) (limit : Z) (clientSecret : bool) (lastTime : Time)
    (loaded : list VideoConfig) (files0 : gset string) (r : RunState) :
  processScheduleAndUpload ScheduleSlots now parseRFC3339 uploadVideo
    startDate limit clientSecret lastTime loaded files0 = Some r ->
  processed r = Z.of_nat (length (saves r))
  /\ processed r <= Z.max 0 limit
  /\ (limit <= 0 ->
      videos r = loaded /\ saves r = [] /\ events r = [] /\ files r = files0).
Proof.
  intros Hrun.
  destruct (Inv_run _ _ _ _ _ _ _ _ _ _ _ Hrun) as (i' & Hinv & _).
  split; [apply (inv_processed _ _ _ _ Hinv)|].
  unfold processScheduleAndUpload in Hrun.
  destruct clientSecret; [|discriminate]. cbn [negb] in Hrun.
  destruct (startClock _ _ _ _ _ _) as [clock|]; [|discriminate].
  cbn [mbind option_bind] in Hrun.
  split.
  - pose proof (loop_limit _ _ _ _ _ Hrun) as H. cbn [processed] in H. lia.
  - intros Hlim. rewrite loop_at_limit in Hrun by (cbn [processed]; lia).
    injection Hrun as <-. cbn. auto.
Qed.

(** *** Runs on a well-formed slot list *)

Variable clocks : list Z.
Hypothesis slots_ok : mapM clockOfSlot ScheduleSlots = Some clocks.
Hypothesis slots_ne : ScheduleSlots <> [].

Lemma calculateNextSlot_forward (t : Time) :
  exists next,
    calculateNextSlot ScheduleSlots now t = Some next
    /\ (IsZero t = false -> After next t = true).
Proof.
  unfold calculateNextSlot.
  destruct (IsZero t).
  - destruct (nextSlot_from ScheduleSlots clocks now slots_ok slots_ne)
      as (d & c & Hr & _). exists (atClock d c). split; [exact Hr | discriminate].
  - destruct (nextSlot_from ScheduleSlots clocks (In t Taipei) slots_ok slots_ne)
      as (d & c & Hr & _ & _ & Hafter).
    exists (atClock d c). split; [exact Hr|]. intros _. exact (Hafter eq_refl).
Qed.

Lemma After_not_zero (t u : Time) :
  After t u = true -> After u zeroTime = true -> IsZero t = false.
Proof.
  unfold After, IsZero. intros H1 H2.
  apply Z.ltb_lt in H1, H2. apply Z.eqb_neq. lia.
Qed.

(** The schedule step returns, and the clock does not move backwards. *)
Lemma assignSlot_forward (v : VideoConfig) (clock : Time) :
  exists v' clock',
    assignSlot v clock = Some (v', clock')
    /\ (After clock zeroTime = true ->
        After clock clock' = false /\ After clock' zeroTime = true).
Proof.
  unfold Orchestrator.assignSlot.
  assert (Hkeep : After clock zeroTime = true ->
                  After clock clock = false /\ After clock zeroTime = true).
  { intros H. split; [|exact H]. unfold After. apply Z.ltb_ge. lia. }
  assert (Hnext : forall t, (After clock zeroTime = true ->
                             After clock t = false /\ IsZero t = false) ->
            exists next, calculateNextSlot ScheduleSlots now t = Some next
              /\ (After clock zeroTime = true ->
                  After clock next = false /\ After next zeroTime = true)).
  { intros t Ht. destruct (calculateNextSlot_forward t) as (next & Hn & Hafter).
    exists next. split; [exact Hn|]. intros Hz.
    destruct (Ht Hz) as [H1 H2]. specialize (Hafter H2).
    unfold After in *. apply Z.ltb_lt in Hafter, Hz. apply Z.ltb_ge in H1.
    split; [apply Z.ltb_ge | apply Z.ltb_lt]; lia. }
  destruct (IsManual v && nonEmpty (PublishAt v)).
  - destruct (parseRFC3339 (PublishAt v)) as [t|]; [|eauto].
    destruct (negb (IgnoreCalc v) && After t clock) eqn:E; [|eauto].
    apply andb_prop in E as [_ E].
    destruct (Hnext t) as (next & -> & Hn).
    { intros Hz. split; [|exact (After_not_zero _ _ E Hz)].
      unfold After in *. apply Z.ltb_lt in E. apply Z.ltb_ge. lia. }
    cbn. eauto.
  - destruct (Hnext clock) as (next & -> & Hn).
    { intros Hz. split; [apply Hkeep, Hz|].
      unfold After, IsZero in *. apply Z.ltb_lt in Hz. apply Z.eqb_neq. lia. }
    cbn. eauto.
Qed.

Lemma iteration_forward (i : nat) (st : RunState) :
  exists st',
    iteration i st = Some st'
    /\ (After (currTime st) zeroTime = true ->
        After (currTime st) (currTime st') = false
        /\ After (currTime st') zeroTime = true).
Proof.
  assert (Hkeep : After (currTime st) zeroTime = true ->
                  After (currTime st) (currTime st) = false
                  /\ After (currTime st) zeroTime = true).
  { intros H. split; [|exact H]. unfold After. apply Z.ltb_ge. lia. }
  unfold Orchestrator.iteration.
  destruct (videos st !! i) as [v|]; [|eauto].
  destruct (Uploaded v); [eauto|].
  destruct (negb (bool_decide (FileName v ∈ files st))); [eexists; split; [reflexivity|]; exact Hkeep|].
  destruct (assignSlot_forward v (currTime st)) as (v' & clock' & -> & Hf).
  cbn [mbind option_bind].
  destruct (uploadVideo i v'); eexists; (split; [reflexivity|]); exact Hf.
Qed.

Lemma loop_forward (limit : Z) (n : nat) :
  forall (i : nat) (st : RunState),
    exists r,
      loop limit n i st = Some r
      /\ (After (currTime st) zeroTime = true ->
          After (currTime st) (currTime r) = false).
Proof.
  induction n as [|n IH]; intros i st; cbn [Orchestrator.loop].
  - exists st. split; [reflexivity|]. intros _. unfold After. apply Z.ltb_ge. lia.
  - destruct (limit <=? processed st).
    + exists st. split; [reflexivity|]. intros _. unfold After. apply Z.ltb_ge. lia.
    + destruct (iteration_forward i st) as (st' & -> & Hstep).
      cbn [mbind option_bind].
      destruct (IH (S i) st') as (r & Hr & Hrest).
      exists r. split; [exact Hr|]. intros Hz.
      destruct (Hstep Hz) as [H1 H2]. specialize (Hrest H2).
      unfold After in *. apply Z.ltb_ge in H1, Hrest. apply Z.ltb_ge. lia.
Qed.

(** X20. With a slot list of well-formed entries that is not empty, and
    the client secret in place, a run ends without a panic, whatever the
    store holds, and the clock it ends with is not before the clock it
    started with when that lies after the zero time. *)
Theorem processScheduleAndUpload_ends
    (startDate : Time) (limit : Z) (lastTime : Time)
    (loaded : list VideoConfig) (files0 : gset string) :
  exists start r,
    startClock ScheduleSlots now parseRFC3339 startDate lastTime loaded = Some start
    /\ processScheduleAndUpload ScheduleSlots now parseRFC3339 uploadVideo
         startDate limit true lastTime loaded files0 = Some r
    /\ (After start zeroTime = true -> After start (currTime r) = false).
Proof.
  unfold processScheduleAndUpload. cbn [negb].
  assert (Hstart : exists start,
            startClock ScheduleSlots now parseRFC3339 startDate lastTime loaded
            = Some start).
  { unfold startClock.
    set (last := if After _ lastTime then _ else lastTime).
    destruct (calculateNextSlot_forward last) as (next & Hn & _).
    destruct (IsZero startDate); [eauto|].
    destruct (After last _); eauto. }
  destruct Hstart as [start Hstart]. rewrite Hstart. cbn [mbind option_bind].
  destruct (loop_forward limit (length loaded) 0 (mkRun loaded start 0 files0 [] []))
    as (r & Hr & Hf).
  exists start, r. split_and!; [reflexivity | exact Hr | exact Hf].
Qed.

End RunMore.

Lemma processScheduleAndUpload_respects_limit_witness :
  match twoItemRun with
  | Some r => processed r <= 1
  | None => False
  end.
Proof.
  pose proof twoItemRun_result as Hres.
  destruct twoItemRun as [r|] eqn:Hrun; [|contradiction].
  unfold twoItemRun in Hrun.
  destruct (processScheduleAndUpload_respects_limit defaultScheduleSlots zeroTime
              noStamp failFirst zeroTime 1 true (Date 2024 3 10 9 30 0 0 Taipei)
              [autoItem "a.mp4"; autoItem "b.mp4"] {["a.mp4"; "b.mp4"]} r Hrun)
    as (_ & H & _).
  exact H.
Defined.

Lemma processScheduleAndUpload_ends_witness :
  exists r,
    processScheduleAndUpload defaultScheduleSlots zeroTime noStamp failFirst
      zeroTime 1 true (Date 2024 3 10 9 30 0 0 Taipei)
      [autoItem "a.mp4"; autoItem "b.mp4"] {["a.mp4"; "b.mp4"]} = Some r.
Proof.
  destruct (processScheduleAndUpload_ends defaultScheduleSlots zeroTime noStamp
              failFirst [0; 28800; 43200; 57600] eq_refl ltac:(discriminate)
              zeroTime 1 (Date 2024 3 10 9 30 0 0 Taipei)
              [autoItem "a.mp4"; autoItem "b.mp4"] {["a.mp4"; "b.mp4"]})
    as (start & r & _ & Hr & _).
  exists r. exact Hr.
Defined.

(** *** [handleManualSchedule] *)



End OrchestratorMore.

(** ** More on the artifact fetcher *)

Module FetcherMore.
Import GoStrings Matcher MatcherFacts Fetcher FetcherSpec.

Section DownloadMore.

Variable newRequest : string -> bool.
Variable clientDo : string -> option Response.
Variable canCreate : string -> bool.
Variable removeHeld : string -> bool.
Variable removeFile : string -> bool.

Local Abbreviation download :=
  (downloadFileWithProgress newRequest clientDo canCreate removeHeld).
Local Abbreviation fetchStep :=
  (fetch newRequest clientDo canCreate removeHeld removeFile).

Lemma osRemove_other (ok : bool) (filename other : string) (fs : FileSystem) :
  other <> filename -> osRemove ok filename fs !! other = fs !! other.
Proof.
  intros Hne. unfold osRemove. destruct ok; [|reflexivity].
  apply lookup_delete_ne. congruence.
Qed.

Lemma osRemove_destination (ok : bool) (filename : string) (fs : FileSystem) :
  osRemove ok filename fs !! filename = (if ok then None else fs !! filename).
Proof. unfold osRemove. destruct ok; [apply lookup_delete_eq | reflexivity]. Qed.

(** X22. A download touches no file but its destination. When it returns
    [nil] the destination holds exactly the bytes that were copied, and as
    many as the reply declared if it declared a positive length. When the
    copy fails or comes short, [os.Remove] is called on the file that is
    still open: the destination is gone when that removal succeeds and
    holds the bytes that were copied when it fails, whatever stood there
    before. On every earlier error, and when the nil request panics, the
    working directory is left as it was. *)
Theorem downloadFileWithProgress_destination
    (url filename : string) (fs : FileSystem) :
  let r := downloadFileWithProgress newRequest clientDo canCreate removeHeld
             url filename fs in
  (forall other, other <> filename -> fst r !! other = fs !! other)
  /\ match snd r with
     | Returns None =>
         exists resp,
           clientDo url = Some resp /\ StatusCode resp = 200
           /\ fst r !! filename = Some (copied resp)
           /\ (0 < ContentLength resp ->
               Z.of_nat (String.length (copied resp)) = ContentLength resp)
     | Returns (Some ErrCopy) | Returns (Some (ErrSizeMismatch _ _)) =>
         exists resp,
           clientDo url = Some resp
           /\ fst r !! filename
              = (if removeHeld filename then None else Some (copied resp))
     | Returns (Some _) => fst r = fs
     | Panics => newRequest url = false /\ fst r = fs
     end.
Proof.
  cbv zeta. unfold downloadFileWithProgress.
  destruct (newRequest url) eqn:Hreq; cbn [negb]; [|cbn; auto].
  destruct (clientDo url) as [resp|]; [|cbn; auto].
  destruct (StatusCode resp =? 200) eqn:Hs; cbn [negb]; [|cbn; auto].
  destruct (Contains (ContentType resp) "xml" || Contains (ContentType resp) "text");
    [cbn; auto|].
  destruct (canCreate filename); cbn [negb]; [|cbn; auto].
  rewrite insert_insert_eq.
  assert (Hrm : (forall other, other <> filename ->
                   osRemove (removeHeld filename) filename
                     (<[filename := copied resp]> fs) !! other = fs !! other)
                /\ exists resp',
                     Some resp = Some resp'
                     /\ osRemove (removeHeld filename) filename
                          (<[filename := copied resp]> fs) !! filename
                        = (if removeHeld filename then None else Some (copied resp'))).
  { split.
    - intros other Hne. rewrite osRemove_other by exact Hne.
      apply lookup_insert_ne. congruence.
    - exists resp. split; [reflexivity|]. rewrite osRemove_destination.
      rewrite lookup_insert_eq. reflexivity. }
  destruct (copyErr resp); [cbn [fst snd]; exact Hrm|].
  destruct ((0 <? ContentLength resp)
            && negb (Z.of_nat (String.length (copied resp)) =? ContentLength resp))
    eqn:Hsize; [cbn [fst snd]; exact Hrm|].
  cbn [fst snd]. split.
  - intros other Hne. rewrite lookup_insert_ne by congruence. reflexivity.
  - exists resp. split_and!; [reflexivity | apply Z.eqb_eq, Hs | apply lookup_insert_eq |].
    intros Hpos. apply andb_false_iff in Hsize as [H|H].
    + apply Z.ltb_ge in H. lia.
    + apply negb_false_iff, Z.eqb_eq in H. exact H.
Qed.

(** The ways a download ends, as the fetch step needs them. *)
Lemma download_cases (url filename : string) (fs : FileSystem) :
  let d := download url filename fs in
  (forall other, other <> filename -> fst d !! other = fs !! other)
  /\ match snd d with
     | Returns None => is_Some (fst d !! filename)
     | Returns (Some _) =>
         fst d = fs
         \/ exists resp,
              clientDo url = Some resp
              /\ fst d !! filename
                 = (if removeHeld filename then None else Some (copied resp))
     | Panics => newRequest url = false /\ fst d = fs
     end.
Proof.
  cbv zeta. unfold downloadFileWithProgress.
  destruct (newRequest url) eqn:Hreq; cbn [negb]; [|cbn; auto].
  destruct (clientDo url) as [resp|]; [|cbn; auto].
  destruct (negb (StatusCode resp =? 200)); [cbn; auto|].
  destruct (Contains (ContentType resp) "xml" || Contains (ContentType resp) "text");
    [cbn; auto|].
  destruct (negb (canCreate filename)); [cbn; auto|].
  rewrite insert_insert_eq.
  assert (Hframe : forall other, other <> filename ->
            osRemove (removeHeld filename) filename
              (<[filename := copied resp]> fs) !! other = fs !! other).
  { intros other Hne. rewrite osRemove_other by exact Hne.
    apply lookup_insert_ne. congruence. }
  assert (Hdest : osRemove (removeHeld filename) filename
                    (<[filename := copied resp]> fs) !! filename
                  = (if removeHeld filename then None else Some (copied resp))).
  { rewrite osRemove_destination, lookup_insert_eq. reflexivity. }
  destruct (copyErr resp); [cbn [fst snd]; split; [exact Hframe | right; eauto]|].
  destruct ((0 <? ContentLength resp) && _);
    [cbn [fst snd]; split; [exact Hframe | right; eauto]|].
  cbn [fst snd]. split.
  - intros other Hne. rewrite lookup_insert_ne by congruence. reflexivity.
  - rewrite lookup_insert_eq. eauto.
Qed.

(** The paths of a fetch: no link; a file of more than 1024 bytes in
    place; or one download, after the removal of a shorter file if there
    was one. *)
Lemma fetch_cases (targetURL targetFilename : string) (fs : FileSystem) :
  (targetURL = ""
   /\ fetchStep targetURL targetFilename fs = (Some MsgNoLink, fs, []))
  \/ (exists content,
        targetURL <> ""
        /\ fs !! targetFilename = Some content
        /\ 1024 < Z.of_nat (String.length content)
        /\ fetchStep targetURL targetFilename fs = (Some MsgAlreadyExists, fs, []))
  \/ (exists fs0,
        targetURL <> ""
        /\ ((fs0 = fs /\ fs !! targetFilename = None)
            \/ (fs0 = osRemove (removeFile targetFilename) targetFilename fs
                /\ exists content, fs !! targetFilename = Some content
                                   /\ Z.of_nat (String.length content) <= 1024))
        /\ let d := download targetURL targetFilename fs0 in
           fetchStep targetURL targetFilename fs
           = match snd d with
             | Returns (Some err) => (Some (MsgDownloadFailed err), fst d, [targetURL])
             | Returns None => (Some MsgOK, fst d, [targetURL])
             | Panics => (None, fst d, [])
             end).
Proof.
  unfold fetch.
  destruct (nonEmpty targetURL) eqn:Hurl.
  2:{ left. split; [|reflexivity]. unfold nonEmpty in Hurl.
      apply negb_false_iff, String.eqb_eq in Hurl. exact Hurl. }
  apply nonEmpty_true in Hurl.
  destruct (fs !! targetFilename) as [content|] eqn:Hfile.
  - destruct (1024 <? Z.of_nat (String.length content)) eqn:Hbig.
    + right; left. exists content. split_and!; [exact Hurl | reflexivity | lia | reflexivity].
    + right; right. exists (osRemove (removeFile targetFilename) targetFilename fs).
      split_and!; [exact Hurl | right; split; [reflexivity | exists content; split; [reflexivity | lia]] |].
      cbv zeta.
        destruct (download targetURL targetFilename _) as [fs' [[err|]|]]; reflexivity.
  - right; right. exists fs. split_and!; [exact Hurl | left; auto |].
    cbv zeta.
    destruct (download targetURL targetFilename fs) as [fs' [[err|]|]]; reflexivity.
Qed.

(** X23. What the answer of a fetch says about the working directory.
    After [ok] the destination exists. After "already exists" and "no link"
    nothing was requested and nothing changed. After a failed download the
    destination is empty when both removals succeed, the one of the short
    file that stood there and the one of the partial file that is still
    open; otherwise the short file or the partial copy can still be there.
    When no request can be built the step panics and gives no answer. No
    other file is touched, and at most the target URL is requested, once. *)
Theorem fetch_answer
    (targetURL targetFilename : string) (fs : FileSystem) :
  let r := fetch newRequest clientDo canCreate removeHeld removeFile
             targetURL targetFilename fs in
  let fs' := snd (fst r) in
  (forall other, other <> targetFilename -> fs' !! other = fs !! other)
  /\ match fst (fst r) with
     | Some MsgOK => is_Some (fs' !! targetFilename) /\ snd r = [targetURL]
     | Some (MsgDownloadFailed _) =>
         snd r = [targetURL]
         /\ (fs' !! targetFilename = None
             \/ (removeFile targetFilename = false
                 /\ fs' !! targetFilename = fs !! targetFilename)
             \/ (removeHeld targetFilename = false
                 /\ exists resp, clientDo targetURL = Some resp
                                 /\ fs' !! targetFilename = Some (copied resp)))
     | Some MsgAlreadyExists =>
         fs' = fs /\ snd r = []
         /\ exists content, fs !! targetFilename = Some content
                            /\ 1024 < Z.of_nat (String.length content)
     | Some MsgNoLink => fs' = fs /\ snd r = [] /\ targetURL = ""
     | None => newRequest targetURL = false /\ snd r = []
     end.
Proof.
  cbv zeta.
  destruct (fetch_cases targetURL targetFilename fs)
    as [[Hurl ->] | [(content & _ & Hfile & Hbig & ->)
                    | (fs0 & _ & Hfs0 & Hdl)]]; cbn [fst snd].
  - auto.
  - split_and!; eauto.
  - cbv zeta in Hdl. rewrite Hdl. clear Hdl.
    destruct (download_cases targetURL targetFilename fs0) as [Hframe Hres].
    cbv zeta in Hframe, Hres.
    assert (Hother : forall other, other <> targetFilename -> fs0 !! other = fs !! other).
    { intros other Hne. destruct Hfs0 as [[-> _] | [-> _]]; [reflexivity|].
      apply osRemove_other. exact Hne. }
    assert (Hdest : fs0 !! targetFilename = None
                    \/ (removeFile targetFilename = false
                        /\ fs0 !! targetFilename = fs !! targetFilename)).
    { destruct Hfs0 as [[-> Hnone] | [-> _]]; [left; exact Hnone|].
      rewrite osRemove_destination.
      destruct (removeFile targetFilename); [left; reflexivity | right; auto]. }
    destruct (download targetURL targetFilename fs0) as [fs' [[err|]|]];
      cbn [fst snd] in *.
    + split; [intros other Hne; rewrite Hframe by exact Hne; auto|].
      split; [reflexivity|].
      destruct Hres as [-> | (resp & Hdo & Hlook)].
      * destruct Hdest as [H | H]; [left; exact H | right; left; exact H].
      * rewrite Hlook. destruct (removeHeld targetFilename) eqn:Eh;
          [left; reflexivity | right; right; eauto].
    + split; [intros other Hne; rewrite Hframe by exact Hne; auto | auto].
    + split; [intros other Hne; rewrite Hframe by exact Hne; auto | tauto].
Qed.

End DownloadMore.

Example fetch_loses_small_file :
  fetch (fun _ => true) (fun _ => None) (fun _ => true) (fun _ => true)
        (fun _ => true) "https://videos.example/files/aaa/raw"
        "sora_aaa.mp4" {["sora_aaa.mp4" := filler 10]}
  = (Some (MsgDownloadFailed ErrRequest), ∅, ["https://videos.example/files/aaa/raw"]).
Proof.
  unfold fetch, downloadFileWithProgress, osRemove.
  change (nonEmpty "https://videos.example/files/aaa/raw") with true. cbv iota.
  rewrite lookup_singleton_eq.
  change (1024 <? Z.of_nat (String.length (filler 10))) with false. cbv iota.
  rewrite delete_singleton_eq. reflexivity.
Qed.

End FetcherMore.

(** ** Identifiers across the sync and the lookup *)

Module IdentifierFacts.
Import GoStrings GoTime Matcher MatcherSpec MatcherFacts Store HistorySync.
Import Orchestrator StoreHandlers StoryIDFacts.

Lemma digitRun_split (s ds rest : string) :
  digitRun s = (ds, rest) -> s = ds +:+ rest.
Proof.
  revert ds rest. induction s as [|c s IH]; intros ds rest H; cbn [digitRun] in H.
  - injection H as <- <-. reflexivity.
  - destruct (isDigit c).
    + destruct (digitRun s) as [ds' rest'] eqn:E. injection H as <- <-.
      rewrite app_cons, (IH _ _ eq_refl). reflexivity.
    + injection H as <- <-. reflexivity.
Qed.

(** A match at the first byte is a prefix of the text. *)
Lemma matchIDHere_prefix (s m : string) :
  matchIDHere s = Some m -> m <> "" /\ exists post, s = m +:+ post.
Proof.
  unfold matchIDHere. intros H.
  destruct s as [|c0 s0]; [discriminate H|].
  destruct c0 as [[] [] [] [] [] [] [] []]; try discriminate H.
  destruct s0 as [|c1 s1]; [discriminate H|].
  destruct c1 as [[] [] [] [] [] [] [] []]; try discriminate H.
  destruct s1 as [|c2 r0]; [discriminate H|].
  destruct c2 as [[] [] [] [] [] [] [] []]; try discriminate H.
  destruct (digitRun r0) as [d1 r1] eqn:E1. apply digitRun_split in E1.
  destruct d1 as [|x1 d1]; [discriminate H|].
  destruct r1 as [|u1 r1']; [discriminate H|].
  destruct u1 as [[] [] [] [] [] [] [] []]; try discriminate H.
  destruct (digitRun r1') as [d2 r2] eqn:E2. apply digitRun_split in E2.
  destruct d2 as [|x2 d2]; [discriminate H|].
  destruct r2 as [|u2 r2']; [discriminate H|].
  destruct u2 as [[] [] [] [] [] [] [] []]; try discriminate H.
  destruct (digitRun r2') as [d3 r3] eqn:E3. apply digitRun_split in E3.
  destruct d3 as [|x3 d3]; [discriminate H|].
  injection H as <-. split; [discriminate|].
  exists r3. subst r0 r1' r2'.
  rewrite !app_cons, !app_nil. f_equal. f_equal. f_equal.
  repeat first [rewrite app_cons | rewrite string_app_assoc | progress f_equal].
Qed.

(** What the pattern finds stands in the text. *)
Lemma FindID_in_text (s : string) :
  FindID s <> "" -> Contains s (FindID s) = true.
Proof.
  induction s as [|c s IH]; cbn [FindID].
  - destruct (matchIDHere "") eqn:E; [discriminate E | congruence].
  - destruct (matchIDHere (String c s)) as [m|] eqn:E.
    + intros _. apply matchIDHere_prefix in E as [_ [post E]].
      apply Contains_spec. exists "", post. rewrite app_nil. exact E.
    + intros H. specialize (IH H). apply Contains_spec in IH as (pre & post & IH).
      apply Contains_spec. exists (String c pre), post.
      rewrite app_cons. f_equal. exact IH.
Qed.

(** X24. The lookup of [fetchSoraURLFromHistory] finds a link under every
    identifier the history batch stores: for a completed record with a URL
    whose text carries an identifier, looking that identifier up in the
    same feed answers with a link. *)
Theorem linkOfDisplayID_finds_synced_id
    (items : list MailboxItem) (item : MailboxItem) :
  List.In item items ->
  Kind item = sora_gen_complete ->
  DownloadableURL (Draft item) <> "" ->
  FindID (DisplayStr item) <> "" ->
  exists url, linkOfDisplayID (FindID (DisplayStr item)) items = Some url
              /\ url <> "".
Proof.
  intros Hin Hkind Hurl Hid.
  pose proof (FindID_in_text _ Hid) as Hc.
  induction items as [|x items IH]; [destruct Hin|].
  cbn [linkOfDisplayID].
  destruct (String.eqb (Kind x) sora_gen_complete
            && Contains (DisplayStr x) (FindID (DisplayStr item))
            && nonEmpty (DownloadableURL (Draft x))) eqn:E.
  - exists (DownloadableURL (Draft x)). split; [reflexivity|].
    apply andb_prop in E as [_ E]. apply nonEmpty_true. exact E.
  - destruct Hin as [-> | Hin]; [|exact (IH Hin)].
    rewrite Hkind, Hc in E. apply nonEmpty_true in Hurl. rewrite Hurl in E.
    discriminate E.
Qed.

Lemma linkOfDisplayID_finds_synced_id_witness :
  exists url,
    linkOfDisplayID "S2_1_2_3"
      [ {| item_ID := "mail_1"; Kind := sora_gen_complete;
           DisplayStr := "S2_1_2_3 a cat";
           Draft := {| draft_ID := "gen_1"; draft_TaskID := "task_1";
                       DownloadableURL := "https://videos.example/files/aaa/raw" |} |} ]
    = Some url /\ url <> "".
Proof.
  apply (linkOfDisplayID_finds_synced_id
           [ {| item_ID := "mail_1"; Kind := sora_gen_complete;
                DisplayStr := "S2_1_2_3 a cat";
                Draft := {| draft_ID := "gen_1"; draft_TaskID := "task_1";
                            DownloadableURL := "https://videos.example/files/aaa/raw" |} |} ]
           {| item_ID := "mail_1"; Kind := sora_gen_complete;
              DisplayStr := "S2_1_2_3 a cat";
              Draft := {| draft_ID := "gen_1"; draft_TaskID := "task_1";
                          DownloadableURL := "https://videos.example/files/aaa/raw" |} |}).
  - left. reflexivity.
  - reflexivity.
  - discriminate.
  - vm_compute. discriminate.
Defined.

(** *** The local baseline *)

Section Baseline.

Variable parseRFC3339 : string -> option Time.

Lemma localMax_from (videos : list VideoConfig) :
  forall start,
    unixNano zeroTime <= unixNano start ->
    let m := localMax parseRFC3339 videos start in
    unixNano start <= unixNano m
    /\ (forall v t, List.In v videos -> PublishAt v <> "" -> IgnoreCalc v = false ->
          parseRFC3339 (PublishAt v) = Some t -> After t m = false)
    /\ (m = start
        \/ exists v, List.In v videos /\ PublishAt v <> "" /\ IgnoreCalc v = false
                     /\ parseRFC3339 (PublishAt v) = Some m).
Proof.
  induction videos as [|x rest IH]; intros start Hstart; cbn [localMax].
  - cbv zeta. split_and!; [lia | intros v t [] | left; reflexivity].
  - destruct (nonEmpty (PublishAt x) && negb (IgnoreCalc x)) eqn:Hc.
    + apply andb_prop in Hc as [Hp Hi]. apply nonEmpty_true in Hp.
      apply negb_true_iff in Hi.
      destruct (parseRFC3339 (PublishAt x)) as [t|] eqn:Hparse; cbn [default from_option];
        unfold id.
      * destruct (After t start) eqn:Ha.
        -- destruct (IH t) as (I1 & I2 & I3).
           { unfold After in Ha. apply Z.ltb_lt in Ha. lia. }
           cbv zeta in *. split_and!.
           ++ unfold After in Ha. apply Z.ltb_lt in Ha. lia.
           ++ intros v u [<- | Hv] Hv1 Hv2 Hv3; [|eauto].
              rewrite Hparse in Hv3. injection Hv3 as <-.
              unfold After. apply Z.ltb_ge. exact I1.
           ++ right. destruct I3 as [-> | (v & Hv & Hrest)].
              ** exists x. split_and!; auto. left. reflexivity.
              ** exists v. split; [right; exact Hv | exact Hrest].
        -- destruct (IH start Hstart) as (I1 & I2 & I3).
           cbv zeta in *. split_and!; [exact I1 | |].
           ++ intros v u [<- | Hv] Hv1 Hv2 Hv3; [|eauto].
              rewrite Hparse in Hv3. injection Hv3 as <-.
              unfold After in *. apply Z.ltb_ge in Ha. apply Z.ltb_ge. lia.
           ++ destruct I3 as [-> | (v & Hv & Hrest)]; [left; reflexivity|].
              right. exists v. split; [right; exact Hv | exact Hrest].
      * assert (Ha : After zeroTime start = false)
          by (unfold After; apply Z.ltb_ge; lia).
        rewrite Ha.
        destruct (IH start Hstart) as (I1 & I2 & I3).
        cbv zeta in *. split_and!; [exact I1 | |].
        -- intros v u [<- | Hv] Hv1 Hv2 Hv3; [congruence | eauto].
        -- destruct I3 as [-> | (v & Hv & Hrest)]; [left; reflexivity|].
           right. exists v. split; [right; exact Hv | exact Hrest].
    + destruct (IH start Hstart) as (I1 & I2 & I3).
      cbv zeta in *. split_and!; [exact I1 | |].
      * intros v u [<- | Hv] Hv1 Hv2 Hv3; [|eauto].
        apply nonEmpty_true in Hv1. rewrite Hv1, Hv2 in Hc. discriminate Hc.
      * destruct I3 as [-> | (v & Hv & Hrest)]; [left; reflexivity|].
        right. exists v. split; [right; exact Hv | exact Hrest].
Qed.

(** X25. The local baseline of a run is the latest [PublishAt] among the
    items that count (a non-empty [PublishAt] that parses, [IgnoreCalc]
    off): none of them lies after it, and it is the [PublishAt] of one of
    them, or the zero time when there is none after the zero time. *)
Theorem localMax_is_latest (videos : list VideoConfig) :
  let m := localMax parseRFC3339 videos zeroTime in
  (forall v t, List.In v videos -> PublishAt v <> "" -> IgnoreCalc v = false ->
     parseRFC3339 (PublishAt v) = Some t -> After t m = false)
  /\ (m = zeroTime
      \/ exists v, List.In v videos /\ PublishAt v <> "" /\ IgnoreCalc v = false
                   /\ parseRFC3339 (PublishAt v) = Some m).
Proof.
  destruct (localMax_from videos zeroTime ltac:(lia)) as (_ & H2 & H3).
  split; assumption.
Qed.

End Baseline.

End IdentifierFacts.

(** ** The download handler as a whole *)

Module PipelineFacts.
Import GoStrings GoTime Matcher MatcherFacts Store StoreSpec HistorySync Fetcher.
Import StoreHandlers Pipeline UpsertMore FetcherSpec FetcherMore.

Lemma linkOfDisplayID_nonempty (targetUniqueID url : string) (items : list MailboxItem) :
  linkOfDisplayID targetUniqueID items = Some url -> url <> "".
Proof.
  induction items as [|x items IH]; [discriminate|]. cbn [linkOfDisplayID].
  destruct (String.eqb (Kind x) sora_gen_complete
            && Contains (DisplayStr x) targetUniqueID
            && nonEmpty (DownloadableURL (Draft x))) eqn:E; [|exact IH].
  intros [= <-]. apply andb_prop in E as [_ E]. apply nonEmpty_true. exact E.
Qed.

Lemma storeLink_first (lookupID newURL : string) (videos : list VideoConfig) :
  match storeLink lookupID newURL videos with
  | Some saved =>
      exists i v, videos !! i = Some v /\ UniqueID v = lookupID
                  /\ (forall k u, (k < i)%nat -> videos !! k = Some u ->
                                  UniqueID u <> lookupID)
                  /\ saved = <[i := setDownloadURL v newURL]> videos
  | None => lookupID ∉ UniqueID <$> videos
  end.
Proof.
  induction videos as [|x rest IH]; cbn [storeLink].
  - rewrite fmap_nil. apply not_elem_of_nil.
  - destruct (String.eqb (UniqueID x) lookupID) eqn:E.
    + apply String.eqb_eq in E. exists 0%nat, x.
      split_and!; [reflexivity | exact E | intros k u Hk; lia | reflexivity].
    + apply String.eqb_neq in E.
      destruct (storeLink lookupID newURL rest) as [saved|]; cbn [mbind option_bind].
      * destruct IH as (i & v & Hi & Hv & Hmin & ->).
        exists (S i), v. split_and!; [exact Hi | exact Hv | | reflexivity].
        intros [|k] u Hk Hu; [cbn in Hu; congruence|].
        apply (Hmin k u); [lia | exact Hu].
      * rewrite fmap_cons, not_elem_of_cons. split; [congruence | exact IH].
Qed.

Section HandlerFacts.

Variable jsonUnmarshal : string -> option (list MailboxItem).
Variable loggedIn : bool.
Variable mailBody : option string.
Variable newRequest : string -> bool.
Variable clientDo : string -> option Response.
Variable canCreate : string -> bool.
Variable removeHeld : string -> bool.
Variable removeFile : string -> bool.
Variable now : Time.

Local Abbreviation backfill := (backfill jsonUnmarshal loggedIn mailBody).
Local Abbreviation history := (fetchSoraURLFromHistory jsonUnmarshal loggedIn mailBody).
Local Abbreviation handler :=
  (handleSoraDownloadAndRename jsonUnmarshal loggedIn mailBody newRequest clientDo
     canCreate removeHeld removeFile now).

(** X26. The back-fill step leaves a link that is there alone. When it
    writes the store, it has looked the link up in the history under the
    identifier of the request, or under the identifier of the first entry
    with the target file name, and writes it into the first entry with that
    identifier and into no other; the link is not empty and is the one
    the handler goes on with. *)
Theorem backfill_writes_history_link
    (uniqueIDLookup targetFilename targetURL : string) (store : list VideoConfig) :
  (targetURL <> "" ->
   backfill uniqueIDLookup targetFilename targetURL store = (targetURL, None))
  /\ forall saved,
       snd (backfill uniqueIDLookup targetFilename targetURL store) = Some saved ->
       exists lookupID i v,
         lookupID <> ""
         /\ (lookupID = uniqueIDLookup
             \/ (uniqueIDLookup = ""
                 /\ exists u, entryOfFile targetFilename store = Some u
                              /\ UniqueID u = lookupID /\ DownloadURL u = ""))
         /\ history lookupID
            = Some (fst (backfill uniqueIDLookup targetFilename targetURL store))
         /\ fst (backfill uniqueIDLookup targetFilename targetURL store) <> ""
         /\ store !! i = Some v /\ UniqueID v = lookupID
         /\ (forall k u, (k < i)%nat -> store !! k = Some u -> UniqueID u <> lookupID)
         /\ saved
            = <[i := setDownloadURL v
                       (fst (backfill uniqueIDLookup targetFilename targetURL store))]>
                store.
Proof.
  split.
  - intros H. unfold Pipeline.backfill. apply String.eqb_neq in H. rewrite H. reflexivity.
  - intros saved. unfold Pipeline.backfill.
    destruct (String.eqb targetURL "") eqn:Eurl; cbn [andb]; [|discriminate].
    apply String.eqb_eq in Eurl. subst targetURL.
    destruct (nonEmpty uniqueIDLookup || nonEmpty targetFilename); [|discriminate].
    assert (Hgo : forall lookupID,
              (lookupID = uniqueIDLookup
               \/ (uniqueIDLookup = ""
                   /\ exists u, entryOfFile targetFilename store = Some u
                                /\ UniqueID u = lookupID /\ DownloadURL u = "")) ->
              forall r,
                r = (if String.eqb "" "" && nonEmpty lookupID
                     then match history lookupID with
                          | Some newURL => (newURL, storeLink lookupID newURL store)
                          | None => (EmptyString, None)
                          end
                     else (EmptyString, None)) ->
                snd r = Some saved ->
                exists lookupID i v,
                  lookupID <> ""
                  /\ (lookupID = uniqueIDLookup
                      \/ (uniqueIDLookup = ""
                          /\ exists u, entryOfFile targetFilename store = Some u
                                       /\ UniqueID u = lookupID /\ DownloadURL u = ""))
                  /\ history lookupID = Some (fst r)
                  /\ fst r <> ""
                  /\ store !! i = Some v /\ UniqueID v = lookupID
                  /\ (forall k u, (k < i)%nat -> store !! k = Some u ->
                                  UniqueID u <> lookupID)
                  /\ saved = <[i := setDownloadURL v (fst r)]> store).
    { intros lookupID Hid r -> Hsaved. cbn [String.eqb andb] in Hsaved |- *.
      destruct (nonEmpty lookupID) eqn:En; [|discriminate].
      apply nonEmpty_true in En.
      destruct (history lookupID) as [newURL|] eqn:Hh; [|discriminate].
      cbn [fst snd] in *.
      pose proof (storeLink_first lookupID newURL store) as Hst.
      rewrite Hsaved in Hst. destruct Hst as (i & v & Hi & Hv & Hmin & ->).
      exists lookupID, i, v. split_and!; auto.
      unfold StoreHandlers.fetchSoraURLFromHistory in Hh.
      destruct (negb loggedIn); [discriminate|].
      destruct mailBody as [body|]; [|discriminate]. cbn [mbind option_bind] in Hh.
      destruct (jsonUnmarshal body) as [items|]; [|discriminate].
      cbn [mbind option_bind] in Hh. eapply linkOfDisplayID_nonempty, Hh. }
    destruct (nonEmpty uniqueIDLookup) eqn:Eu.
    + intros Hsaved. eapply (Hgo uniqueIDLookup); [left; reflexivity | reflexivity | exact Hsaved].
    + assert (uniqueIDLookup = "").
      { unfold nonEmpty in Eu. apply negb_false_iff, String.eqb_eq in Eu. exact Eu. }
      destruct (entryOfFile targetFilename store) as [u|] eqn:He.
      * destruct (nonEmpty (DownloadURL u)) eqn:Ed.
        -- apply nonEmpty_true, String.eqb_neq in Ed. rewrite Ed. discriminate.
        -- assert (DownloadURL u = "").
           { unfold nonEmpty in Ed. apply negb_false_iff, String.eqb_eq in Ed. exact Ed. }
           intros Hsaved. eapply (Hgo (UniqueID u)); [right; eauto | reflexivity | exact Hsaved].
      * cbn. discriminate.
Qed.







End HandlerFacts.


(** A reconciliation call: the request names a file that is in place
    with 2048 bytes and carries no URL; the store knows the item by its
    identifier and has no link for it. The back-fill asks the history
    service before the pre-check of the fetch step is reached. *)
Example handleSoraDownloadAndRename_asks_history_first :
  let record :=
    {| item_ID := "mail_1"; Kind := sora_gen_complete;
       DisplayStr := "S2_1_2_3 a cat";
       Draft := {| draft_ID := "gen_1"; draft_TaskID := "task_1";
                   DownloadableURL := "https://videos.example/files/aaa/raw" |} |} in
  let r :=
    handleSoraDownloadAndRename (decoderOf [record]) true (Some (jsonFeed [record]))
      (fun _ => true) (fun _ => None) (fun _ => true) (fun _ => true) (fun _ => true)
      zeroTime
      {| req_URL := ""; req_Filename := "S2_1_2_3.mp4"; req_MetaJSON := None;
         req_UniqueIDLookup := "" |}
      [pendingItem "S2_1_2_3" "S2_1_2_3.mp4"]
      {["S2_1_2_3.mp4" := filler 2048]} in
  fst (fst (fst r))
  = Some {| ans_filename := "S2_1_2_3.mp4"; ans_message := MsgAlreadyExists |}
  /\ snd r = [HistoryGET].
Proof. cbv zeta. split; vm_compute; reflexivity. Qed.

End PipelineFacts.

(** ** Where a run starts *)

Module BaselineFacts.
Import GoStrings GoTime GoTimeFacts SlotAllocator SlotSpec SlotFacts SlotMore.
Import Matcher MatcherFacts Store Orchestrator OrchestratorSpec OrchestratorFacts.
Import OrchestratorMore IdentifierFacts RunHandler.

Section StartFacts.

Variable ScheduleSlots : list string.
Variable now : Time.
Variable parseRFC3339 : string -> option Time.
Variable clocks : list Z.
Hypothesis slots_ok : mapM clockOfSlot ScheduleSlots = Some clocks.
Hypothesis slots_ne : ScheduleSlots <> [].

Lemma startClock_unfold (startDate lastTime : Time) (loaded : list VideoConfig) :
  startClock ScheduleSlots now parseRFC3339 startDate lastTime loaded
  = (if IsZero startDate
     then calculateNextSlot ScheduleSlots now
            (if After (localMax parseRFC3339 loaded zeroTime) lastTime
             then localMax parseRFC3339 loaded zeroTime else lastTime)
     else if After (if After (localMax parseRFC3339 loaded zeroTime) lastTime
                    then localMax parseRFC3339 loaded zeroTime else lastTime)
                   (Date (Year startDate) (Month startDate) (Day startDate) 0 0 0 0 Taipei)
          then calculateNextSlot ScheduleSlots now
                 (if After (localMax parseRFC3339 loaded zeroTime) lastTime
                  then localMax parseRFC3339 loaded zeroTime else lastTime)
          else Some (Date (Year startDate) (Month startDate) (Day startDate)
                          0 0 0 0 Taipei)).
Proof. reflexivity. Qed.

(** The choice of the start clock, for a baseline [base] whose next slot
    is [next] and a start day [day]. *)
Lemma start_choice (zero : bool) (base next day t : Time) :
  unixNano t <= unixNano base ->
  After next base = true ->
  exists start,
    (if zero then Some next else if After base day then Some next else Some day)
    = Some start
    /\ After t start = false
    /\ (zero = true -> After start t = true).
Proof.
  unfold After. intros Hbase Hnext. apply Z.ltb_lt in Hnext.
  destruct zero.
  - exists next. split_and!; [reflexivity | apply Z.ltb_ge; lia |].
    intros _. apply Z.ltb_lt. lia.
  - destruct (unixNano day <? unixNano base) eqn:Hd.
    + exists next. split_and!; [reflexivity | apply Z.ltb_ge; lia | discriminate].
    + apply Z.ltb_ge in Hd.
      exists day. split_and!; [reflexivity | apply Z.ltb_ge; lia | discriminate].
Qed.

(** X29. With a well-formed slot list a run starts at a clock that is not
    before anything that is scheduled already: not before the latest time
    the hosting service reports, and not before the [PublishAt] of any
    item of the store that counts. A run without start date starts strictly
    after all of them. (Times that are not after the zero time do not
    count as scheduled.) *)
Theorem startClock_after_scheduled
    (startDate lastTime : Time) (loaded : list VideoConfig) :
  exists start,
    startClock ScheduleSlots now parseRFC3339 startDate lastTime loaded = Some start
    /\ forall t,
         After t zeroTime = true ->
         (t = lastTime
          \/ exists v, List.In v loaded /\ PublishAt v <> "" /\ IgnoreCalc v = false
                       /\ parseRFC3339 (PublishAt v) = Some t) ->
         After t start = false
         /\ (IsZero startDate = true -> After start t = true).
Proof.
  rewrite startClock_unfold.
  destruct (localMax_from parseRFC3339 loaded zeroTime ltac:(lia)) as (_ & L2 & _).
  cbv zeta in L2.
  assert (Hbase : forall t,
            (t = lastTime
             \/ exists v, List.In v loaded /\ PublishAt v <> "" /\ IgnoreCalc v = false
                          /\ parseRFC3339 (PublishAt v) = Some t) ->
            unixNano t
            <= unixNano (if After (localMax parseRFC3339 loaded zeroTime) lastTime
                         then localMax parseRFC3339 loaded zeroTime else lastTime)).
  { intros t [-> | (v & Hv & Hp & Hi & Ht)].
    - destruct (After _ lastTime) eqn:E; [|lia].
      unfold After in E. apply Z.ltb_lt in E. lia.
    - specialize (L2 v t Hv Hp Hi Ht). unfold After in L2. apply Z.ltb_ge in L2.
      destruct (After _ lastTime) eqn:E; [lia|].
      unfold After in E. apply Z.ltb_ge in E. lia. }
  clear L2. revert Hbase.
  generalize (if After (localMax parseRFC3339 loaded zeroTime) lastTime
              then localMax parseRFC3339 loaded zeroTime else lastTime).
  intros base Hbase.
  generalize (Date (Year startDate) (Month startDate) (Day startDate) 0 0 0 0 Taipei).
  intros day.
  destruct (calculateNextSlot_forward ScheduleSlots now clocks slots_ok slots_ne base)
    as (next & -> & Hafter).
  destruct (IsZero base) eqn:Hzero.
  - (* nothing after the zero time is scheduled *)
    destruct (IsZero startDate); [|destruct (After base day)]; eexists;
      (split; [reflexivity|]); intros t Ht Hsrc; specialize (Hbase t Hsrc);
      exfalso; clear - Ht Hbase Hzero; unfold After, IsZero in *;
      apply Z.ltb_lt in Ht; apply Z.eqb_eq in Hzero; lia.
  - specialize (Hafter eq_refl).
    destruct (start_choice (IsZero startDate) base next day base ltac:(lia) Hafter)
      as (start & Hstart & _). rewrite Hstart.
    exists start. split; [reflexivity|]. intros t Ht Hsrc.
    destruct (start_choice (IsZero startDate) base next day t (Hbase t Hsrc) Hafter)
      as (start' & Hstart' & H1 & H2).
    assert (start' = start) as -> by congruence.
    split; assumption.
Qed.

End StartFacts.

Lemma startClock_after_scheduled_witness :
  exists start,
    startClock defaultScheduleSlots zeroTime noStamp zeroTime
      (Date 2024 3 10 9 30 0 0 Taipei) [autoItem "a.mp4"] = Some start
    /\ After start (Date 2024 3 10 9 30 0 0 Taipei) = true.
Proof.
  destruct (startClock_after_scheduled defaultScheduleSlots zeroTime noStamp
              [0; 28800; 43200; 57600] eq_refl ltac:(discriminate)
              zeroTime (Date 2024 3 10 9 30 0 0 Taipei) [autoItem "a.mp4"])
    as (start & Hstart & Hafter).
  exists start. split; [exact Hstart|].
  destruct (Hafter (Date 2024 3 10 9 30 0 0 Taipei) eq_refl (or_introl eq_refl))
    as [_ H].
  apply H. reflexivity.
Defined.

(** *** [handleYoutubeRun] *)

(** X30. The run handler drops the error of [strconv.Atoi]: when the
    [limit] parameter is absent, is no number or is not positive, the limit
    is not positive and the run, if it ends, uploads nothing and leaves the
    store, the files and the schedule as they are. *)
Theorem handleYoutubeRun_needs_limit
    (slots : list string) (now : Time) (parseRFC3339 : string -> option Time)
    (uploadVideo : nat -> VideoConfig -> bool) (parseDate : string -> option Time)
    (limitParam dateStr : string) (clientSecret : bool) (lastTime : Time)
    (loaded : list VideoConfig) (files0 : gset string) (r : RunState) :
  limitParam = "" \/ snd (Atoi limitParam) = true /\ Z.abs (fst (Atoi limitParam)) < maxInt64
  \/ fst (Atoi limitParam) <= 0 ->
  handleYoutubeRun slots now parseRFC3339 uploadVideo parseDate limitParam dateStr
    clientSecret lastTime loaded files0 = Some r ->
  videos r = loaded /\ saves r = [] /\ events r = [] /\ files r = files0
  /\ processed r = 0.
Proof.
  intros Hlimit. unfold handleYoutubeRun.
  assert (Hle : fst (Atoi limitParam) <= 0).
  { destruct Hlimit as [-> | [[Herr Hsmall] | H]]; [cbn; lia | | exact H].
    revert Herr Hsmall. unfold Atoi.
    destruct (match limitParam with
              | String "-" r => (true, r)
              | String "+" r => (false, r)
              | _ => (false, limitParam)
              end) as [neg body].
    destruct body as [|c body]; [cbn; lia|].
    destruct (digitsFrom 0 (String c body)) as [un|]; [|cbn; lia].
    destruct neg.
    - destruct (Z.leb minInt64 (- un)); cbn [fst snd]; [discriminate|].
      unfold minInt64, maxInt64. lia.
    - destruct (Z.leb un maxInt64); cbn [fst snd]; [discriminate|].
      unfold maxInt64. lia. }
  cbv zeta. set (startDate := if nonEmpty dateStr then _ else _).
  unfold processScheduleAndUpload.
  destruct clientSecret; [|discriminate]. cbn [negb].
  destruct (startClock _ _ _ _ _ _) as [clock|]; [|discriminate].
  cbn [mbind option_bind].
  rewrite loop_at_limit by (cbn [processed]; lia).
  intros [= <-]. cbn. auto.
Qed.

Lemma handleYoutubeRun_needs_limit_witness :
  match handleYoutubeRun defaultScheduleSlots zeroTime noStamp (fun _ _ => true)
          (fun _ => None) "" "" true (Date 2024 3 10 9 30 0 0 Taipei)
          [autoItem "a.mp4"] {["a.mp4"]} with
  | Some r => saves r = []
  | None => False
  end.
Proof.
  destruct (handleYoutubeRun defaultScheduleSlots zeroTime noStamp (fun _ _ => true)
              (fun _ => None) "" "" true (Date 2024 3 10 9 30 0 0 Taipei)
              [autoItem "a.mp4"] {["a.mp4"]}) as [r|] eqn:E;
    [|vm_compute in E; discriminate].
  destruct (handleYoutubeRun_needs_limit _ _ _ _ _ _ _ _ _ _ _ r (or_introl eq_refl) E)
    as (_ & H & _).
  exact H.
Defined.

End BaselineFacts.
